(** * Masjid prayer-time board: next-prayer resolver, countdown, notices,
      cache-first storage and login, verified against the TypeScript source.

    The development is a shallow embedding.  Each definition carries the
    name of the source function it embeds and follows its control flow
    statement by statement.  The functions of the host language that the
    source calls ([Number], [Date.parse], [JSON.parse], [JSON.stringify],
    [toLowerCase], [trim]) are variables of the sections that use them, so
    that every theorem holds for any behaviour of theirs; the modules [JS],
    [ISODate] and [Codec] give executable versions for the examples.

    Layout: host values; the types of types.ts; the clock; the resolver,
    the countdown and the notice filter of the App component; the world
    (local storage, network replies, console) and the storage and login
    services; then the properties, component by component. *)

From Stdlib Require Import ZArith QArith Qminmax Qround Lia String Ascii List.
From Stdlib Require Import Sorting.Permutation Sorting.Sorted.
From Stdlib Require DecimalString DecimalZ.
From stdpp Require Import base option list gmap strings.
Import ListNotations.

Local Open Scope string_scope.
Local Open Scope list_scope.
Local Open Scope Z_scope.

(* ===================================================================== *)
(** * Host-language values *)
(* ===================================================================== *)

(** JavaScript numbers as the code meets them: [NaN], the two
    infinities, or a finite value, kept exactly as a rational.  Rounding
    to double precision is not modelled, and there is one zero. *)
Inductive number : Type :=
| NaN
| Num (q : Q)
| PosInf
| NegInf.

Definition ofZ (z : Z) : number := Num (inject_Z z).

Module JS.

(** [-a]. *)
Definition neg (a : number) : number :=
  match a with
  | NaN => NaN
  | Num x => Num (- x)
  | PosInf => NegInf
  | NegInf => PosInf
  end.

(** [a + b]: infinities of opposite sign cancel to NaN. *)
Definition add (a b : number) : number :=
  match a, b with
  | NaN, _ => NaN
  | _, NaN => NaN
  | Num x, Num y => Num (x + y)
  | PosInf, NegInf => NaN
  | NegInf, PosInf => NaN
  | PosInf, _ => PosInf
  | _, PosInf => PosInf
  | NegInf, _ => NegInf
  | _, NegInf => NegInf
  end.

(** [a - b]. *)
Definition sub (a b : number) : number :=
  match a, b with
  | NaN, _ => NaN
  | _, NaN => NaN
  | Num x, Num y => Num (x - y)
  | PosInf, PosInf => NaN
  | NegInf, NegInf => NaN
  | PosInf, _ => PosInf
  | NegInf, _ => NegInf
  | Num _, PosInf => NegInf
  | Num _, NegInf => PosInf
  end.

(** An infinity times a finite number: NaN for zero, else the sign rule. *)
Definition scale_infinity (i : number) (y : Q) : number :=
  match Qcompare 0 y with
  | Eq => NaN
  | Lt => i
  | Gt => neg i
  end.

(** [a * b]. *)
Definition mul (a b : number) : number :=
  match a, b with
  | NaN, _ => NaN
  | _, NaN => NaN
  | Num x, Num y => Num (x * y)
  | Num x, i => scale_infinity i x
  | i, Num y => scale_infinity i y
  | PosInf, PosInf => PosInf
  | NegInf, NegInf => PosInf
  | PosInf, NegInf => NegInf
  | NegInf, PosInf => NegInf
  end.

(** [a / b].  A finite number over zero is an infinity of its sign (zero
    over zero is NaN), anything finite over an infinity is zero, and an
    infinity over an infinity is NaN. *)
Definition div (a b : number) : number :=
  match a, b with
  | NaN, _ => NaN
  | _, NaN => NaN
  | Num x, Num y =>
      if Qeq_bool y 0 then
        match Qcompare 0 x with
        | Eq => NaN
        | Lt => PosInf
        | Gt => NegInf
        end
      else Num (x / y)
  | Num _, _ => Num 0
  | i, Num y => if Qle_bool 0 y then i else neg i
  | _, _ => NaN
  end.

(** [a > b]: false as soon as one side is NaN. *)
Definition gt (a b : number) : bool :=
  match a, b with
  | Num x, Num y => negb (Qle_bool x y)
  | PosInf, Num _ => true
  | PosInf, NegInf => true
  | Num _, NegInf => true
  | _, _ => false
  end.

(** [Math.max(a, b)] and [Math.min(a, b)]: NaN is contagious. *)
Definition Math_max (a b : number) : number :=
  match a, b with
  | NaN, _ => NaN
  | _, NaN => NaN
  | Num x, Num y => Num (Qmax x y)
  | PosInf, _ => PosInf
  | _, PosInf => PosInf
  | NegInf, _ => b
  | _, NegInf => a
  end.

Definition Math_min (a b : number) : number :=
  match a, b with
  | NaN, _ => NaN
  | _, NaN => NaN
  | Num x, Num y => Num (Qmin x y)
  | NegInf, _ => NegInf
  | _, NegInf => NegInf
  | PosInf, _ => b
  | _, PosInf => a
  end.

(** [s.split(sep)] for a one-character separator: always at least one
    piece, the empty string splits into one empty piece. *)
Fixpoint split (sep : ascii) (s : string) : list string :=
  match s with
  | EmptyString => [EmptyString]
  | String c rest =>
      if Ascii.eqb c sep then EmptyString :: split sep rest
      else match split sep rest with
           | piece :: pieces => String c piece :: pieces
           | [] => [String c EmptyString]
           end
  end.

(** White space that [Number] and [trim] strip (the ASCII part of it). *)
Definition is_space (c : ascii) : bool :=
  let n := nat_of_ascii c in
  ((n =? 32) || (n =? 9) || (n =? 10) || (n =? 11) || (n =? 12) || (n =? 13))%nat.

Fixpoint trimStart (s : string) : string :=
  match s with
  | String c rest => if is_space c then trimStart rest else s
  | EmptyString => EmptyString
  end.

Fixpoint trimEnd (s : string) : string :=
  match s with
  | EmptyString => EmptyString
  | String c rest =>
      match trimEnd rest with
      | EmptyString => if is_space c then EmptyString else String c EmptyString
      | kept => String c kept
      end
  end.

(** [s.trim()]. *)
Definition trim (s : string) : string := trimEnd (trimStart s).

Definition digit_of (c : ascii) : option Z :=
  let n := nat_of_ascii c in
  if ((48 <=? n) && (n <=? 57))%nat then Some (Z.of_nat n - 48) else None.

(** Value of a run of decimal digits read after the prefix value [acc];
    [None] when a character is not a digit. *)
Fixpoint digits_from (acc : Z) (s : string) : option Z :=
  match s with
  | EmptyString => Some acc
  | String c rest =>
      match digit_of c with
      | Some d => digits_from (acc * 10 + d) rest
      | None => None
      end
  end.

(** An unsigned decimal literal: digits, optionally a point and digits
    (at least one digit in all). *)
Definition unsigned_literal (s : string) : option Q :=
  match split "." s with
  | [i] =>
      if String.eqb i EmptyString then None
      else z ← digits_from 0 i; Some (inject_Z z)
  | [i; f] =>
      if String.eqb i EmptyString && String.eqb f EmptyString then None
      else
        zi ← digits_from 0 i;
        zf ← digits_from 0 f;
        let scale := 10 ^ Z.of_nat (String.length f) in
        Some (Qmake (zi * scale + zf) (Z.to_pos scale))
  | _ => None
  end.

(** [s.toLowerCase()] on the ASCII letters. *)
Definition lower_char (c : ascii) : ascii :=
  let n := nat_of_ascii c in
  if ((65 <=? n) && (n <=? 90))%nat then ascii_of_nat (n + 32) else c.

Fixpoint toLowerCase (s : string) : string :=
  match s with
  | EmptyString => EmptyString
  | String c rest => String (lower_char c) (toLowerCase rest)
  end.

(** A literal without its sign: [Infinity] or a decimal literal. *)
Definition unsigned_number (s : string) : number :=
  if String.eqb s "Infinity" then PosInf
  else match unsigned_literal s with
       | Some q => Num q
       | None => NaN
       end.

(** [Number(s)] on the decimal literals: surrounding white space is
    ignored, the empty string is 0, an optional sign may lead, and any
    other text is NaN.  Exponents and radix prefixes are not interpreted;
    clock strings never use them. *)
Definition Number (s : string) : number :=
  let t := trim s in
  match t with
  | EmptyString => Num 0
  | String "-" u => neg (unsigned_number u)
  | String "+" u => unsigned_number u
  | _ => unsigned_number t
  end.

End JS.

(** A number is a given rational, up to the equality of rationals. *)
Definition num_is (n : number) (q : Q) : Prop :=
  match n with
  | Num p => (p == q)%Q
  | _ => False
  end.

(** A number lies in a closed interval of rationals. *)
Definition num_within (lo hi : Q) (n : number) : Prop :=
  match n with
  | Num p => (lo <= p)%Q /\ (p <= hi)%Q
  | _ => False
  end.


(** Plain data as [JSON.parse] yields it and [JSON.stringify] accepts it:
    the run-time form of every value the application stores.  Numbers in
    stored data are whole (millisecond stamps). *)
#[warnings="-register-all"]
Inductive json : Type :=
| JNull
| JBool (b : bool)
| JNum (z : Z)
| JStr (s : string)
| JArr (items : list json)
| JObj (fields : list (string * json)).

(** Truthiness of a value; [undefined] (a missing property) is falsy. *)
Definition truthy (v : json) : bool :=
  match v with
  | JNull => false
  | JBool b => b
  | JNum z => negb (z =? 0)
  | JStr s => negb (String.eqb s EmptyString)
  | JArr _ => true
  | JObj _ => true
  end.

Definition truthy_opt (o : option json) : bool :=
  match o with
  | Some v => truthy v
  | None => false
  end.

Fixpoint assoc (k : string) (fields : list (string * json)) : option json :=
  match fields with
  | [] => None
  | (k', v) :: rest => if String.eqb k' k then Some v else assoc k rest
  end.

(** [v.k] for a value that is not [null]; [None] is [undefined].  Only
    the data properties of objects are modelled. *)
Definition prop (v : json) (k : string) : option json :=
  match v with
  | JObj fields => assoc k fields
  | _ => None
  end.

(** The fields of an object after [obj.k = v]: an existing key keeps its
    place, a new key goes last. *)
Fixpoint assign (k : string) (v : json) (fields : list (string * json))
  : list (string * json) :=
  match fields with
  | [] => [(k, v)]
  | (k', v') :: rest =>
      if String.eqb k' k then (k, v) :: rest else (k', v') :: assign k v rest
  end.

(** The fields of an object after [delete obj.k]. *)
Definition delete_key (k : string) (fields : list (string * json))
  : list (string * json) :=
  List.filter (fun kv => negb (String.eqb (fst kv) k)) fields.

(** Own enumerable properties copied by an object spread [{ ...v }]:
    an object's fields, an array's elements under their indices, nothing
    for anything else. *)
Definition spread (v : json) : list (string * json) :=
  match v with
  | JObj fields => fields
  | JArr items =>
      List.map (fun iv => (DecimalString.NilZero.string_of_int
                             (Z.to_int (Z.of_nat (fst iv))), snd iv))
               (List.combine (List.seq 0 (List.length items)) items)
  | _ => []
  end.

(* ===================================================================== *)
(** * types.ts *)
(* ===================================================================== *)

Record PrayerTime : Type := mkPrayerTime {
  pt_azan : string;
  pt_iqamah : string
}.

Record DailyPrayers : Type := mkDailyPrayers {
  fajr : PrayerTime;
  zuhr : PrayerTime;
  asr : PrayerTime;
  maghrib : PrayerTime;
  isha : PrayerTime
}.

Record JummaTime : Type := mkJummaTime {
  khutbah : string;
  jamaat : string
}.

Record RamadanTime : Type := mkRamadanTime {
  ramadan_enabled : bool;
  suhoor : string;
  iftar : string
}.

Record MasjidProfile : Type := mkMasjidProfile {
  profile_name : string;
  area : string
}.

Record Notice : Type := mkNotice {
  notice_id : string;
  title : string;
  message : string;
  date : string;
  expiryDate : option string;
  isImportant : bool
}.

Record ExternalLink : Type := mkExternalLink {
  link_id : string;
  link_title : string;
  url : string
}.

Inductive Role : Type := SUPER_ADMIN | ADMIN.

Record User : Type := mkUser {
  user_id : string;
  email : string;
  password : option string;
  role : Role;
  enabled : bool
}.

Record AppData : Type := mkAppData {
  profile : MasjidProfile;
  prayers : DailyPrayers;
  jumma : JummaTime;
  ramadan : RamadanTime;
  notices : list Notice;
  users : list User;
  links : list ExternalLink;
  lastUpdated : string
}.

(** ** The run-time form of the typed values *)

Definition PrayerTime_json (p : PrayerTime) : json :=
  JObj [("azan", JStr (pt_azan p)); ("iqamah", JStr (pt_iqamah p))].

Definition DailyPrayers_json (d : DailyPrayers) : json :=
  JObj [("fajr", PrayerTime_json (fajr d)); ("zuhr", PrayerTime_json (zuhr d));
        ("asr", PrayerTime_json (asr d)); ("maghrib", PrayerTime_json (maghrib d));
        ("isha", PrayerTime_json (isha d))].

Definition JummaTime_json (j : JummaTime) : json :=
  JObj [("khutbah", JStr (khutbah j)); ("jamaat", JStr (jamaat j))].

Definition RamadanTime_json (r : RamadanTime) : json :=
  JObj [("enabled", JBool (ramadan_enabled r)); ("suhoor", JStr (suhoor r));
        ("iftar", JStr (iftar r))].

Definition MasjidProfile_json (p : MasjidProfile) : json :=
  JObj [("name", JStr (profile_name p)); ("area", JStr (area p))].

(** An optional field that is absent is not a key of the object. *)
Definition optional_field (k : string) (o : option string) : list (string * json) :=
  match o with
  | Some s => [(k, JStr s)]
  | None => []
  end.

Definition Notice_json (n : Notice) : json :=
  JObj ([("id", JStr (notice_id n)); ("title", JStr (title n));
         ("message", JStr (message n)); ("date", JStr (date n))]
        ++ optional_field "expiryDate" (expiryDate n)
        ++ [("isImportant", JBool (isImportant n))]).

Definition ExternalLink_json (l : ExternalLink) : json :=
  JObj [("id", JStr (link_id l)); ("title", JStr (link_title l)); ("url", JStr (url l))].

Definition Role_json (r : Role) : json :=
  match r with
  | SUPER_ADMIN => JStr "SUPER_ADMIN"
  | ADMIN => JStr "ADMIN"
  end.

Definition User_json (u : User) : json :=
  JObj ([("id", JStr (user_id u)); ("email", JStr (email u))]
        ++ optional_field "password" (password u)
        ++ [("role", Role_json (role u)); ("enabled", JBool (enabled u))]).

Definition AppData_json (d : AppData) : json :=
  JObj [("profile", MasjidProfile_json (profile d));
        ("prayers", DailyPrayers_json (prayers d));
        ("jumma", JummaTime_json (jumma d));
        ("ramadan", RamadanTime_json (ramadan d));
        ("notices", JArr (List.map Notice_json (notices d)));
        ("links", JArr (List.map ExternalLink_json (links d)));
        ("users", JArr (List.map User_json (users d)));
        ("lastUpdated", JStr (lastUpdated d))].

(** ** storage.ts: the built-in default state

    [INITIAL_DATA] stamps its welcome notice and [lastUpdated] with the
    instant the module was loaded, [startedAt]. *)
Definition INITIAL_DATA (startedAt : string) : AppData :=
  mkAppData
    (mkMasjidProfile "Masjid Al-Noor" "Downtown Community")
    (mkDailyPrayers (mkPrayerTime "05:30" "06:00") (mkPrayerTime "13:00" "13:30")
                    (mkPrayerTime "16:30" "17:00") (mkPrayerTime "19:45" "19:55")
                    (mkPrayerTime "21:00" "21:30"))
    (mkJummaTime "13:15" "13:45")
    (mkRamadanTime false "04:45" "19:55")
    [mkNotice "welcome-msg" "System Connected"
              "The prayer display system is online and synced." startedAt None false]
    [mkUser "root-super-admin" "darzaid700@gmail.com" (Some "darzaid123") SUPER_ADMIN true]
    []
    startedAt.

(** The default state of a board started on 1 May 2024; its timetable is
    the one of the specification's examples. *)
Definition sample_data : AppData := INITIAL_DATA "2024-05-01T08:00:00.000Z".

(** A state with another iqamah time for Fajr. *)
Definition with_fajr_iqamah (s : AppData) (time : string) : AppData :=
  let p := prayers s in
  mkAppData (profile s)
            (mkDailyPrayers (mkPrayerTime (pt_azan (fajr p)) time)
                            (zuhr p) (asr p) (maghrib p) (isha p))
            (jumma s) (ramadan s) (notices s) (users s) (links s) (lastUpdated s).

(* ===================================================================== *)
(** * The clock *)
(* ===================================================================== *)

(** A [Date] is a wall-clock instant: milliseconds of local time counted
    from local midnight of 1 January 1970.  The zone has a fixed offset
    (no daylight-saving jumps), so differences of [getTime] are differences
    of [wall]. *)
Record Date : Type := mkDate { wall : Z }.

Definition MS_PER_MINUTE : Z := 60000.
Definition MS_PER_HOUR : Z := 3600000.
Definition MS_PER_DAY : Z := 86400000.

Definition Date_getHours (d : Date) : Z := (wall d / MS_PER_HOUR) mod 24.
Definition Date_getMinutes (d : Date) : Z := (wall d / MS_PER_MINUTE) mod 60.
(** Day of week, 0 = Sunday; 1 January 1970 was a Thursday. *)
Definition Date_getDay (d : Date) : Z := (wall d / MS_PER_DAY + 4) mod 7.

(** A date given by day number, hour, minute, second. *)
Definition at_clock (day h m s : Z) : Date :=
  mkDate (day * MS_PER_DAY + h * MS_PER_HOUR + m * MS_PER_MINUTE + s * 1000).

(* ===================================================================== *)
(** * The next-prayer resolver (App component, [nextPrayerState]) *)
(* ===================================================================== *)

(** One row of the day's schedule: [{ name, azan, iqamah }]. *)
Record Entry : Type := mkEntry {
  name : string;
  azan : string;
  iqamah : string
}.

(** The local variables of [nextPrayerState] at its [return]. *)
Record Locals : Type := mkLocals {
  nextIndex : Z;
  next : Entry;
  isTomorrow : bool;
  prevPrayerTime : number;
  nextPrayerTime : number;
  totalDuration : number;
  elapsed : number;
  progress : number
}.

(** The object [nextPrayerState] returns: [{ ...next, isTomorrow, progress }]. *)
Record NextPrayer : Type := mkNextPrayer {
  np_name : string;
  np_azan : string;
  np_iqamah : string;
  np_isTomorrow : bool;
  np_progress : number
}.

(** [arr.findIndex(p)]: index of the first element satisfying [p], or -1. *)
Fixpoint findIndex {A : Type} (p : A -> bool) (l : list A) : Z :=
  match l with
  | [] => -1
  | x :: rest =>
      if p x then 0
      else let i := findIndex p rest in if i =? -1 then -1 else i + 1
  end.

Section Resolver.

(** The host's string-to-number conversion.  The resolver is verified for
    every such conversion; [JS.Number] is the one used in the examples. *)
Variable Number : string -> number.

(** [getMinutes]: [const [h, m] = time.split(':').map(Number); return h * 60 + m].
    A piece that is missing is [undefined], which arithmetic turns into NaN. *)
Definition getMinutes (time : string) : number :=
  let parts := map Number (JS.split ":" time) in
  let h := default NaN (parts !! 0%nat) in
  let m := default NaN (parts !! 1%nat) in
  JS.add (JS.mul h (ofZ 60)) m.

(** The schedule array of [nextPrayerState], with the Friday substitution. *)
Definition schedule_of (data : AppData) (isFri : bool) : list Entry :=
  let schedule :=
    [ mkEntry "Fajr" (pt_azan (fajr (prayers data))) (pt_iqamah (fajr (prayers data)));
      mkEntry "Zuhr" (pt_azan (zuhr (prayers data))) (pt_iqamah (zuhr (prayers data)));
      mkEntry "Asr" (pt_azan (asr (prayers data))) (pt_iqamah (asr (prayers data)));
      mkEntry "Maghrib" (pt_azan (maghrib (prayers data))) (pt_iqamah (maghrib (prayers data)));
      mkEntry "Isha" (pt_azan (isha (prayers data))) (pt_iqamah (isha (prayers data))) ] in
  if isFri then
    map (fun p => if String.eqb (name p) "Zuhr"
                  then mkEntry "Jumma" (khutbah (jumma data)) (jamaat (jumma data))
                  else p) schedule
  else schedule.

(** The predicate handed to [findIndex]: [getMinutes(p.iqamah) > currentMinutes]. *)
Definition later (currentMinutes : number) (p : Entry) : bool :=
  JS.gt (getMinutes (iqamah p)) currentMinutes.

(** The body of [nextPrayerState] after the schedule is built.  [None]
    stands for the TypeError of reading a field of a missing array slot. *)
Definition resolve (schedule : list Entry) (currentMinutes : number) : option Locals :=
  let nextIndex := findIndex (later currentMinutes) schedule in
  let next := if nextIndex =? -1 then None else schedule !! Z.to_nat nextIndex in
  let branch : option (Entry * bool * Z * number * number) :=
    match next with
    | None =>
        next ← schedule !! 0%nat;
        isha ← schedule !! 4%nat;
        Some (next, true, 0,
              getMinutes (iqamah isha),
              JS.add (getMinutes (iqamah next)) (ofZ (24 * 60)))
    | Some next =>
        let prevIndex := if nextIndex =? 0 then 4 else nextIndex - 1 in
        prev ← schedule !! Z.to_nat prevIndex;
        let prevPrayerTime := getMinutes (iqamah prev) in
        let nextPrayerTime := getMinutes (iqamah next) in
        let prevPrayerTime :=
          if nextIndex =? 0 then JS.sub prevPrayerTime (ofZ (24 * 60))
          else prevPrayerTime in
        Some (next, false, nextIndex, prevPrayerTime, nextPrayerTime)
    end in
  match branch with
  | None => None
  | Some (next, isTomorrow, nextIndex, prevPrayerTime, nextPrayerTime) =>
  let totalDuration := JS.sub nextPrayerTime prevPrayerTime in
  let elapsed :=
    JS.sub (if isTomorrow then JS.add currentMinutes (ofZ (24 * 60)) else currentMinutes)
           prevPrayerTime in
  let progress :=
    if JS.gt totalDuration (ofZ 0)
    then JS.Math_min (ofZ 100)
           (JS.Math_max (ofZ 0) (JS.mul (JS.div elapsed totalDuration) (ofZ 100)))
    else ofZ 0 in
  Some (mkLocals nextIndex next isTomorrow prevPrayerTime nextPrayerTime
                 totalDuration elapsed progress)
  end.

(** [now.getHours() * 60 + now.getMinutes()]. *)
Definition currentMinutes_of (now : Date) : number :=
  ofZ (Date_getHours now * 60 + Date_getMinutes now).

(** [nextPrayerState] once the data is loaded (its [if (!data) return null]
    guard is left to the caller).  [None] is [resolve]'s; with the five
    rows of [schedule_of] it does not occur. *)
Definition nextPrayerState (data : AppData) (currentTime : Date) : option NextPrayer :=
  let now := currentTime in
  let currentMinutes := currentMinutes_of now in
  let isFri := Date_getDay now =? 5 in
  r ← resolve (schedule_of data isFri) currentMinutes;
  Some (mkNextPrayer (name (next r)) (azan (next r)) (iqamah (next r))
                     (isTomorrow r) (progress r)).

End Resolver.

(* ===================================================================== *)
(** * The countdown (App component, [countdownStr]) *)
(* ===================================================================== *)


(** [ToIntegerOrInfinity] on a finite number: truncation towards zero. *)
Definition toInteger (q : Q) : Z :=
  if Qle_bool 0 q then Qfloor q else Qceiling q.

(** The time value of a [Date] object that may be invalid: [None] is the
    NaN time value of an Invalid Date. *)
Definition timeValue : Type := option Z.

(** [target.setHours(h, m, 0, 0)]: the day of the time value is kept and
    the time within the day is rebuilt; a NaN argument invalidates the date.
    The result is not clipped to the range of time values: what is claimed
    of the countdown is for clock times and instants inside that range,
    where no clipping occurs. *)
Definition setHours (t : timeValue) (h m : number) : timeValue :=
  match t, h, m with
  | Some t, Num h, Num m =>
      Some ((t / MS_PER_DAY) * MS_PER_DAY
            + (toInteger h * MS_PER_HOUR + toInteger m * MS_PER_MINUTE + 0 * 1000 + 0))
  | _, _, _ => None
  end.

(** [target.setDate(target.getDate() + 1)]: the same time on the next day. *)
Definition setDate_next (t : timeValue) : timeValue :=
  match t with
  | Some t => Some (t + MS_PER_DAY)
  | None => None
  end.

(** [n.toString()] for an integral number or NaN. *)
Definition toString (n : option Z) : string :=
  match n with
  | Some z => DecimalString.NilZero.string_of_int (Z.to_int z)
  | None => "NaN"
  end.

Fixpoint repeat_char (c : ascii) (n : nat) : string :=
  match n with
  | O => EmptyString
  | S k => String c (repeat_char c k)
  end.

(** [s.padStart(targetLength, c)] for a one-character filler. *)
Definition padStart (targetLength : nat) (c : ascii) (s : string) : string :=
  (repeat_char c (targetLength - String.length s) ++ s)%string.

(** [Math.floor(a / d)] and [a % d] on time values, for a positive
    integer [d]: NaN is contagious; the remainder takes the sign of [a]. *)
Definition floor_div (a : option Z) (d : Z) : option Z :=
  match a with Some x => Some (x / d) | None => None end.
Definition remainder (a : option Z) (d : Z) : option Z :=
  match a with Some x => Some (Z.rem x d) | None => None end.

Section Countdown.
Variable Number : string -> number.

(** [countdownStr]; its first argument is the memoised [nextPrayerState],
    which is [null] while no data is loaded. *)
Definition countdownStr (nextPrayerState : option NextPrayer) (currentTime : Date) : string :=
  match nextPrayerState with
  | None => "--:--:--"
  | Some nextPrayerState =>
      let now := currentTime in
      let parts := map Number (JS.split ":" (np_iqamah nextPrayerState)) in
      let h := default NaN (parts !! 0%nat) in
      let m := default NaN (parts !! 1%nat) in
      let target : timeValue := Some (wall now) in
      let target := setHours target h m in
      let target := if np_isTomorrow nextPrayerState then setDate_next target else target in
      let diff := match target with Some t => Some (t - wall now) | None => None end in
      if match diff with Some d => d <? 0 | None => false end then "00:00:00"
      else
        let hh := floor_div diff (1000 * 60 * 60) in
        let mm := floor_div (remainder diff (1000 * 60 * 60)) (1000 * 60) in
        let ss := floor_div (remainder diff (1000 * 60)) 1000 in
        (padStart 2 "0" (toString hh) ++ ":" ++ padStart 2 "0" (toString mm) ++ ":"
           ++ padStart 2 "0" (toString ss))%string
  end.

End Countdown.

(** The remaining time as the specification words it: whole seconds,
    rounded down, shown as hours, minutes and seconds, each padded to two
    digits. *)
Definition hms (seconds : Z) : string :=
  (padStart 2 "0" (toString (Some (seconds / 3600))) ++ ":"
     ++ padStart 2 "0" (toString (Some ((seconds / 60) mod 60))) ++ ":"
     ++ padStart 2 "0" (toString (Some (seconds mod 60))))%string.

(** The character of a decimal digit. *)
Definition digit_char (d : Z) : ascii := ascii_of_nat (48 + Z.to_nat d).

(* ===================================================================== *)
(** * Time display (App component, [formatTime]; PrayerRow, [formatTimeDisplay]) *)
(* ===================================================================== *)

Module Builtins.

(** The longest prefix of decimal digits. *)
Fixpoint leading_digits (s : string) : string :=
  match s with
  | EmptyString => EmptyString
  | String c rest =>
      match JS.digit_of c with
      | Some _ => String c (leading_digits rest)
      | None => EmptyString
      end
  end.

(** The digits of a run of digits as a number. *)
Definition digits_value (ds : string) : option Z :=
  match ds with
  | EmptyString => None
  | _ => JS.digits_from 0 ds
  end.

(** [parseInt(s, 10)]: leading white space is skipped, a sign may lead,
    and the longest run of digits that follows is read; [None] is NaN,
    the answer when no digit follows. *)
Definition parseInt (s : string) : option Z :=
  let t := JS.trimStart s in
  match t with
  | String "-" u =>
      match digits_value (leading_digits u) with
      | Some z => Some (- z)
      | None => None
      end
  | String "+" u => digits_value (leading_digits u)
  | _ => digits_value (leading_digits t)
  end.

End Builtins.

(** A string put into a template: [undefined] prints as its name. *)
Definition template_string (o : option string) : string :=
  match o with
  | Some s => s
  | None => "undefined"
  end.

Section Format.

(** The host's [parseInt] in radix 10. *)
Variable parseInt : string -> option Z.

(** [formatTime]: 24-hour [HH:MM] to [H:MM AM|PM]. *)
Definition formatTime (time : string) : string :=
  match time with
  | EmptyString => "--:--"
  | _ =>
      let parts := JS.split ":" time in
      let hStr := parts !! 0%nat in
      let mStr := parts !! 1%nat in
      let h := parseInt (template_string hStr) in
      let ampm :=
        if match h with Some z => z >=? 12 | None => false end then "PM" else "AM" in
      (* h % 12 || 12 *)
      let hour :=
        match h with
        | Some z => if Z.rem z 12 =? 0 then 12 else Z.rem z 12
        | None => 12
        end in
      (toString (Some hour) ++ ":" ++ template_string mStr ++ " " ++ ampm)%string
  end.

End Format.

(** What [formatTimeDisplay] renders: the clock part, and the period in a
    span of its own when there is one. *)
Record TimeDisplay : Type := mkTimeDisplay {
  shown_time : option string;
  shown_period : option string
}.

(** [formatTimeDisplay] of PrayerRow:
    [const [time, period] = timeStr.split(' ')], the period rendered only
    when it is truthy. *)
Definition formatTimeDisplay (timeStr : string) : TimeDisplay :=
  let parts := JS.split " " timeStr in
  let time := parts !! 0%nat in
  let period := parts !! 1%nat in
  mkTimeDisplay time
    (match period with
     | Some EmptyString => None
     | Some p => Some p
     | None => None
     end).

(** The properties handed to one [PrayerRow] (the icon apart). *)
Record PrayerRowProps : Type := mkPrayerRowProps {
  row_name : string;
  row_azan : string;
  row_iqamah : string;
  row_isNext : bool
}.

(** [data.prayers[key]]: [None] is [undefined]. *)
Definition prayer_by_key (d : DailyPrayers) (key : string) : option PrayerTime :=
  if String.eqb key "fajr" then Some (fajr d)
  else if String.eqb key "zuhr" then Some (zuhr d)
  else if String.eqb key "asr" then Some (asr d)
  else if String.eqb key "maghrib" then Some (maghrib d)
  else if String.eqb key "isha" then Some (isha d)
  else None.

Section PublicRows.
Variable parseInt : string -> option Z.

(** The rows of the timetable on the public board: the five daily prayers
    and, on a Friday, the Jumma row; a row is marked as next when it bears
    the name of the next prayer.  [None] stands for the TypeError of
    reading the times of a prayer that is not in [data.prayers]. *)
Definition prayerRows (data : AppData) (currentTime : Date)
    (nextPrayerState : option NextPrayer) : option (list PrayerRowProps) :=
  let is_next (p : string) : bool :=
    match nextPrayerState with
    | Some np => String.eqb (np_name np) p
    | None => false
    end in
  daily ← mapM (fun p =>
             t ← prayer_by_key (prayers data) (JS.toLowerCase p);
             Some (mkPrayerRowProps p (formatTime parseInt (pt_azan t))
                                    (formatTime parseInt (pt_iqamah t)) (is_next p)))
          ["Fajr"; "Zuhr"; "Asr"; "Maghrib"; "Isha"];
  Some (daily ++
        if Date_getDay currentTime =? 5
        then [mkPrayerRowProps "Jumma" (formatTime parseInt (khutbah (jumma data)))
                               (formatTime parseInt (jamaat (jumma data)))
                               (is_next "Jumma")]
        else []).

End PublicRows.

(** [s.includes(c)] for one character. *)
Fixpoint has_char (c : ascii) (s : string) : bool :=
  match s with
  | EmptyString => false
  | String d rest => Ascii.eqb d c || has_char c rest
  end.

(** A number below one hundred as the two digits of a clock field, and
    the clock string [HH:MM] of an hour and a minute. *)
Definition two_digits (n : Z) : string := padStart 2 "0" (toString (Some n)).
Definition clock_string (h m : Z) : string :=
  (two_digits h ++ ":" ++ two_digits m)%string.

(** The hour of the twelve-hour clock and its period. *)
Definition hour12 (h : Z) : Z := if h mod 12 =? 0 then 12 else h mod 12.
Definition period_of (h : Z) : string := if h <? 12 then "AM" else "PM".

(* ===================================================================== *)
(** * The notice board (App component, [activeNotices]) *)
(* ===================================================================== *)

Module ISODate.

(** Days from 1 January 1970 to a date of the proleptic Gregorian calendar. *)
Definition days_from_civil (y m d : Z) : Z :=
  let y' := if m <=? 2 then y - 1 else y in
  let era := y' / 400 in
  let yoe := y' - era * 400 in
  let doy := (153 * (if m >? 2 then m - 3 else m + 9) + 2) / 5 + d - 1 in
  let doe := yoe * 365 + yoe / 4 - yoe / 100 + doy in
  era * 146097 + doe - 719468.

Definition is_leap (y : Z) : bool :=
  ((y mod 4 =? 0) && negb (y mod 100 =? 0)) || (y mod 400 =? 0).

Definition days_in_month (y m : Z) : Z :=
  if m =? 2 then (if is_leap y then 29 else 28)
  else if (m =? 4) || (m =? 6) || (m =? 9) || (m =? 11) then 30
  else 31.

(** A run of exactly [n] decimal digits. *)
Definition fixed_digits (n : nat) (s : string) : option Z :=
  if (String.length s =? n)%nat then JS.digits_from 0 s else None.

(** The date part [YYYY-MM-DD] as a day number. *)
Definition parse_date_part (s : string) : option Z :=
  match JS.split "-" s with
  | [ys; ms; ds] =>
      y ← fixed_digits 4 ys;
      m ← fixed_digits 2 ms;
      d ← fixed_digits 2 ds;
      if (1 <=? m) && (m <=? 12) && (1 <=? d) && (d <=? days_in_month y m)
      then Some (days_from_civil y m d) else None
  | _ => None
  end.

(** The time part [HH:MM:SS.sssZ], as [toISOString] writes it, in
    milliseconds. *)
Definition parse_time_part (s : string) : option Z :=
  match JS.split ":" s with
  | [hs; ms; rest] =>
      match JS.split "." rest with
      | [ss; frac] =>
          h ← fixed_digits 2 hs;
          m ← fixed_digits 2 ms;
          sec ← fixed_digits 2 ss;
          match JS.split "Z" frac with
          | [fs; EmptyString] =>
              f ← fixed_digits 3 fs;
              if (h <? 24) && (m <? 60) && (sec <? 60)
              then Some (h * MS_PER_HOUR + m * MS_PER_MINUTE + sec * 1000 + f)
              else None
          | _ => None
          end
      | _ => None
      end
  | _ => None
  end.

(** [new Date(s).getTime()] on the two ISO forms the application writes:
    the date-only form [YYYY-MM-DD] of a date input, which the host reads
    as midnight UTC, and the [toISOString] form.  The answer counts
    milliseconds from the epoch in UTC; [None] is the NaN of an Invalid
    Date, also given to every other text. *)
Definition Date_parse (s : string) : timeValue :=
  match JS.split "T" s with
  | [d] => day ← parse_date_part d; Some (day * MS_PER_DAY)
  | [d; t] =>
      day ← parse_date_part d;
      ms ← parse_time_part t;
      Some (day * MS_PER_DAY + ms)
  | _ => None
  end.

End ISODate.

(** [arr.sort(cmp)] as a stable insertion sort: [a] is placed after [b]
    exactly when [cmp a b > 0].  For a comparator that orders the elements
    consistently this is the order the host produces. *)
Fixpoint insert_by {A : Type} (after : A -> A -> bool) (x : A) (l : list A) : list A :=
  match l with
  | [] => [x]
  | y :: rest => if after x y then y :: insert_by after x rest else x :: l
  end.

Definition sort_by {A : Type} (after : A -> A -> bool) (l : list A) : list A :=
  foldr (insert_by after) [] l.

Section Notices.

(** The host's date parser and the zone of the browser:
    [timezoneOffset] is [getTimezoneOffset()], the minutes by which UTC is
    ahead of local time (300 in New York in winter, -330 in Delhi). *)
Variable Date_parse : string -> timeValue.
Variable timezoneOffset : Z.

(** Local wall-clock reading of a UTC time value. *)
Definition to_wall (utc : Z) : Z := utc - timezoneOffset * MS_PER_MINUTE.

(** [new Date(d.getFullYear(), d.getMonth(), d.getDate()).getTime()] for
    a date with wall-clock reading [w], as a wall-clock reading: local
    midnight of the local day of [w] (for years from 100 on; the
    constructor's two-digit-year rule is not modelled).  Both sides of the
    comparison in [activeNotices] are such values, so the zone offset that
    [getTime] adds to each cancels. *)
Definition local_midnight (w : Z) : Z := (w / MS_PER_DAY) * MS_PER_DAY.

(** The filter callback of [activeNotices]. *)
Definition notice_visible (today : Z) (n : Notice) : bool :=
  match expiryDate n with
  | None => true
  | Some EmptyString => true
  | Some text =>
      let expiry := Date_parse text in
      match expiry with
      | None => false
      | Some utc =>
          let expiryTimestamp := local_midnight (to_wall utc) in
          let todayTimestamp := today in
          expiryTimestamp >=? todayTimestamp
      end
  end.

(** The sort comparator: [new Date(b.date).getTime() - new Date(a.date).getTime()],
    positive when [b] is the more recent.  A NaN difference sorts as equal. *)
Definition newer_first (a b : Notice) : bool :=
  match Date_parse (date b), Date_parse (date a) with
  | Some tb, Some ta => tb - ta >? 0
  | _, _ => false
  end.

(** [activeNotices] for loaded data, at the wall-clock instant [now]. *)
Definition activeNotices (notices : list Notice) (now : Date) : list Notice :=
  let today := local_midnight (wall now) in
  sort_by newer_first (filter (fun n => notice_visible today n = true) notices).

End Notices.

(** A notice posted on 1 May 2024 that expires on 10 May 2024, and the
    morning of 10 May 2024 (day 19853 of the epoch), 09:00 local time. *)
Definition notice_until_10_may : Notice :=
  mkNotice "n-1" "Eid prayer" "Eid prayer at 07:30" "2024-05-01T10:00:00.000Z"
           (Some "2024-05-10") false.
Definition morning_of_10_may : Date := at_clock 19853 9 0 0.

(* ===================================================================== *)
(** * The world outside the program *)
(* ===================================================================== *)

(** What the program does to the world, in order. *)
Inductive event : Type :=
| EvSetItem (key value : string)
| EvFetch (method : string) (body : option string)
| EvWarn (text : string)
| EvError (text : string).

(** The browser's [localStorage] and the record of effects so far. *)
Record World : Type := mkWorld {
  localStorage : gmap string string;
  trace : list event
}.

(** What a [fetch] of the cloud URL comes back with: a rejected promise,
    or a response with its status and body text. *)
Inductive FetchReply : Type :=
| NetworkError (reason : string)
| Response (status : Z) (body : string).

(** [response.ok]: a status in the range 200 to 299. *)
Definition response_ok (status : Z) : bool := (200 <=? status) && (status <=? 299).

(** Outcome of a computation: a value, or a thrown error.  For an [async]
    function [Ok] is the promise resolving and [Throw] its rejection. *)
Inductive result (A : Type) : Type :=
| Ok (a : A)
| Throw (err : string).
Arguments Ok {A} a.
Arguments Throw {A} err.

(** Computations that read and change the world and may throw. *)
Definition M (A : Type) : Type := World -> result A * World.

Definition ret {A : Type} (a : A) : M A := fun w => (Ok a, w).

Definition throw {A : Type} (err : string) : M A := fun w => (Throw err, w).

Definition bind {A B : Type} (m : M A) (k : A -> M B) : M B :=
  fun w =>
    match m w with
    | (Ok a, w') => k a w'
    | (Throw err, w') => (Throw err, w')
    end.

(** [try { m } catch (err) { handler err }]. *)
Definition try_catch {A : Type} (m : M A) (handler : string -> M A) : M A :=
  fun w =>
    match m w with
    | (Ok a, w') => (Ok a, w')
    | (Throw err, w') => handler err w'
    end.

(** [let! x := m in k] runs [m], names its value and goes on with [k];
    [run! m in k] runs [m] for its effect. *)
Notation "'let!' x ':=' m 'in' k" := (bind m (fun x => k))
  (at level 10, x name, m at level 100, k at level 200).
Notation "'run!' m 'in' k" := (bind m (fun _ => k))
  (at level 10, m at level 100, k at level 200).

Definition record_event (e : event) : M unit :=
  fun w => (Ok tt, mkWorld (localStorage w) (trace w ++ [e])).

Definition console_warn (text : string) : M unit := record_event (EvWarn text).
Definition console_error (text : string) : M unit := record_event (EvError text).

(** [localStorage.getItem(key)]: [None] is [null]. *)
Definition localStorage_getItem (key : string) : M (option string) :=
  fun w => (Ok (localStorage w !! key), w).

(** [localStorage.setItem(key, value)]. *)
Definition localStorage_setItem (key value : string) : M unit :=
  fun w => (Ok tt, mkWorld (<[key := value]> (localStorage w))
                           (trace w ++ [EvSetItem key value])).

(** [await fetch(CLOUD_URL, { method, body })], answered by [reply]. *)
Definition fetch (method : string) (body : option string) (reply : FetchReply)
  : M (Z * string) :=
  run! record_event (EvFetch method body) in
  match reply with
  | NetworkError reason => throw reason
  | Response status text => ret (status, text)
  end.

(** [v.k] as a statement: reading a property of [null] is a TypeError. *)
Definition get_prop (v : json) (k : string) : M (option json) :=
  match v with
  | JNull => throw "TypeError: Cannot read properties of null"
  | _ => ret (prop v k)
  end.

(** [v.k = x] in a module (strict mode): an object gains or updates the
    field; an array accepts the property, which is no part of its JSON
    value; [null] and the primitives raise a TypeError. *)
Definition set_prop (v : json) (k : string) (x : json) : M json :=
  match v with
  | JObj fields => ret (JObj (assign k x fields))
  | JArr items => ret (JArr items)
  | JNull => throw "TypeError: Cannot set properties of null"
  | _ => throw "TypeError: Cannot create property"
  end.

(* ===================================================================== *)
(** * storage.ts: [getCloudData] and [syncToCloud] *)
(* ===================================================================== *)

Definition OFFLINE_KEY : string := "masjid_offline_sync_cache".

Section Storage.

(** The host's JSON reader and writer; [None] is the SyntaxError of
    [JSON.parse]. *)
Variable JSON_parse : string -> option json.
Variable JSON_stringify : json -> string.

(** The instant the module was loaded, as [toISOString] prints it. *)
Variable startedAt : string.

(** [JSON.parse(text)] and [await response.json()] as statements. *)
Definition parse_or_throw (text : string) : M json :=
  match JSON_parse text with
  | Some v => ret v
  | None => throw "SyntaxError"
  end.

(** [if (!v.links) v.links = []]. *)
Definition backfill_links (v : json) : M json :=
  let! links := get_prop v "links" in
  if negb (truthy_opt links) then set_prop v "links" (JArr []) else ret v.

(** [getCloudData], with the reply its one [fetch] receives. *)
Definition getCloudData (reply : FetchReply) : M json :=
  let! cloudData :=
    try_catch
      (let! response := fetch "GET" None reply in
       if response_ok (fst response) then
         let! data := parse_or_throw (snd response) in
         if truthy data && truthy_opt (prop data "prayers")
            && truthy_opt (prop data "users")
         then
           let! data := backfill_links data in
           ret (Some data)
         else ret None
       else ret None)
      (fun err =>
         run! console_warn ("Cloud fetch failed, checking offline cache: " ++ err) in
         ret None) in
  match cloudData with
  | Some cloudData =>
      run! localStorage_setItem OFFLINE_KEY (JSON_stringify cloudData) in
      ret cloudData
  | None =>
      let! cached := localStorage_getItem OFFLINE_KEY in
      let! fromCache :=
        match cached with
        | None => ret None
        | Some EmptyString => ret None
        | Some cached =>
            try_catch
              (let! parsed := parse_or_throw cached in
               let! parsed := backfill_links parsed in
               ret (Some parsed))
              (fun _ =>
                 run! console_warn "Corrupt local cache, resetting." in
                 ret None)
        end in
      match fromCache with
      | Some parsed => ret parsed
      | None => ret (AppData_json (INITIAL_DATA startedAt))
      end
  end.

(** [{ ...data, lastUpdated: now }]. *)
Definition stamp (data : json) (now : string) : json :=
  JObj (assign "lastUpdated" (JStr now) (spread data)).

(** [syncToCloud], with the current instant as [toISOString] prints it
    and the reply its one [fetch] receives. *)
Definition syncToCloud (now : string) (reply : FetchReply) (data : json) : M unit :=
  let updatedData := stamp data now in
  run! localStorage_setItem OFFLINE_KEY (JSON_stringify updatedData) in
  try_catch
    (let! response := fetch "POST" (Some (JSON_stringify updatedData)) reply in
     if negb (response_ok (fst response)) then
       if fst response =? 404 then
         run! console_warn "Cloud sync skipped (Bucket 404). Data saved locally." in
         ret tt
       else
         throw ("Sync failed with status: " ++ toString (Some (fst response)))
     else ret tt)
    (fun err => console_error ("Non-critical Sync Error: " ++ err)).

End Storage.

(* ===================================================================== *)
(** * authService.ts: [authenticate], and the login handler of the App *)
(* ===================================================================== *)

Definition SESSION_TOKEN : string := "masjid_session_active_v2".
Definition SESSION_TIMEOUT_MS : Z := 20 * 60 * 1000.

(** [arr.find(p)] for a callback that may throw: the first element the
    callback accepts, [None] ([undefined]) when there is none. *)
Fixpoint find_first (p : json -> M bool) (l : list json) : M (option json) :=
  match l with
  | [] => ret None
  | u :: rest =>
      let! hit := p u in
      if hit then ret (Some u) else find_first p rest
  end.

(** What the login form shows after [handleLogin]. *)
Inductive LoginOutcome : Type :=
| Dashboard (currentUser : json)
| LoginError (text : string).

Section Auth.

Variable JSON_parse : string -> option json.
Variable JSON_stringify : json -> string.
Variable startedAt : string.

(** The host's [String.prototype.toLowerCase] and [trim]. *)
Variable toLowerCase : string -> string.
Variable trim : string -> string.

(** The callback of [find]:
    [u.email.toLowerCase() === email.toLowerCase().trim() && u.password === password].
    Calling [toLowerCase] on anything but a string is a TypeError. *)
Definition credentials_match (email password : string) (u : json) : M bool :=
  let! e := get_prop u "email" in
  match e with
  | Some (JStr e) =>
      ret (String.eqb (toLowerCase e) (trim (toLowerCase email))
           && match prop u "password" with
              | Some (JStr p) => String.eqb p password
              | _ => false
              end)
  | _ => throw "TypeError: u.email.toLowerCase is not a function"
  end.

(** The body of [authenticate] after [const data = await getCloudData()];
    [now] is [Date.now()]. *)
Definition authenticate_with (data : json) (now : Z) (email password : string) : M json :=
  let! users := get_prop data "users" in
  let! user :=
    match users with
    | Some (JArr items) => find_first (credentials_match email password) items
    | _ => throw "TypeError: data.users.find is not a function"
    end in
  match user with
  | Some user =>
      if truthy user && truthy_opt (prop user "enabled") then
        let sessionUser := JObj (delete_key "password" (spread user)) in
        let session :=
          JObj [("user", sessionUser); ("expiry", JNum (now + SESSION_TIMEOUT_MS))] in
        run! localStorage_setItem SESSION_TOKEN (JSON_stringify session) in
        ret sessionUser
      else ret JNull
  | None => ret JNull
  end.

(** [authenticate]: the user without the password, or [null]. *)
Definition authenticate (reply : FetchReply) (now : Z) (email password : string) : M json :=
  let! data := getCloudData JSON_parse JSON_stringify startedAt reply in
  authenticate_with data now email password.

(** [handleLogin], reduced to what it leaves on the screen. *)
Definition handleLogin (reply : FetchReply) (now : Z) (loginEmail loginPassword : string)
  : M LoginOutcome :=
  let! user := authenticate reply now loginEmail loginPassword in
  if truthy user then ret (Dashboard user)
  else ret (LoginError "Invalid masjid credentials or disabled account.").

End Auth.

(** The typed reading of the [find] callback: the stored email and the
    typed one agree up to case (the typed one trimmed), and the stored
    password is the typed one. *)
Definition matches (toLowerCase trim : string -> string)
    (email_in password_in : string) (u : User) : bool :=
  String.eqb (toLowerCase (email u)) (trim (toLowerCase email_in))
  && match password u with
     | Some p => String.eqb p password_in
     | None => false
     end.

(* ===================================================================== *)
(** * authService.ts: the session *)
(* ===================================================================== *)

(** [localStorage.removeItem(key)].  The trace keeps writes, requests and
    console output; a removal shows in the store alone. *)
Definition localStorage_removeItem (key : string) : M unit :=
  fun w => (Ok tt, mkWorld (delete key (localStorage w)) (trace w)).

(** [String(v)] on plain data; an array joins its elements with commas,
    printing [null] as nothing. *)
Fixpoint to_string (v : json) : string :=
  match v with
  | JNull => "null"
  | JBool true => "true"
  | JBool false => "false"
  | JNum z => toString (Some z)
  | JStr s => s
  | JArr items =>
      (fix join (l : list json) : string :=
         match l with
         | [] => EmptyString
         | [x] => match x with JNull => EmptyString | _ => to_string x end
         | x :: rest =>
             (match x with JNull => EmptyString | _ => to_string x end
                ++ "," ++ join rest)%string
         end) items
  | JObj _ => "[object Object]"
  end.

(** The number a value stands for in a comparison with a number:
    [undefined] is NaN, [null] is 0, a string is what [Number] makes of it
    and an array or object is read through its string. *)
Definition to_number (Number : string -> number) (v : option json) : number :=
  match v with
  | None => NaN
  | Some JNull => ofZ 0
  | Some (JBool b) => ofZ (if b then 1 else 0)
  | Some (JNum z) => ofZ z
  | Some (JStr s) => Number s
  | Some v => Number (to_string v)
  end.

Section Session.

Variable JSON_parse : string -> option json.
Variable JSON_stringify : json -> string.
Variable Number : string -> number.

(** [clearSession]. *)
Definition clearSession : M unit := localStorage_removeItem SESSION_TOKEN.

(** [extendSession]; [now] is [Date.now()]. *)
Definition extendSession (now : Z) : M unit :=
  try_catch
    (let! stored := localStorage_getItem SESSION_TOKEN in
     match stored with
     | None => ret tt
     | Some EmptyString => ret tt
     | Some stored =>
         let! parsed := parse_or_throw JSON_parse stored in
         let! parsed_user := get_prop parsed "user" in
         (* parsed.user || parsed *)
         let user :=
           match parsed_user with
           | Some u => if truthy u then u else parsed
           | None => parsed
           end in
         let newSession :=
           JObj [("user", user); ("expiry", JNum (now + SESSION_TIMEOUT_MS))] in
         localStorage_setItem SESSION_TOKEN (JSON_stringify newSession)
     end)
    (fun _ => ret tt).

(** [getActiveSession]: the user of the session, or [null].  The clock is
    read once for the whole call. *)
Definition getActiveSession (now : Z) : M json :=
  try_catch
    (let! stored := localStorage_getItem SESSION_TOKEN in
     match stored with
     | None => ret JNull
     | Some EmptyString => ret JNull
     | Some stored =>
         let! parsed := parse_or_throw JSON_parse stored in
         let! parsed_user := get_prop parsed "user" in
         (* the session as a pair of its [user] and its [expiry] *)
         let session : json * Z :=
           match parsed_user, prop parsed "expiry" with
           | Some u, Some (JNum e) =>
               if truthy u then (u, e) else (parsed, now + SESSION_TIMEOUT_MS)
           | _, _ => (parsed, now + SESSION_TIMEOUT_MS)
           end in
         if now >? snd session then
           run! clearSession in
           ret JNull
         else
           run! extendSession now in
           ret (fst session)
     end)
    (fun _ =>
       run! clearSession in
       ret JNull).

(** [isSessionValid]. *)
Definition isSessionValid (now : Z) : M bool :=
  try_catch
    (let! stored := localStorage_getItem SESSION_TOKEN in
     match stored with
     | None => ret false
     | Some EmptyString => ret false
     | Some stored =>
         let! parsed := parse_or_throw JSON_parse stored in
         let! expiry := get_prop parsed "expiry" in
         if negb (truthy_opt expiry) && truthy_opt (prop parsed "email") then ret true
         else
           (* Date.now() < parsed.expiry *)
           ret (JS.gt (to_number Number expiry) (ofZ now))
     end)
    (fun _ => ret false).

End Session.

(** ** The session in the App component *)

Inductive ViewState : Type := PUBLIC | LOGIN | DASHBOARD.

(** The part of the component's state the session handlers touch, and
    the alerts shown so far. *)
Record Screen : Type := mkScreen {
  currentUser : json;
  view : ViewState;
  alerts : list string
}.

Section AppSession.

Variable JSON_parse : string -> option json.
Variable JSON_stringify : json -> string.
Variable Number : string -> number.

(** The session part of the initialization effect:
    [const session = auth.getActiveSession(); if (session) setCurrentUser(session)]. *)
Definition restoreSession (now : Z) (s : Screen) : M Screen :=
  let! session := getActiveSession JSON_parse JSON_stringify now in
  if truthy session then ret (mkScreen session (view s) (alerts s)) else ret s.

(** One tick of the ten-second session check, which runs while a user is
    logged in. *)
Definition checkSession (now : Z) (s : Screen) : M Screen :=
  if negb (truthy (currentUser s)) then ret s
  else
    let! valid := isSessionValid JSON_parse Number now in
    if negb valid then
      run! clearSession in
      match view s with
      | DASHBOARD =>
          ret (mkScreen JNull PUBLIC
                 (alerts s ++ ["Session expired due to inactivity (20 min)."]))
      | _ => ret (mkScreen JNull (view s) (alerts s))
      end
    else ret s.

(** [handleActivity]: a click, a key, a touch or a scroll. *)
Definition handleActivity (now : Z) (s : Screen) : M unit :=
  if truthy (currentUser s) then extendSession JSON_parse JSON_stringify now
  else ret tt.

(** [handleLogout]. *)
Definition handleLogout (s : Screen) : M Screen :=
  run! clearSession in
  ret (mkScreen JNull PUBLIC (alerts s)).

End AppSession.

(* ===================================================================== *)
(** * authService.ts: the administrators *)
(* ===================================================================== *)

(** [arr.some(p)] for a callback that may throw. *)
Fixpoint some_first (p : json -> M bool) (l : list json) : M bool :=
  match l with
  | [] => ret false
  | u :: rest =>
      let! hit := p u in
      if hit then ret true else some_first p rest
  end.

(** [arr.findIndex(p)] for a callback that may throw. *)
Fixpoint find_index (p : json -> M bool) (l : list json) : M Z :=
  match l with
  | [] => ret (-1)
  | u :: rest =>
      let! hit := p u in
      if hit then ret 0
      else
        let! i := find_index p rest in
        ret (if i =? -1 then -1 else i + 1)
  end.

(** [{ ...a, ...updates }]: the fields of [a], each field of [updates]
    assigned over them in turn. *)
Definition merge (a : json) (updates : list (string * json)) : list (string * json) :=
  fold_left (fun acc kv => assign (fst kv) (snd kv) acc) updates (spread a).

(** [arr[i] = x] for an index within the array. *)
Definition set_index (items : list json) (i : Z) (x : json) : list json :=
  <[Z.to_nat i := x]> items.

Section Users.

Variable JSON_parse : string -> option json.
Variable JSON_stringify : json -> string.
Variable startedAt : string.
Variable toLowerCase : string -> string.
Variable trim : string -> string.

(** [u.email.toLowerCase()]: a TypeError on anything but a string. *)
Definition lower_email (u : json) : M string :=
  let! e := get_prop u "email" in
  match e with
  | Some (JStr e) => ret (toLowerCase e)
  | _ => throw "TypeError: u.email.toLowerCase is not a function"
  end.

(** [u.id === userId]. *)
Definition has_id (userId : string) (u : json) : M bool :=
  let! i := get_prop u "id" in
  ret match i with
      | Some (JStr i) => String.eqb i userId
      | _ => false
      end.

(** [registerCloudAdmin].  [now] is [Date.now()], [nowISO] the instant
    [syncToCloud] stamps, and the two replies answer the fetch of
    [getCloudData] and the one of [syncToCloud].  The [push] changes the
    array of the loaded object; the changed state goes to the cache and to
    the cloud within the same call, and that is where later loads find it.
    When the load fell back on the built-in default, the object changed is
    the module's own [INITIAL_DATA]; the model keeps no such object, so a
    later load that finds neither cloud nor cache is outside of it.  The
    same holds for the write to the array in [updateCloudUser]. *)
Definition registerCloudAdmin (now : Z) (nowISO : string)
    (reply_load reply_save : FetchReply) (email password : string) : M unit :=
  if String.eqb email EmptyString || String.eqb password EmptyString then
    throw "Email and password are required."
  else
    let! data := getCloudData JSON_parse JSON_stringify startedAt reply_load in
    let! users := get_prop data "users" in
    match users with
    | Some (JArr items) =>
        let! taken :=
          some_first
            (fun u =>
               let! e := lower_email u in
               ret (String.eqb e (trim (toLowerCase email))))
            items in
        if taken then throw "An admin with this email already exists."
        else
          let newUser :=
            JObj [("id", JStr ("admin-" ++ toString (Some now)));
                  ("email", JStr (trim email));
                  ("password", JStr password);
                  ("role", Role_json ADMIN);
                  ("enabled", JBool true)] in
          (* data.users.push(newUser) *)
          let! data := set_prop data "users" (JArr (items ++ [newUser])) in
          syncToCloud JSON_stringify nowISO reply_save data
    | _ => throw "TypeError: data.users.some is not a function"
    end.

(** The last block of [updateCloudUser]: when the user who is signed in
    on this device is the one that was updated, the session takes the
    updates, less the password. *)
Definition refresh_own_session (now : Z) (userId : string)
    (updates : list (string * json)) : M unit :=
  let! activeUser := getActiveSession JSON_parse JSON_stringify now in
  if truthy activeUser
     && match prop activeUser "id" with
        | Some (JStr i) => String.eqb i userId
        | _ => false
        end
  then
    let updatedUser := JObj (delete_key "password" (merge activeUser updates)) in
    let session :=
      JObj [("user", updatedUser); ("expiry", JNum (now + SESSION_TIMEOUT_MS))] in
    localStorage_setItem SESSION_TOKEN (JSON_stringify session)
  else ret tt.

(** [updateCloudUser]; [updates] holds the fields of the [Partial<User>]
    it is called with. *)
Definition updateCloudUser (now : Z) (nowISO : string)
    (reply_load reply_save : FetchReply)
    (userId : string) (updates : list (string * json)) : M unit :=
  let! data := getCloudData JSON_parse JSON_stringify startedAt reply_load in
  let! users := get_prop data "users" in
  match users with
  | Some (JArr items) =>
      let! userIndex := find_index (has_id userId) items in
      if userIndex =? -1 then throw "User not found."
      else
        let! updates :=
          match assoc "email" updates with
          | Some given =>
              if truthy given then
                match given with
                | JStr given =>
                    let newEmail := trim given in
                    let! existing :=
                      find_first
                        (fun u =>
                           let! e := lower_email u in
                           if String.eqb e (toLowerCase newEmail) then
                             let! same := has_id userId u in
                             ret (negb same)
                           else ret false)
                        items in
                    if match existing with Some u => truthy u | None => false end
                    then throw "Email already taken by another admin."
                    else ret (assign "email" (JStr newEmail) updates)
                | _ => throw "TypeError: updates.email.trim is not a function"
                end
              else ret updates
          | None => ret updates
          end in
        let target := default JNull (items !! Z.to_nat userIndex) in
        let items := set_index items userIndex (JObj (merge target updates)) in
        let! data := set_prop data "users" (JArr items) in
        run! syncToCloud JSON_stringify nowISO reply_save data in
        refresh_own_session now userId updates
  | _ => throw "TypeError: data.users.findIndex is not a function"
  end.

End Users.

(** ** The typed reading of the two operations *)

(** The administrator that [registerCloudAdmin] adds. *)
Definition new_admin (trim : string -> string) (now : Z) (email password : string) : User :=
  mkUser ("admin-" ++ toString (Some now)) (trim email) (Some password) ADMIN true.

(** A state with other users, stamped. *)
Definition with_users (s : AppData) (us : list User) (now : string) : AppData :=
  mkAppData (profile s) (prayers s) (jumma s) (ramadan s)
            (notices s) us (links s) now.

(** An email is taken when some user has it, up to case. *)
Definition email_taken (toLowerCase trim : string -> string)
    (users : list User) (email_in : string) : bool :=
  existsb (fun u => String.eqb (toLowerCase (email u)) (trim (toLowerCase email_in))) users.

(** The test of [updateCloudUser] for an email that another user has. *)
Definition other_has_email (toLowerCase : string -> string)
    (userId newEmail : string) (u : User) : bool :=
  String.eqb (toLowerCase (email u)) (toLowerCase newEmail)
  && negb (String.eqb (user_id u) userId).

(* ===================================================================== *)
(** * The dashboard of the App component: saving, notices *)
(* ===================================================================== *)

(** The state of the component that the handlers below read and set (the
    busy and dialog flags apart), and the alerts shown so far.  The loaded
    state and the form state are typed records; what is saved is their
    run-time form [AppData_json]. *)
Record Admin : Type := mkAdmin {
  st_data : option AppData;
  st_formState : option AppData;
  st_editingNotice : option Notice;
  st_noticeTitle : string;
  st_noticeMessage : string;
  st_noticeExpiry : string;
  st_isNoticeImportant : bool;
  st_deletingId : option string;
  st_alerts : list string
}.

(** [{ ...s, notices: ns }]. *)
Definition with_notices (s : AppData) (ns : list Notice) : AppData :=
  mkAppData (profile s) (prayers s) (jumma s) (ramadan s)
            ns (users s) (links s) (lastUpdated s).

Definition set_data (st : Admin) (d f : option AppData) : Admin :=
  mkAdmin d f (st_editingNotice st) (st_noticeTitle st) (st_noticeMessage st)
          (st_noticeExpiry st) (st_isNoticeImportant st) (st_deletingId st)
          (st_alerts st).

Definition set_deletingId (st : Admin) (d : option string) : Admin :=
  mkAdmin (st_data st) (st_formState st) (st_editingNotice st) (st_noticeTitle st)
          (st_noticeMessage st) (st_noticeExpiry st) (st_isNoticeImportant st) d
          (st_alerts st).

(** The notice form emptied:
    [setEditingNotice(null); setNoticeTitle(''); ...; setIsNoticeImportant(false)]. *)
Definition reset_notice_form (st : Admin) : Admin :=
  mkAdmin (st_data st) (st_formState st) None EmptyString EmptyString EmptyString false
          (st_deletingId st) (st_alerts st).

Definition alert (text : string) (st : Admin) : Admin :=
  mkAdmin (st_data st) (st_formState st) (st_editingNotice st) (st_noticeTitle st)
          (st_noticeMessage st) (st_noticeExpiry st) (st_isNoticeImportant st)
          (st_deletingId st) (st_alerts st ++ [text]).

Section Dashboard.

Variable JSON_stringify : json -> string.

(** [handleSyncUpdates]; [nowISO] is the instant [syncToCloud] stamps and
    [reply] answers its request. *)
Definition handleSyncUpdates (nowISO : string) (reply : FetchReply) (st : Admin)
  : M Admin :=
  match st_formState st with
  | None => ret st
  | Some formState =>
      try_catch
        (run! syncToCloud JSON_stringify nowISO reply (AppData_json formState) in
         let st := set_data st (Some formState) (st_formState st) in
         ret (alert "Cloud synchronization successful. All devices updated." st))
        (fun _ => ret (alert "Network error. Could not sync with the cloud." st))
  end.

(** The submit handler of the notice form.  [now] is [Date.now()],
    [noticeISO] the instant the notice is dated with and [syncISO] the
    one [syncToCloud] stamps.  Writing at index -1 gives the copy of the
    array a property of that name and no element. *)
Definition submitNotice (now : Z) (noticeISO syncISO : string) (reply : FetchReply)
    (st : Admin) : M Admin :=
  match st_formState st with
  | None => ret st
  | Some formState =>
      let nextNotices := notices formState in
      let notice :=
        mkNotice
          (match st_editingNotice st with
           | Some editing =>
               if String.eqb (notice_id editing) EmptyString then toString (Some now)
               else notice_id editing
           | None => toString (Some now)
           end)
          (st_noticeTitle st)
          (st_noticeMessage st)
          noticeISO
          (if String.eqb (st_noticeExpiry st) EmptyString then None
           else Some (st_noticeExpiry st))
          (st_isNoticeImportant st) in
      let nextNotices :=
        match st_editingNotice st with
        | Some editing =>
            let idx :=
              findIndex (fun n => String.eqb (notice_id n) (notice_id editing))
                        nextNotices in
            if idx =? -1 then nextNotices
            else <[Z.to_nat idx := notice]> nextNotices
        | None => notice :: nextNotices
        end in
      let updated := with_notices formState nextNotices in
      run! syncToCloud JSON_stringify syncISO reply (AppData_json updated) in
      let st := set_data st (Some updated) (Some updated) in
      let st := reset_notice_form st in
      ret (alert "Notice published globally." st)
  end.

(** [handleDeleteNotice]: the first click on a notice asks for
    confirmation, the second deletes.  (The timer that withdraws the
    question after three seconds is [withdrawDeleteQuestion].) *)
Definition handleDeleteNotice (nowISO : string) (reply : FetchReply) (id : string)
    (st : Admin) : M Admin :=
  match st_data st with
  | None => ret st
  | Some data =>
      if match st_deletingId st with
         | Some d => String.eqb d id
         | None => false
         end
      then
        let updatedNotices :=
          List.filter (fun n => negb (String.eqb (notice_id n) id)) (notices data) in
        let updatedData := with_notices data updatedNotices in
        let st := set_data st (Some updatedData) (Some updatedData) in
        let st := set_deletingId st None in
        let st :=
          if match st_editingNotice st with
             | Some editing => String.eqb (notice_id editing) id
             | None => false
             end
          then reset_notice_form st
          else st in
        run! try_catch
               (syncToCloud JSON_stringify nowISO reply (AppData_json updatedData))
               (fun err => console_error ("Deletion sync failed " ++ err)) in
        ret st
      else ret (set_deletingId st (Some id))
  end.

Definition withdrawDeleteQuestion (st : Admin) : Admin := set_deletingId st None.

End Dashboard.

(* ===================================================================== *)
(** * A JSON writer and reader

    A compact writer for the values of [json] and a reader for what it
    writes (no white space, whole numbers, strings escaping the quote and
    the backslash).  It is the instance of [JSON.stringify] and
    [JSON.parse] used in the examples. *)
(* ===================================================================== *)

Module Codec.

Definition quote : ascii := ascii_of_nat 34.
Definition backslash : ascii := ascii_of_nat 92.

Fixpoint escape (s : string) : string :=
  match s with
  | EmptyString => EmptyString
  | String c rest =>
      if Ascii.eqb c quote || Ascii.eqb c backslash
      then String backslash (String c (escape rest))
      else String c (escape rest)
  end.

Definition write_string (s : string) : string :=
  String quote (escape s ++ String quote EmptyString)%string.

Definition write_number (z : Z) : string :=
  DecimalString.NilZero.string_of_int (Z.to_int z).

Fixpoint write (v : json) : string :=
  match v with
  | JNull => "null"
  | JBool true => "true"
  | JBool false => "false"
  | JNum z => write_number z
  | JStr s => write_string s
  | JArr [] => "[]"
  | JArr (x :: rest) =>
      (String "[" (write x ++
         (fix tail (l : list json) : string :=
            match l with
            | [] => "]"
            | y :: l' => String "," (write y ++ tail l')
            end) rest))%string
  | JObj [] => "{}"
  | JObj ((k, x) :: rest) =>
      (String "{" (write_string k ++ String ":" (write x ++
         (fix tail (l : list (string * json)) : string :=
            match l with
            | [] => "}"
            | (k', y) :: l' =>
                String "," (write_string k' ++ String ":" (write y ++ tail l'))
            end) rest)))%string
  end.

(** The elements after the first, each led by a comma, and the closing
    bracket. *)
Fixpoint write_items (l : list json) : string :=
  match l with
  | [] => "]"
  | y :: l' => String "," (write y ++ write_items l')%string
  end.

Fixpoint write_fields (l : list (string * json)) : string :=
  match l with
  | [] => "}"
  | (k, y) :: l' =>
      String "," (write_string k ++ String ":" (write y ++ write_fields l'))%string
  end.

(** Reads the characters of a string up to its closing quote. *)
Fixpoint read_string (s : string) : option (string * string) :=
  match s with
  | EmptyString => None
  | String c rest =>
      if Ascii.eqb c quote then Some (EmptyString, rest)
      else if Ascii.eqb c backslash then
        match rest with
        | String e rest' =>
            match read_string rest' with
            | Some (str, after) => Some (String e str, after)
            | None => None
            end
        | EmptyString => None
        end
      else
        match read_string rest with
        | Some (str, after) => Some (String c str, after)
        | None => None
        end
  end.

Definition is_number_char (c : ascii) : bool :=
  let n := nat_of_ascii c in
  ((n =? 45) || ((48 <=? n) && (n <=? 57)))%nat.

(** The longest prefix of sign and digit characters, and what follows. *)
Fixpoint span_number (s : string) : string * string :=
  match s with
  | EmptyString => (EmptyString, EmptyString)
  | String c rest =>
      if is_number_char c
      then let (num, after) := span_number rest in (String c num, after)
      else (EmptyString, s)
  end.

Definition read_number (s : string) : option (Z * string) :=
  let (num, after) := span_number s in
  match DecimalString.NilZero.int_of_string num with
  | Some d => Some (Z.of_int d, after)
  | None => None
  end.

(** The rest of [s] after the literal [lit], when [s] starts with it. *)
Fixpoint strip (lit s : string) : option string :=
  match lit, s with
  | EmptyString, _ => Some s
  | String a lit', String c s' => if Ascii.eqb a c then strip lit' s' else None
  | String _ _, EmptyString => None
  end.

(** One [key:value] entry of an object, given the reader of values. *)
Definition read_entry (read : string -> option (json * string)) (s : string)
  : option ((string * json) * string) :=
  match s with
  | String c rest =>
      if Ascii.eqb c quote then
        match read_string rest with
        | Some (k, String d rest1) =>
            if Ascii.eqb d ":" then
              match read rest1 with
              | Some (x, rest2) => Some ((k, x), rest2)
              | None => None
              end
            else None
        | _ => None
        end
      else None
  | EmptyString => None
  end.

(** The reader.  Every call spends one unit of [fuel]; a text of [n]
    characters needs no more than [n + 1]. *)
Fixpoint read_value (fuel : nat) (s : string) : option (json * string) :=
  match fuel with
  | O => None
  | S fuel =>
      match s with
      | EmptyString => None
      | String c rest =>
          if Ascii.eqb c "n" then
            match strip "ull" rest with
            | Some after => Some (JNull, after)
            | None => None
            end
          else if Ascii.eqb c "t" then
            match strip "rue" rest with
            | Some after => Some (JBool true, after)
            | None => None
            end
          else if Ascii.eqb c "f" then
            match strip "alse" rest with
            | Some after => Some (JBool false, after)
            | None => None
            end
          else if Ascii.eqb c quote then
            match read_string rest with
            | Some (str, after) => Some (JStr str, after)
            | None => None
            end
          else if Ascii.eqb c "[" then
            match rest with
            | EmptyString => None
            | String c' rest' =>
                if Ascii.eqb c' "]" then Some (JArr [], rest')
                else
                  match read_value fuel rest with
                  | Some (x, rest1) =>
                      match read_items fuel rest1 with
                      | Some (items, rest2) => Some (JArr (x :: items), rest2)
                      | None => None
                      end
                  | None => None
                  end
            end
          else if Ascii.eqb c "{" then
            match rest with
            | EmptyString => None
            | String c' rest' =>
                if Ascii.eqb c' "}" then Some (JObj [], rest')
                else
                  match read_entry (read_value fuel) rest with
                  | Some (kx, rest1) =>
                      match read_fields fuel rest1 with
                      | Some (fields, rest2) => Some (JObj (kx :: fields), rest2)
                      | None => None
                      end
                  | None => None
                  end
            end
          else if is_number_char c then
            match read_number s with
            | Some (z, after) => Some (JNum z, after)
            | None => None
            end
          else None
      end
  end
with read_items (fuel : nat) (s : string) : option (list json * string) :=
  match fuel with
  | O => None
  | S fuel =>
      match s with
      | EmptyString => None
      | String c rest =>
          if Ascii.eqb c "]" then Some ([], rest)
          else if Ascii.eqb c "," then
            match read_value fuel rest with
            | Some (x, rest1) =>
                match read_items fuel rest1 with
                | Some (items, rest2) => Some (x :: items, rest2)
                | None => None
                end
            | None => None
            end
          else None
      end
  end
with read_fields (fuel : nat) (s : string) : option (list (string * json) * string) :=
  match fuel with
  | O => None
  | S fuel =>
      match s with
      | EmptyString => None
      | String c rest =>
          if Ascii.eqb c "}" then Some ([], rest)
          else if Ascii.eqb c "," then
            match read_entry (read_value fuel) rest with
            | Some (kx, rest1) =>
                match read_fields fuel rest1 with
                | Some (fields, rest2) => Some (kx :: fields, rest2)
                | None => None
                end
            | None => None
            end
          else None
      end
  end.

(** [JSON.stringify] and [JSON.parse]. *)
Definition stringify (v : json) : string := write v.

Definition parse (s : string) : option json :=
  match read_value (S (String.length s)) s with
  | Some (v, EmptyString) => Some v
  | _ => None
  end.

(** Calls of the reader that a value costs. *)
Fixpoint size (v : json) : nat :=
  match v with
  | JArr items => S (list_sum (List.map (fun x => S (size x)) items))
  | JObj fields => S (list_sum (List.map (fun kx => S (size (snd kx))) fields))
  | _ => 1
  end.

(** A text that may follow a number: it does not go on with a digit. *)
Definition follows (rest : string) : Prop :=
  match rest with
  | EmptyString => True
  | String c _ => is_number_char c = false
  end.

(** What reading back a value means: with enough fuel, and before a
    text that may follow, the reader returns the value and that text. *)
Definition reads_back (v : json) : Prop :=
  forall fuel rest,
    (size v <= fuel)%nat -> follows rest ->
    read_value fuel (write v ++ rest)%string = Some (v, rest).

End Codec.

(* ===================================================================== *)
(** * The storage contract in the specification's words *)
(* ===================================================================== *)

(** Back-filling: a state without a (truthy) [links] collection gets the
    empty list. *)
Definition with_links (v : json) : json :=
  match v with
  | JObj fields =>
      if truthy_opt (assoc "links" fields) then JObj fields
      else JObj (assign "links" (JArr []) fields)
  | _ => v
  end.

(** The state a successful remote fetch provides: the response is OK, its
    body is JSON, and the payload has [prayers] and [users]; it comes
    back-filled.  Every other reply provides nothing. *)
Definition remote_payload (JSON_parse : string -> option json) (reply : FetchReply)
  : option json :=
  match reply with
  | NetworkError _ => None
  | Response status body =>
      if response_ok status then
        match JSON_parse body with
        | Some (JObj fields) =>
            if truthy_opt (assoc "prayers" fields) && truthy_opt (assoc "users" fields)
            then Some (with_links (JObj fields))
            else None
        | _ => None
        end
      else None
  end.

(** The state the local cache provides: the cached text, when there is
    one, it is not empty and it is the JSON of an object (or of an array),
    back-filled. *)
Definition cached_state (JSON_parse : string -> option json) (cache : option string)
  : option json :=
  match cache with
  | None => None
  | Some EmptyString => None
  | Some text =>
      match JSON_parse text with
      | Some (JObj fields) => Some (with_links (JObj fields))
      | Some (JArr items) => Some (JArr items)
      | _ => None
      end
  end.

(** A state the board can use: it has the schedule, the user list and
    the links. *)
Definition usable (v : json) : bool :=
  truthy_opt (prop v "prayers") && truthy_opt (prop v "users")
  && truthy_opt (prop v "links").

(** The cache holds nothing but usable states: what it provides, if
    anything, is usable. *)
Definition cache_usable (JSON_parse : string -> option json) (w : World) : Prop :=
  forall v, cached_state JSON_parse (localStorage w !! OFFLINE_KEY) = Some v ->
            usable v = true.

(** The remote store is unavailable: the request fails, or the answer is
    not OK. *)
Definition unavailable (reply : FetchReply) : bool :=
  match reply with
  | NetworkError _ => true
  | Response status _ => negb (response_ok status)
  end.

(** A state with a new [lastUpdated] stamp. *)
Definition with_lastUpdated (s : AppData) (now : string) : AppData :=
  mkAppData (profile s) (prayers s) (jumma s) (ramadan s)
            (notices s) (users s) (links s) now.

(** What [syncToCloud] leaves on the console after the request. *)
Definition sync_report (reply : FetchReply) : list event :=
  match reply with
  | NetworkError reason => [EvError ("Non-critical Sync Error: " ++ reason)]
  | Response status _ =>
      if response_ok status then []
      else if status =? 404
      then [EvWarn "Cloud sync skipped (Bucket 404). Data saved locally."]
      else [EvError ("Non-critical Sync Error: " ++
                     ("Sync failed with status: " ++ toString (Some status)))]
  end.

(* ===================================================================== *)
(** * The login contract in the specification's words *)
(* ===================================================================== *)

(** A user record stripped of its password. *)
Definition without_password (u : User) : User :=
  mkUser (user_id u) (email u) None (role u) (enabled u).

(** Who a login attempt signs in: the first user whose credentials match,
    provided the account is enabled; nobody otherwise. *)
Definition login_spec (toLowerCase trim : string -> string)
    (users : list User) (email_in password_in : string) : option User :=
  match List.find (matches toLowerCase trim email_in password_in) users with
  | Some u => if enabled u then Some (without_password u) else None
  | None => None
  end.

(** The session record stored at login. *)
Definition session_json (user : json) (now : Z) : json :=
  JObj [("user", user); ("expiry", JNum (now + SESSION_TIMEOUT_MS))].

(** An empty browser: nothing stored, nothing done yet. *)
Definition fresh_world : World := mkWorld ∅ [].

(* ===================================================================== *)
(** * The session contract *)
(* ===================================================================== *)

(** The browser holds the session that a login at [since] wrote for [user]. *)
Definition session_stored (JSON_stringify : json -> string)
    (user : json) (since : Z) (w : World) : Prop :=
  localStorage w !! SESSION_TOKEN = Some (JSON_stringify (session_json user since)).

(** The world with the session of [user] written at [now]. *)
Definition with_session (JSON_stringify : json -> string)
    (user : json) (now : Z) (w : World) : World :=
  let text := JSON_stringify (session_json user now) in
  mkWorld (<[SESSION_TOKEN := text]> (localStorage w))
          (trace w ++ [EvSetItem SESSION_TOKEN text]).

(** The world with the session removed. *)
Definition without_session (w : World) : World :=
  mkWorld (delete SESSION_TOKEN (localStorage w)) (trace w).

(** The built-in administrator of [INITIAL_DATA]. *)
Definition root_admin : User :=
  mkUser "root-super-admin" "darzaid700@gmail.com" (Some "darzaid123") SUPER_ADMIN true.

(** An empty browser at the login form, nobody signed in. *)
Definition signed_out : Screen := mkScreen JNull PUBLIC [].

(** The world after [syncToCloud] has saved the state [saved]: the cache
    holds it, the request went out, and the console has the report. *)
Definition after_sync (JSON_stringify : json -> string)
    (saved : json) (reply : FetchReply) (w : World) : World :=
  let text := JSON_stringify saved in
  mkWorld (<[OFFLINE_KEY := text]> (localStorage w))
          (trace w ++ [EvSetItem OFFLINE_KEY text] ++ [EvFetch "POST" (Some text)]
             ++ sync_report reply).

(** A user with new credentials. *)
Definition with_credentials (u : User) (new_email new_password : string) : User :=
  mkUser (user_id u) new_email (Some new_password) (role u) (enabled u).

(** A user switched on or off. *)
Definition with_enabled (u : User) (on : bool) : User :=
  mkUser (user_id u) (email u) (password u) (role u) on.

(** The emails of the users, in lower case. *)
Definition lower_emails (toLowerCase : string -> string) (us : list User) : list string :=
  List.map (fun u => toLowerCase (email u)) us.

(** An empty browser after a load that found the cloud out of reach. *)
Definition offline_world : World :=
  mkWorld ∅ [EvFetch "GET" None;
             EvWarn "Cloud fetch failed, checking offline cache: offline"].

(** Registration on a board that is offline and has no cache, on the
    morning of 10 May 2024. *)
Definition register_offline : string -> string -> M unit :=
  registerCloudAdmin Codec.parse Codec.stringify "2024-05-01T08:00:00.000Z"
    JS.toLowerCase JS.trim 1715331600000 "2024-05-10T09:00:00.000Z"
    (NetworkError "offline") (NetworkError "offline").

(** A second administrator, and the state of a board that has both. *)
Definition imam : User :=
  mkUser "admin-1715331600000" "Imam@Example.com" (Some "s3cret") ADMIN true.
Definition two_admins : AppData :=
  with_users sample_data [root_admin; imam] "2024-05-10T09:00:00.000Z".

(** A browser whose cache holds a state, and the same browser after a
    load that found the cloud out of reach. *)
Definition cached_world (s : AppData) : World :=
  mkWorld {[ OFFLINE_KEY := Codec.stringify (AppData_json s) ]} [].
Definition after_offline_load (w : World) : World :=
  mkWorld (localStorage w)
          (trace w ++ [EvFetch "GET" None;
                       EvWarn "Cloud fetch failed, checking offline cache: offline"]).

(** An update on a board that is offline, at noon of 11 May 2024. *)
Definition update_offline : string -> list (string * json) -> M unit :=
  updateCloudUser Codec.parse Codec.stringify "2024-05-01T08:00:00.000Z"
    JS.toLowerCase JS.trim 1715428800000 "2024-05-11T12:00:00.000Z"
    (NetworkError "offline") (NetworkError "offline").

(** The notice that the form holds, under a given id and date. *)
Definition form_notice (st : Admin) (id noticeISO : string) : Notice :=
  mkNotice id (st_noticeTitle st) (st_noticeMessage st) noticeISO
           (if String.eqb (st_noticeExpiry st) EmptyString then None
            else Some (st_noticeExpiry st))
           (st_isNoticeImportant st).

(** A dashboard with a state loaded and the notice form filled in. *)
Definition writing_notice (s : AppData) (editing : option Notice) : Admin :=
  mkAdmin (Some s) (Some s) editing "Eid prayer" "Eid prayer at 07:30" "2024-06-17" true
          None [].

(* ===================================================================== *)
(** * Clock times and instants on which the program computes exactly *)
(* ===================================================================== *)

(** The program computes in double precision and the definitions above in
    exact rationals.  On whole hours and minutes of the clock the two
    agree: the sums and differences of the resolver are whole numbers far
    below 2^53, and the one quotient it forms is rounded monotonically.
    The properties of the progress value and of the countdown are stated
    for such times. *)

(** A rational that is a whole number. *)
Definition whole (q : Q) : option Z :=
  if Qeq_bool q (inject_Z (Qfloor q)) then Some (Qfloor q) else None.

(** The hour and the minute a time string reads as: its first two fields
    convert to whole numbers, an hour of the day and a minute of the hour. *)
Definition clock_of (Number : string -> number) (time : string) : option (Z * Z) :=
  let parts := map Number (JS.split ":" time) in
  match default NaN (parts !! 0%nat), default NaN (parts !! 1%nat) with
  | Num qh, Num qm =>
      match whole qh, whole qm with
      | Some zh, Some zm =>
          if (0 <=? zh) && (zh <? 24) && (0 <=? zm) && (zm <? 60)
          then Some (zh, zm)
          else None
      | _, _ => None
      end
  | _, _ => None
  end.

(** Every iqamah of the schedule is a clock time. *)
Definition clock_schedule (Number : string -> number) (schedule : list Entry) : bool :=
  forallb (fun p => match clock_of Number (iqamah p) with
                    | Some _ => true
                    | None => false
                    end) schedule.

(** The largest time value of a [Date], in milliseconds either side of
    the epoch. *)
Definition MAX_TIME_VALUE : Z := 8640000000000000.

(** An instant at least three days inside the range of time values:
    [setHours] and [setDate] move a date by less than two days, and the
    zone by less than one, so that the dates built from it stay valid. *)
Definition date_in_range (d : Date) : bool :=
  Z.abs (wall d) <=? MAX_TIME_VALUE - 3 * MS_PER_DAY.

(* ===================================================================== *)
(** * Properties of the next-prayer resolver *)
(* ===================================================================== *)

Section NumberFacts.

Lemma gt_Num (x y : Q) : JS.gt (Num x) (Num y) = true <-> (y < x)%Q.
Proof.
  unfold JS.gt. rewrite negb_true_iff. split.
  - intros H. apply Qnot_le_lt. intros L. apply Qle_bool_iff in L. congruence.
  - intros H. destruct (Qle_bool x y) eqn:E; [|reflexivity].
    apply Qle_bool_iff in E. exfalso. exact (Qlt_not_le _ _ H E).
Qed.

Lemma gt_Num_false (x y : Q) : JS.gt (Num x) (Num y) = false <-> (x <= y)%Q.
Proof.
  unfold JS.gt. rewrite negb_false_iff. apply Qle_bool_iff.
Qed.

(** What is greater than a finite number: a greater finite number, or
    plus infinity. *)
Lemma gt_inv (a : number) (y : Q) :
  JS.gt a (Num y) = true -> (exists x, a = Num x /\ (y < x)%Q) \/ a = PosInf.
Proof.
  destruct a as [|x| |]; simpl; try discriminate.
  - intros H. left. exists x. split; [reflexivity | by apply gt_Num].
  - by right.
Qed.







End NumberFacts.

Section FindIndex.
Context {A : Type} (p : A -> bool).

Lemma findIndex_range (l : list A) :
  -1 <= findIndex p l < Z.of_nat (length l).
Proof.
  induction l as [|x rest IH]; simpl; [lia|].
  destruct (p x); [lia|].
  destruct (findIndex p rest =? -1) eqn:E; lia.
Qed.

(** No element satisfies the predicate exactly when the answer is -1. *)
Lemma findIndex_none (l : list A) :
  findIndex p l = -1 <-> Forall (fun x => p x = false) l.
Proof.
  induction l as [|x rest IH]; simpl.
  - split; [constructor | reflexivity].
  - destruct (p x) eqn:Px.
    + split; [lia | intros H; inversion H; congruence].
    + pose proof (findIndex_range rest) as R.
      destruct (findIndex p rest =? -1) eqn:E.
      * apply Z.eqb_eq in E. split; [|reflexivity].
        intros _. constructor; [exact Px | apply IH, E].
      * apply Z.eqb_neq in E. split; [lia|].
        intros H. inversion H; subst. exfalso. apply E, IH. assumption.
Qed.

(** Otherwise the answer is the position of the first element that does. *)
Lemma findIndex_first (l : list A) :
  findIndex p l <> -1 ->
  exists pre x post,
    l = pre ++ x :: post /\
    Z.of_nat (length pre) = findIndex p l /\
    Forall (fun y => p y = false) pre /\
    p x = true.
Proof.
  induction l as [|x rest IH]; simpl; [congruence|].
  destruct (p x) eqn:Px.
  - intros _. exists [], x, rest. repeat split; auto.
  - destruct (findIndex p rest =? -1) eqn:E; [congruence|].
    apply Z.eqb_neq in E. intros _.
    destruct (IH E) as (pre & y & post & -> & Hlen & Hpre & Py).
    exists (x :: pre), y, post. simpl length. repeat split; auto.
    lia.
Qed.

End FindIndex.

Section ResolverFacts.
Variable Number : string -> number.

Implicit Types (schedule : list Entry) (cm : number).

(** What [resolve] selects, for any five-row schedule: the first row that
    is [later] than the current minute, today; or the first row of the
    schedule, tomorrow, when no row is later. *)
Lemma resolve_selects schedule cm :
  length schedule = 5%nat ->
  exists r, resolve Number schedule cm = Some r /\
    ((exists pre post,
        schedule = pre ++ next r :: post /\
        Z.of_nat (length pre) = nextIndex r /\
        Forall (fun p => later Number cm p = false) pre /\
        later Number cm (next r) = true /\
        isTomorrow r = false)
     \/
     (Forall (fun p => later Number cm p = false) schedule /\
      schedule !! 0%nat = Some (next r) /\
      nextIndex r = 0 /\
      isTomorrow r = true)).
Proof.
  intros Hlen.
  destruct schedule as [|e0 [|e1 [|e2 [|e3 [|e4 [|]]]]]]; simpl in Hlen; try lia.
  clear Hlen.
  set (sch := [e0; e1; e2; e3; e4]).
  destruct (Z.eq_dec (findIndex (later Number cm) sch) (-1)) as [Hnone|Hsome].
  - unfold resolve. fold sch. rewrite Hnone. simpl.
    eexists. split; [reflexivity|]. right. simpl.
    repeat split. apply findIndex_none. exact Hnone.
  - destruct (findIndex_first _ _ Hsome) as (pre & x & post & Heq & Hidx & Hpre & Hx).
    pose proof (findIndex_range (later Number cm) sch) as R.
    assert (Hlook : sch !! Z.to_nat (findIndex (later Number cm) sch) = Some x).
    { rewrite <- Hidx, Nat2Z.id, Heq.
      rewrite lookup_app_r by lia. by rewrite Nat.sub_diag. }
    assert (Hprev : exists prev,
      sch !! Z.to_nat (if findIndex (later Number cm) sch =? 0 then 4
                       else findIndex (later Number cm) sch - 1) = Some prev).
    { apply lookup_lt_is_Some_2. simpl length in *.
      destruct (findIndex (later Number cm) sch =? 0) eqn:E; [simpl; lia|].
      apply Z.eqb_neq in E. lia. }
    destruct Hprev as [prev Hprev].
    unfold resolve. fold sch.
    apply Z.eqb_neq in Hsome. cbv zeta. rewrite Hsome, Hlook.
    cbn [mbind option_bind]. rewrite Hprev. cbn [mbind option_bind].
    eexists. split; [reflexivity|]. left. simpl.
    exists pre, post. repeat split; auto.
Qed.


(** The shape of every result of [resolve], read off its code. *)
Lemma resolve_inv schedule cm r :
  resolve Number schedule cm = Some r ->
  totalDuration r = JS.sub (nextPrayerTime r) (prevPrayerTime r) /\
  elapsed r =
    JS.sub (if isTomorrow r then JS.add cm (ofZ (24 * 60)) else cm) (prevPrayerTime r) /\
  progress r =
    (if JS.gt (totalDuration r) (ofZ 0)
     then JS.Math_min (ofZ 100)
            (JS.Math_max (ofZ 0) (JS.mul (JS.div (elapsed r) (totalDuration r)) (ofZ 100)))
     else ofZ 0) /\
  if isTomorrow r
  then
    findIndex (later Number cm) schedule = -1 /\
    nextIndex r = 0 /\
    schedule !! 0%nat = Some (next r) /\
    nextPrayerTime r = JS.add (getMinutes Number (iqamah (next r))) (ofZ (24 * 60)) /\
    exists isha, schedule !! 4%nat = Some isha /\
                 prevPrayerTime r = getMinutes Number (iqamah isha)
  else
    findIndex (later Number cm) schedule = nextIndex r /\
    nextIndex r <> -1 /\
    schedule !! Z.to_nat (nextIndex r) = Some (next r) /\
    nextPrayerTime r = getMinutes Number (iqamah (next r)) /\
    exists prev,
      schedule !! Z.to_nat (if nextIndex r =? 0 then 4 else nextIndex r - 1) = Some prev /\
      prevPrayerTime r =
        (if nextIndex r =? 0
         then JS.sub (getMinutes Number (iqamah prev)) (ofZ (24 * 60))
         else getMinutes Number (iqamah prev)).
Proof.
  unfold resolve. cbv zeta.
  destruct (findIndex (later Number cm) schedule =? -1) eqn:E.
  - apply Z.eqb_eq in E.
    destruct (schedule !! 0%nat) as [e0|] eqn:H0; cbn [mbind option_bind]; [|discriminate].
    destruct (schedule !! 4%nat) as [e4|] eqn:H4; cbn [mbind option_bind]; [|discriminate].
    intros [= <-]. cbn. repeat split; eauto.
  - apply Z.eqb_neq in E.
    destruct (schedule !! Z.to_nat (findIndex (later Number cm) schedule))
      as [nx|] eqn:Hn.
    + destruct (schedule !! Z.to_nat
                  (if findIndex (later Number cm) schedule =? 0 then 4
                   else findIndex (later Number cm) schedule - 1))
        as [pv|] eqn:Hp; cbn [mbind option_bind]; [|discriminate].
      intros [= <-]. cbn. repeat split; eauto.
    + exfalso.
      pose proof (findIndex_range (later Number cm) schedule) as R.
      apply lookup_ge_None in Hn. lia.
Qed.

(** A selected row of today is strictly later than the current minute. *)
Lemma resolve_today_later schedule cm r :
  resolve Number schedule cm = Some r ->
  isTomorrow r = false ->
  later Number cm (next r) = true.
Proof.
  intros Hr Ht.
  destruct (resolve_inv _ _ _ Hr) as (_ & _ & _ & H). rewrite Ht in H.
  destruct H as (Hidx & Hne & Hlook & _).
  rewrite <- Hidx in Hne.
  destruct (findIndex_first _ _ Hne) as (pre & x & post & Heq & Hlen & _ & Hx).
  rewrite <- Hidx, <- Hlen, Nat2Z.id, Heq in Hlook.
  rewrite lookup_app_r, Nat.sub_diag in Hlook by lia.
  simpl in Hlook. congruence.
Qed.

End ResolverFacts.

(* ===================================================================== *)
(** * Clock times *)
(* ===================================================================== *)

Lemma whole_spec (q : Q) (z : Z) : whole q = Some z -> (q == inject_Z z)%Q.
Proof.
  unfold whole. destruct (Qeq_bool q (inject_Z (Qfloor q))) eqn:E; [|discriminate].
  intros [= <-]. by apply Qeq_bool_iff.
Qed.

Lemma toInteger_whole (q : Q) (z : Z) : (q == inject_Z z)%Q -> toInteger q = z.
Proof.
  intros E. unfold toInteger.
  destruct (Qle_bool 0 q).
  - rewrite (Qfloor_comp _ _ E). apply Qfloor_Z.
  - rewrite (Qceiling_comp _ _ E). apply Qceiling_Z.
Qed.

Section ClockFacts.
Variable Number : string -> number.

(** What a clock time says of the fields of the string. *)
Lemma clock_of_fields (time : string) (zh zm : Z) :
  clock_of Number time = Some (zh, zm) ->
  exists qh qm,
    map Number (JS.split ":" time) !! 0%nat = Some (Num qh) /\
    map Number (JS.split ":" time) !! 1%nat = Some (Num qm) /\
    (qh == inject_Z zh)%Q /\ (qm == inject_Z zm)%Q /\
    0 <= zh < 24 /\ 0 <= zm < 60.
Proof.
  unfold clock_of. cbv zeta.
  destruct (map Number (JS.split ":" time) !! 0%nat) as [[|qh| |]|];
    cbn [default from_option id]; try discriminate.
  destruct (map Number (JS.split ":" time) !! 1%nat) as [[|qm| |]|];
    cbn [default from_option id]; try discriminate.
  destruct (whole qh) as [h|] eqn:Wh; [|discriminate].
  destruct (whole qm) as [m|] eqn:Wm; [|discriminate].
  destruct ((0 <=? h) && (h <? 24) && (0 <=? m) && (m <? 60)) eqn:R; [|discriminate].
  intros [= <- <-].
  apply andb_prop in R as [R Hm2]. apply andb_prop in R as [R Hm1].
  apply andb_prop in R as [Hh1 Hh2].
  exists qh, qm. repeat split; try (by apply whole_spec); lia.
Qed.

(** A clock time is a whole minute of the day for [getMinutes]. *)
Lemma clock_of_getMinutes (time : string) (zh zm : Z) :
  clock_of Number time = Some (zh, zm) ->
  exists q,
    getMinutes Number time = Num q /\
    (q == inject_Z (zh * 60 + zm))%Q /\
    0 <= zh * 60 + zm < 24 * 60.
Proof.
  intros H.
  destruct (clock_of_fields time zh zm H) as (qh & qm & H0 & H1 & Eh & Em & Rh & Rm).
  unfold getMinutes. cbv zeta. rewrite H0, H1. cbn [default from_option id].
  eexists. split; [reflexivity|]. split; [|lia].
  rewrite Eh, Em, inject_Z_plus, inject_Z_mult. reflexivity.
Qed.

Lemma clock_schedule_row (schedule : list Entry) (p : Entry) :
  clock_schedule Number schedule = true ->
  In p schedule ->
  exists zh zm, clock_of Number (iqamah p) = Some (zh, zm).
Proof.
  unfold clock_schedule. rewrite forallb_forall. intros H Hin.
  specialize (H p Hin).
  destruct (clock_of Number (iqamah p)) as [[zh zm]|]; [eauto | discriminate].
Qed.

(** The minute of a row of a schedule of clock times. *)
Lemma clock_schedule_minutes (schedule : list Entry) (i : nat) (p : Entry) :
  clock_schedule Number schedule = true ->
  schedule !! i = Some p ->
  exists q z,
    getMinutes Number (iqamah p) = Num q /\ (q == inject_Z z)%Q /\ 0 <= z < 24 * 60.
Proof.
  intros Hs Hp.
  destruct (clock_schedule_row schedule p Hs) as (zh & zm & Hc).
  { apply list_elem_of_In. eapply list_elem_of_lookup_2, Hp. }
  destruct (clock_of_getMinutes _ _ _ Hc) as (q & E & Hq & R).
  exists q, (zh * 60 + zm). auto.
Qed.

End ClockFacts.

Lemma schedule_of_length (data : AppData) (isFri : bool) :
  length (schedule_of data isFri) = 5%nat.
Proof. destruct isFri; reflexivity. Qed.

(** [later] is the strict comparison of the row's iqamah minute with the
    current minute: the minute is a number strictly greater, or plus
    infinity; a row whose minute is NaN is never later. *)
Lemma later_strict (Number : string -> number) (c : Z) (p : Entry) :
  later Number (ofZ c) p = true <->
  (exists q, getMinutes Number (iqamah p) = Num q /\ (inject_Z c < q)%Q)
  \/ getMinutes Number (iqamah p) = PosInf.
Proof.
  unfold later, ofZ. split.
  - apply gt_inv.
  - intros [(q & -> & Hlt) | ->]; [by apply gt_Num | reflexivity].
Qed.

(** C1. For every timetable and every clock reading, [nextPrayerState]
    returns the first row of the day's schedule whose iqamah minute is
    strictly greater than the current minute of the day, with
    [isTomorrow = false]; when no row is later it returns the first row
    (Fajr) with [isTomorrow = true].  A row whose iqamah minute equals the
    current minute is not later, so the row after it is the one returned. *)
Theorem nextPrayerState_first_later
    (Number : string -> number) (data : AppData) (now : Date) :
  let schedule := schedule_of data (Date_getDay now =? 5) in
  let cm := Date_getHours now * 60 + Date_getMinutes now in
  (forall p, later Number (ofZ cm) p = true <->
             (exists q, getMinutes Number (iqamah p) = Num q /\ (inject_Z cm < q)%Q)
             \/ getMinutes Number (iqamah p) = PosInf) /\
  exists e tomorrow prog,
    nextPrayerState Number data now =
      Some (mkNextPrayer (name e) (azan e) (iqamah e) tomorrow prog) /\
    ((exists pre post,
        schedule = pre ++ e :: post /\
        Forall (fun p => later Number (ofZ cm) p = false) pre /\
        later Number (ofZ cm) e = true /\
        tomorrow = false)
     \/
     (Forall (fun p => later Number (ofZ cm) p = false) schedule /\
      schedule !! 0%nat = Some e /\
      name e = "Fajr" /\
      tomorrow = true)).
Proof.
  intros schedule cm. split; [intros p; apply later_strict|].
  destruct (resolve_selects Number schedule (ofZ cm)) as (r & Hr & Hsel).
  { apply schedule_of_length. }
  exists (next r), (isTomorrow r), (progress r). split.
  - unfold nextPrayerState. cbv zeta. unfold currentMinutes_of.
    fold cm. fold schedule. by rewrite Hr.
  - destruct Hsel as [(pre & post & Heq & _ & Hpre & Hx & Ht)
                     |(Hall & H0 & _ & Ht)].
    + left. exists pre, post. auto.
    + right. repeat split; auto.
      subst schedule. destruct (Date_getDay now =? 5); by injection H0 as <-.
Qed.

(** C4. The schedule handed to the resolver has five rows in the fixed
    order Fajr, Zuhr-or-Jumma, Asr, Maghrib, Isha.  On a Friday
    ([getDay() = 5]) its second row is Jumma with the khutbah as azan and
    the jamaat as iqamah, and no row is named Zuhr; on any other day the
    second row is Zuhr and no row is named Jumma.  The other four rows are
    the same on every day. *)
Theorem friday_replaces_zuhr (data : AppData) (now : Date) :
  let isFri := Date_getDay now =? 5 in
  schedule_of data isFri =
    [ mkEntry "Fajr" (pt_azan (fajr (prayers data))) (pt_iqamah (fajr (prayers data)));
      (if isFri
       then mkEntry "Jumma" (khutbah (jumma data)) (jamaat (jumma data))
       else mkEntry "Zuhr" (pt_azan (zuhr (prayers data))) (pt_iqamah (zuhr (prayers data))));
      mkEntry "Asr" (pt_azan (asr (prayers data))) (pt_iqamah (asr (prayers data)));
      mkEntry "Maghrib" (pt_azan (maghrib (prayers data))) (pt_iqamah (maghrib (prayers data)));
      mkEntry "Isha" (pt_azan (isha (prayers data))) (pt_iqamah (isha (prayers data))) ] /\
  existsb (fun p => String.eqb (name p) "Zuhr") (schedule_of data isFri) = negb isFri /\
  existsb (fun p => String.eqb (name p) "Jumma") (schedule_of data isFri) = isFri /\
  forall Number : string -> number,
    nextPrayerState Number data now =
      (r ← resolve Number (schedule_of data isFri) (currentMinutes_of now);
       Some (mkNextPrayer (name (next r)) (azan (next r)) (iqamah (next r))
                          (isTomorrow r) (progress r))).
Proof.
  intros isFri. destruct isFri eqn:E; subst isFri; repeat split; try reflexivity.
  all: intros Number; unfold nextPrayerState; cbv zeta; by rewrite E.
Qed.

(** C6. With iqamah times 06:00, 13:30, 17:00, 19:55 and 21:30, at 22:00
    on a day that is not a Friday, the resolver returns Fajr with
    [isTomorrow = true]; the previous prayer time is Isha's iqamah, 1290
    minutes, the next prayer time is Fajr's iqamah plus 1440, 1800 minutes,
    and the total duration is 510 minutes.  The elapsed time is the current
    minute plus 1440 less the previous prayer time, 1470 minutes, and the
    progress value is the ratio of the two in percent, cut at 100: it is
    100.  In general, whenever the result is flagged for tomorrow the next
    prayer time is the row's iqamah minute plus 24 * 60, the previous one
    is the iqamah minute of the fifth row and the elapsed time is the
    current minute plus 24 * 60 less the previous prayer time; otherwise
    the next prayer time is the row's own iqamah minute and the elapsed time
    the current minute less the previous prayer time.  In both cases the
    total duration is the next prayer time less the previous one and the
    progress value is elapsed / total * 100 cut to [0, 100], or 0 when the
    total duration is not positive. *)
Theorem isha_to_fajr_window :
  let now := at_clock 0 22 0 0 in
  (Date_getDay now =? 5) = false /\
  Date_getHours now * 60 + Date_getMinutes now = 1320 /\
  nextPrayerState JS.Number sample_data now =
    Some (mkNextPrayer "Fajr" "05:30" "06:00" true (Num 100)) /\
  (exists r,
     resolve JS.Number (schedule_of sample_data false) (currentMinutes_of now) = Some r /\
     name (next r) = "Fajr" /\
     isTomorrow r = true /\
     prevPrayerTime r = Num 1290 /\
     prevPrayerTime r = getMinutes JS.Number "21:30" /\
     nextPrayerTime r = Num 1800 /\
     nextPrayerTime r = JS.add (getMinutes JS.Number "06:00") (ofZ 1440) /\
     totalDuration r = Num 510 /\
     elapsed r = Num 1470 /\
     progress r = Num 100) /\
  (forall (Number : string -> number) (schedule : list Entry) (cm : number),
     match resolve Number schedule cm with
     | Some r =>
         totalDuration r = JS.sub (nextPrayerTime r) (prevPrayerTime r) /\
         progress r =
           (if JS.gt (totalDuration r) (ofZ 0)
            then JS.Math_min (ofZ 100)
                   (JS.Math_max (ofZ 0)
                      (JS.mul (JS.div (elapsed r) (totalDuration r)) (ofZ 100)))
            else ofZ 0) /\
         if isTomorrow r
         then nextPrayerTime r = JS.add (getMinutes Number (iqamah (next r))) (ofZ (24 * 60)) /\
              elapsed r = JS.sub (JS.add cm (ofZ (24 * 60))) (prevPrayerTime r) /\
              schedule !! 0%nat = Some (next r) /\
              exists isha, schedule !! 4%nat = Some isha /\
                           prevPrayerTime r = getMinutes Number (iqamah isha)
         else nextPrayerTime r = getMinutes Number (iqamah (next r)) /\
              elapsed r = JS.sub cm (prevPrayerTime r)
     | None => True
     end).
Proof.
  cbv zeta. split; [reflexivity|]. split; [reflexivity|].
  split; [vm_compute; reflexivity|].
  split; [eexists; split; [vm_compute; reflexivity|]; repeat split|].
  intros Number schedule cm.
  destruct (resolve Number schedule cm) as [r|] eqn:Hr; [|exact I].
  destruct (resolve_inv _ _ _ _ Hr) as (Htot & Hel & Hprog & H).
  split; [exact Htot|]. split; [exact Hprog|].
  destruct (isTomorrow r).
  - destruct H as (_ & _ & H0 & Hn & Hp). auto.
  - destruct H as (_ & _ & _ & Hn & _). auto.
Qed.

Section Progress.
Variable Number : string -> number.
Implicit Types (schedule : list Entry) (r : Locals).



End Progress.


(** From Isha's iqamah minute until midnight the result is flagged for
    tomorrow and the elapsed time counts the current minute plus 24 * 60
    against an interval start that is today's Isha: the progress value is
    100 from the first minute of the interval; after midnight it is again
    below 100. *)
Lemma progress_after_isha :
  (exists r,
     resolve JS.Number (schedule_of sample_data false)
             (currentMinutes_of (at_clock 0 21 30 0)) = Some r /\
     isTomorrow r = true /\ name (next r) = "Fajr" /\
     prevPrayerTime r = Num 1290 /\
     elapsed r = Num 1440 /\ totalDuration r = Num 510 /\
     progress r = Num 100) /\
  (exists r,
     resolve JS.Number (schedule_of sample_data false)
             (currentMinutes_of (at_clock 1 0 30 0)) = Some r /\
     isTomorrow r = false /\ name (next r) = "Fajr" /\
     prevPrayerTime r = Num (-150) /\
     elapsed r = Num 180 /\ totalDuration r = Num 510 /\
     num_within 35 36 (progress r)).
Proof.
  split; eexists; (split; [vm_compute; reflexivity|]); repeat split;
    vm_compute; discriminate.
Qed.

(** A stored time that converts to minus infinity: at 07:00, with Fajr's
    iqamah stored as [-Infinity:00], the interval before Zuhr starts at
    minus infinity and the progress value is NaN. *)
Lemma progress_nan_for_infinite_start :
  exists r,
    resolve JS.Number
            (schedule_of (with_fajr_iqamah sample_data "-Infinity:00") false)
            (currentMinutes_of (at_clock 0 7 0 0)) = Some r /\
    name (next r) = "Zuhr" /\
    prevPrayerTime r = NegInf /\
    totalDuration r = PosInf /\
    elapsed r = PosInf /\
    progress r = NaN.
Proof. eexists. split; [vm_compute; reflexivity|]. repeat split. Qed.


Section ProgressOnClockTimes.
Variable Number : string -> number.


End ProgressOnClockTimes.



(* ===================================================================== *)
(** * Properties of the countdown *)
(* ===================================================================== *)

(** Two-digit padding of a number below one hundred. *)
Lemma pad2_digits (n : Z) :
  0 <= n < 100 ->
  padStart 2 "0" (toString (Some n)) =
    String (digit_char (n / 10)) (String (digit_char (n mod 10)) EmptyString).
Proof.
  intros Hn.
  assert (Hall : forallb (fun k =>
            String.eqb (padStart 2 "0" (toString (Some (Z.of_nat k))))
              (String (digit_char (Z.of_nat k / 10))
                 (String (digit_char (Z.of_nat k mod 10)) EmptyString)))
            (seq 0 100) = true) by (vm_compute; reflexivity).
  rewrite forallb_forall in Hall.
  specialize (Hall (Z.to_nat n)).
  rewrite Z2Nat.id in Hall by lia.
  apply String.eqb_eq, Hall, in_seq. lia.
Qed.

(** Splitting a number of milliseconds the way the code does and the way
    the clock face reads agree. *)
Lemma split_duration (d : Z) :
  0 <= d ->
  d / (1000 * 60 * 60) = d / 1000 / 3600 /\
  Z.rem d (1000 * 60 * 60) / (1000 * 60) = (d / 1000 / 60) mod 60 /\
  Z.rem d (1000 * 60) / 1000 = (d / 1000) mod 60.
Proof.
  intros Hd.
  change (1000 * 60 * 60) with 3600000. change (1000 * 60) with 60000.
  rewrite !Z.rem_mod_nonneg by lia.
  repeat split; Z.div_mod_to_equations; lia.
Qed.

Section CountdownFacts.
Variable Number : string -> number.

(** The countdown in terms of the target instant. *)
Lemma countdownStr_target (np : NextPrayer) (now : Date) (qh qm : Q) :
  map Number (JS.split ":" (np_iqamah np)) !! 0%nat = Some (Num qh) ->
  map Number (JS.split ":" (np_iqamah np)) !! 1%nat = Some (Num qm) ->
  let target :=
    (wall now / MS_PER_DAY) * MS_PER_DAY
    + (if np_isTomorrow np then MS_PER_DAY else 0)
    + toInteger qh * MS_PER_HOUR + toInteger qm * MS_PER_MINUTE in
  let diff := target - wall now in
  countdownStr Number (Some np) now =
    if diff <? 0 then "00:00:00" else hms (diff / 1000).
Proof.
  intros Hh Hm target diff.
  unfold countdownStr. cbv zeta. rewrite Hh, Hm. cbn [default setHours].
  set (d := match (if np_isTomorrow np then setDate_next _ else _) with
            | Some t => Some (t - wall now) | None => None end).
  assert (Hd : d = Some diff).
  { subst d diff target. destruct (np_isTomorrow np); cbn [setDate_next]; f_equal; lia. }
  rewrite Hd.
  destruct (diff <? 0) eqn:Neg; [reflexivity|].
  apply Z.ltb_ge in Neg.
  destruct (split_duration diff Neg) as (E1 & E2 & E3).
  unfold hms. cbn [floor_div remainder]. by rewrite E1, E2, E3.
Qed.

End CountdownFacts.

(** C8. For a resolved next prayer whose iqamah is a clock time (a whole
    hour of the day and a whole minute of the hour) and an instant well
    inside the range of dates, [countdownStr] takes as target the start of
    today (of tomorrow when [isTomorrow] is set) plus the hour and the
    minute, and the remaining time is target minus now.  When that is
    negative the result is exactly "00:00:00".  Otherwise the result is the
    remaining whole seconds, rounded down, as hours, minutes and seconds:
    the eight characters HH:MM:SS, with the hours below forty-eight and
    minutes and seconds below sixty.  (The zone keeps one offset between
    now and the target, as everywhere in this development.) *)
Theorem countdownStr_renders_remaining
    (Number : string -> number) (np : NextPrayer) (now : Date) (zh zm : Z) :
  clock_of Number (np_iqamah np) = Some (zh, zm) ->
  date_in_range now = true ->
  let target :=
    (wall now / MS_PER_DAY) * MS_PER_DAY
    + (if np_isTomorrow np then MS_PER_DAY else 0)
    + zh * MS_PER_HOUR + zm * MS_PER_MINUTE in
  let diff := target - wall now in
  diff < 2 * MS_PER_DAY /\
  (diff < 0 -> countdownStr Number (Some np) now = "00:00:00") /\
  (0 <= diff ->
   countdownStr Number (Some np) now = hms (diff / 1000) /\
   exists hh mm ss,
     0 <= hh < 48 /\ 0 <= mm < 60 /\ 0 <= ss < 60 /\
     hh * 3600 + mm * 60 + ss = diff / 1000 /\
     countdownStr Number (Some np) now =
       String (digit_char (hh / 10)) (String (digit_char (hh mod 10)) (String ":"
         (String (digit_char (mm / 10)) (String (digit_char (mm mod 10)) (String ":"
           (String (digit_char (ss / 10)) (String (digit_char (ss mod 10))
              EmptyString)))))))).
Proof.
  intros Hclock _ target diff.
  destruct (clock_of_fields Number _ _ _ Hclock)
    as (qh & qm & Hh & Hm & Eh & Em & Rh & Rm).
  pose proof (countdownStr_target Number np now qh qm Hh Hm) as E.
  cbv zeta in E. rewrite (toInteger_whole _ _ Eh), (toInteger_whole _ _ Em) in E.
  fold target in E. fold diff in E.
  assert (Hday : 0 <= wall now - wall now / MS_PER_DAY * MS_PER_DAY < MS_PER_DAY).
  { unfold MS_PER_DAY. Z.div_mod_to_equations. lia. }
  assert (Hlt : diff < 2 * MS_PER_DAY).
  { subst diff target. unfold MS_PER_DAY, MS_PER_HOUR, MS_PER_MINUTE in *.
    destruct (np_isTomorrow np); lia. }
  split; [exact Hlt|]. split.
  - intros Hneg. rewrite E. apply Z.ltb_lt in Hneg. by rewrite Hneg.
  - intros Hpos. rewrite E.
    assert (Hge : (diff <? 0) = false) by (apply Z.ltb_ge; lia).
    rewrite Hge. split; [reflexivity|].
    exists (diff / 1000 / 3600), ((diff / 1000 / 60) mod 60), ((diff / 1000) mod 60).
    unfold MS_PER_DAY in Hlt.
    assert (H1 : 0 <= diff / 1000 / 3600 < 48)
      by (Z.div_mod_to_equations; lia).
    assert (H2 : 0 <= (diff / 1000 / 60) mod 60 < 60)
      by (apply Z.mod_pos_bound; lia).
    assert (H3 : 0 <= (diff / 1000) mod 60 < 60)
      by (apply Z.mod_pos_bound; lia).
    split; [exact H1|]. split; [exact H2|]. split; [exact H3|].
    split; [clear; Z.div_mod_to_equations; lia|].
    unfold hms.
    rewrite (pad2_digits (diff / 1000 / 3600)) by lia.
    rewrite (pad2_digits ((diff / 1000 / 60) mod 60)) by lia.
    rewrite (pad2_digits ((diff / 1000) mod 60)) by lia.
    reflexivity.
Qed.

(** The theorem at 22:00:01 with Fajr's iqamah at 06:00 tomorrow: the
    countdown reads 07:59:59. *)
Lemma countdownStr_renders_remaining_witness :
  countdownStr JS.Number
    (Some (mkNextPrayer "Fajr" "05:30" "06:00" true (Num 100)))
    (at_clock 0 22 0 1) = "07:59:59" /\
  countdownStr JS.Number
    (Some (mkNextPrayer "Asr" "16:30" "17:00" false (Num 100)))
    (at_clock 0 17 0 1) = "00:00:00".
Proof.
  split.
  - pose proof (countdownStr_renders_remaining JS.Number
                  (mkNextPrayer "Fajr" "05:30" "06:00" true (Num 100))
                  (at_clock 0 22 0 1) 6 0 eq_refl eq_refl) as (_ & _ & H).
    destruct H as [H _]; [vm_compute; discriminate|].
    rewrite H. reflexivity.
  - pose proof (countdownStr_renders_remaining JS.Number
                  (mkNextPrayer "Asr" "16:30" "17:00" false (Num 100))
                  (at_clock 0 17 0 1) 17 0 eq_refl eq_refl) as (_ & H & _).
    apply H. vm_compute. reflexivity.
Defined.

(* ===================================================================== *)
(** * Properties of the notice board *)
(* ===================================================================== *)


(** The day count on dates whose number is known: the epoch, the leap
    day of 2000, the turn of 2024, and the day of the example below. *)
Example days_from_civil_known :
  ISODate.days_from_civil 1970 1 1 = 0 /\
  ISODate.days_from_civil 2000 2 29 = 11016 /\
  ISODate.days_from_civil 2024 1 1 = 19723 /\
  ISODate.days_from_civil 2024 5 10 = 19853 /\
  ISODate.Date_parse "2024-05-10" = Some 1715299200000 /\
  ISODate.Date_parse "1970-01-01T00:00:01.000Z" = Some 1000.
Proof. repeat split. Qed.

Section SortFacts.
Context {A : Type} (after : A -> A -> bool).

Lemma insert_by_perm (x : A) (l : list A) :
  Permutation (insert_by after x l) (x :: l).
Proof.
  induction l as [|y rest IH]; simpl; [reflexivity|].
  destruct (after x y); [|reflexivity].
  rewrite IH. apply perm_swap.
Qed.

(** Sorting rearranges, it neither drops nor adds. *)
Lemma sort_by_perm (l : list A) : Permutation (sort_by after l) l.
Proof.
  induction l as [|x rest IH]; simpl; [reflexivity|].
  rewrite insert_by_perm. by constructor.
Qed.

(** When [after] comes from a key ([after a b] iff the key of [b] is
    greater), the sorted list has its keys in descending order. *)
Variable key : A -> Z.
Hypothesis after_key : forall a b, after a b = true <-> key a < key b.

Lemma insert_by_sorted (x : A) (l : list A) :
  Sorted (fun a b => key b <= key a) l ->
  Sorted (fun a b => key b <= key a) (insert_by after x l).
Proof using after_key.
  induction l as [|y rest IH]; simpl; intros Hs.
  - repeat constructor.
  - destruct (after x y) eqn:E.
    + apply Sorted_inv in Hs as [Hs Hhd]. constructor; [by apply IH|].
      destruct rest as [|z rest']; simpl.
      * constructor. apply after_key in E. lia.
      * destruct (after x z); constructor.
        -- by inversion Hhd.
        -- apply after_key in E. lia.
    + constructor; [exact Hs|]. constructor.
      destruct (Z.lt_ge_cases (key x) (key y)) as [L|G]; [|exact G].
      apply after_key in L. congruence.
Qed.

Lemma sort_by_sorted (l : list A) :
  Sorted (fun a b => key b <= key a) (sort_by after l).
Proof using after_key.
  induction l as [|x rest IH]; simpl; [constructor|].
  by apply insert_by_sorted.
Qed.

End SortFacts.

Section NoticeFacts.
Variable Date_parse : string -> timeValue.
Variable timezoneOffset : Z.

(** The notices shown are a rearrangement of those the filter keeps. *)
Lemma activeNotices_perm (notices : list Notice) (now : Date) :
  Permutation
    (activeNotices Date_parse timezoneOffset notices now)
    (filter (fun n => notice_visible Date_parse timezoneOffset
                        (local_midnight (wall now)) n = true) notices).
Proof. apply sort_by_perm. Qed.

(** A notice without an expiry date is always kept. *)
Lemma notice_without_expiry_visible (today : Z) (n : Notice) :
  expiryDate n = None ->
  notice_visible Date_parse timezoneOffset today n = true.
Proof. unfold notice_visible. by intros ->. Qed.

(** What the filter decides for a date-only expiry, read by the host as
    midnight UTC of day [day]: east of Greenwich (and on it) the notice
    is kept while [day] is today or later; west of Greenwich the local
    reading of that instant falls on the day before, and the notice is
    kept only while [day] is strictly later than today. *)
Lemma notice_visible_date_only (now : Date) (n : Notice) (text : string) (day : Z) :
  expiryDate n = Some text -> text <> EmptyString ->
  Date_parse text = Some (day * MS_PER_DAY) ->
  -1440 < timezoneOffset < 1440 ->
  notice_visible Date_parse timezoneOffset (local_midnight (wall now)) n =
    (if 0 <? timezoneOffset then wall now / MS_PER_DAY <? day
     else wall now / MS_PER_DAY <=? day).
Proof.
  intros He Hne Hp Hz. unfold notice_visible. rewrite He.
  destruct text as [|c text']; [congruence|]. rewrite Hp.
  unfold local_midnight, to_wall, MS_PER_DAY, MS_PER_MINUTE in *.
  destruct (0 <? timezoneOffset) eqn:W.
  - apply Z.ltb_lt in W.
    assert (E : (day * 86400000 - timezoneOffset * 60000) / 86400000 = day - 1)
      by (Z.div_mod_to_equations; lia).
    rewrite E.
    destruct (wall now / 86400000 <? day) eqn:C.
    + apply Z.ltb_lt in C. apply Z.geb_le. lia.
    + apply Z.ltb_ge in C. rewrite Z.geb_leb. apply Z.leb_gt. lia.
  - apply Z.ltb_ge in W.
    assert (E : (day * 86400000 - timezoneOffset * 60000) / 86400000 = day)
      by (Z.div_mod_to_equations; lia).
    rewrite E.
    destruct (wall now / 86400000 <=? day) eqn:C.
    + apply Z.leb_le in C. apply Z.geb_le. lia.
    + apply Z.leb_gt in C. rewrite Z.geb_leb. apply Z.leb_gt. lia.
Qed.

(** When every creation date parses, the notices come out most recent
    first. *)
Lemma activeNotices_sorted (notices : list Notice) (now : Date) (stamp : Notice -> Z) :
  (forall n, Date_parse (date n) = Some (stamp n)) ->
  Sorted (fun a b => stamp b <= stamp a)
         (activeNotices Date_parse timezoneOffset notices now).
Proof.
  intros Hs. unfold activeNotices. apply sort_by_sorted.
  intros a b. unfold newer_first. rewrite !Hs. rewrite Z.gtb_ltb, Z.ltb_lt. lia.
Qed.

End NoticeFacts.

(** C7. In a browser five hours west of Greenwich
    ([getTimezoneOffset() = 300]), on the morning of 10 May 2024, a notice
    whose expiry date is 10 May 2024 is not among the active notices: the
    date-only string is read as midnight UTC, which is 19:00 of 9 May
    locally, so the expiry is truncated to 9 May and the notice is
    filtered out on the day it expires.  On Greenwich time the same
    notice is shown. *)
Theorem activeNotices_drops_notice_expiring_today :
  ISODate.parse_date_part "2024-05-10" = Some (wall morning_of_10_may / MS_PER_DAY) /\
  expiryDate notice_until_10_may = Some "2024-05-10" /\
  activeNotices ISODate.Date_parse 300 [notice_until_10_may] morning_of_10_may = [] /\
  activeNotices ISODate.Date_parse 0 [notice_until_10_may] morning_of_10_may
    = [notice_until_10_may].
Proof. repeat split; vm_compute; reflexivity. Qed.

(* ===================================================================== *)
(** * Properties of the storage functions *)
(* ===================================================================== *)

(** Unfolds the plumbing of a computation so that it can run. *)
Ltac run_m :=
  cbv beta iota zeta delta
    [bind try_catch ret throw fetch record_event console_warn console_error
     localStorage_getItem localStorage_setItem
     parse_or_throw get_prop set_prop fst snd localStorage trace].

Section StorageFacts.
Variable JSON_parse : string -> option json.
Variable JSON_stringify : json -> string.
Variable startedAt : string.

(** Back-filling an object or an array cannot fail. *)
Lemma backfill_links_obj (fields : list (string * json)) (w : World) :
  backfill_links (JObj fields) w = (Ok (with_links (JObj fields)), w).
Proof.
  unfold backfill_links. run_m. cbn [prop with_links].
  by destruct (truthy_opt (assoc "links" fields)).
Qed.

Lemma backfill_links_arr (items : list json) (w : World) :
  backfill_links (JArr items) w = (Ok (JArr items), w).
Proof. reflexivity. Qed.

(** On [null] and on the primitives it throws. *)
Lemma backfill_links_other (v : json) (w : World) :
  match v with JObj _ | JArr _ => False | _ => True end ->
  exists err, backfill_links v w = (Throw err, w).
Proof.
  destruct v; try contradiction; intros _; eexists; reflexivity.
Qed.

(** A payload with the required shape is an object. *)
Lemma required_shape_obj (data : json) :
  truthy data && truthy_opt (prop data "prayers") && truthy_opt (prop data "users") = true ->
  exists fields, data = JObj fields /\
    truthy_opt (assoc "prayers" fields) && truthy_opt (assoc "users" fields) = true.
Proof.
  destruct data; simpl; rewrite ?andb_false_r; try discriminate.
  intros H. eauto.
Qed.


(** The try block of [getCloudData] never lets an error out, and yields
    exactly the remote payload. *)
Lemma cloud_attempt (reply : FetchReply) (w : World) :
  exists w',
    try_catch
      (let! response := fetch "GET" None reply in
       if response_ok (fst response) then
         let! data := parse_or_throw JSON_parse (snd response) in
         if truthy data && truthy_opt (prop data "prayers")
            && truthy_opt (prop data "users")
         then
           let! data := backfill_links data in
           ret (Some data)
         else ret None
       else ret None)
      (fun err =>
         run! console_warn ("Cloud fetch failed, checking offline cache: " ++ err) in
         ret None) w
    = (Ok (remote_payload JSON_parse reply), w') /\
    localStorage w' = localStorage w.
Proof.
  destruct reply as [reason|status body].
  - eexists. split; reflexivity.
  - unfold remote_payload.
    unfold try_catch at 1. unfold bind at 1. unfold fetch.
    unfold bind at 1. unfold record_event at 1. unfold ret at 1.
    cbv beta iota. cbn [fst snd].
    destruct (response_ok status); [|eexists; split; reflexivity].
    unfold bind at 1. unfold parse_or_throw.
    destruct (JSON_parse body) as [data|]; [|eexists; split; reflexivity].
    unfold ret at 1. cbv beta iota.
    destruct (truthy data && truthy_opt (prop data "prayers")
              && truthy_opt (prop data "users")) eqn:Shape.
    + destruct (required_shape_obj _ Shape) as (fields & -> & Hf).
      rewrite Hf. unfold bind. rewrite backfill_links_obj.
      eexists. split; reflexivity.
    + assert (Hnone : match data with
                      | JObj fields =>
                          if truthy_opt (assoc "prayers" fields)
                             && truthy_opt (assoc "users" fields)
                          then Some (with_links (JObj fields)) else None
                      | _ => None
                      end = None).
      { destruct data; try reflexivity. simpl in Shape. by rewrite Shape. }
      rewrite Hnone. eexists. split; reflexivity.
Qed.

(** The cache fallback never lets an error out either, and yields the
    cached state. *)
Lemma cache_attempt (cached : option string) (w : World) :
  exists w',
    match cached with
    | None => ret None
    | Some EmptyString => ret None
    | Some cached =>
        try_catch
          (let! parsed := parse_or_throw JSON_parse cached in
           let! parsed := backfill_links parsed in
           ret (Some parsed))
          (fun _ =>
             run! console_warn "Corrupt local cache, resetting." in
             ret None)
    end w
    = (Ok (cached_state JSON_parse cached), w') /\
    localStorage w' = localStorage w.
Proof.
  destruct cached as [text|]; [|eexists; split; reflexivity].
  destruct text as [|c text]; [eexists; split; reflexivity|].
  unfold cached_state.
  set (t := String c text).
  unfold try_catch, bind at 1, parse_or_throw.
  destruct (JSON_parse t) as [parsed|]; [|eexists; split; reflexivity].
  unfold ret at 1. cbv beta iota.
  destruct parsed; try (eexists; split; reflexivity).
  unfold bind. rewrite backfill_links_obj. eexists. split; reflexivity.
Qed.

End StorageFacts.

Lemma assoc_assign_eq (k : string) (x : json) (fields : list (string * json)) :
  assoc k (assign k x fields) = Some x.
Proof.
  induction fields as [|[k' v'] rest IH]; simpl.
  - by rewrite String.eqb_refl.
  - destruct (String.eqb k' k) eqn:E; simpl; rewrite ?String.eqb_refl, ?E; auto.
Qed.

Lemma assoc_assign_ne (k k' : string) (x : json) (fields : list (string * json)) :
  k <> k' -> assoc k' (assign k x fields) = assoc k' fields.
Proof.
  intros Hne. induction fields as [|[k0 v0] rest IH]; simpl.
  - destruct (String.eqb k k') eqn:E; [apply String.eqb_eq in E; congruence | reflexivity].
  - destruct (String.eqb k0 k) eqn:E; simpl.
    + apply String.eqb_eq in E. subst k0.
      destruct (String.eqb k k') eqn:E'; [apply String.eqb_eq in E'; congruence | reflexivity].
    + by rewrite IH.
Qed.

(** A back-filled object with [prayers] and [users] is usable. *)
Lemma usable_with_links (fields : list (string * json)) :
  truthy_opt (assoc "prayers" fields) && truthy_opt (assoc "users" fields) = true ->
  usable (with_links (JObj fields)) = true.
Proof.
  intros H. unfold usable, with_links.
  destruct (truthy_opt (assoc "links" fields)) eqn:L; cbn [prop].
  - by rewrite H, L.
  - rewrite assoc_assign_eq, !assoc_assign_ne by discriminate. by rewrite H.
Qed.

Lemma usable_INITIAL_DATA (startedAt : string) :
  usable (AppData_json (INITIAL_DATA startedAt)) = true.
Proof. reflexivity. Qed.

(** The run-time form of every typed state is usable. *)
Lemma usable_AppData (s : AppData) :
  usable (AppData_json s) = true.
Proof. reflexivity. Qed.

(** What a reply provides is usable. *)
Lemma remote_payload_usable (JSON_parse : string -> option json)
    (reply : FetchReply) (data : json) :
  remote_payload JSON_parse reply = Some data -> usable data = true.
Proof.
  destruct reply as [|status body]; [discriminate|]. simpl.
  destruct (response_ok status); [|discriminate].
  destruct (JSON_parse body) as [[| | | | |fields]|]; try discriminate.
  destruct (truthy_opt (assoc "prayers" fields) && truthy_opt (assoc "users" fields))
    eqn:Shape; [|discriminate].
  intros [= <-]. by apply usable_with_links.
Qed.

(** [getCloudData] never throws; its value and the cache afterwards. *)
Lemma getCloudData_run
    (JSON_parse : string -> option json) (JSON_stringify : json -> string)
    (startedAt : string) (reply : FetchReply) (w : World) :
  exists v w',
    getCloudData JSON_parse JSON_stringify startedAt reply w = (Ok v, w') /\
    match remote_payload JSON_parse reply with
    | Some data =>
        v = data /\
        localStorage w' = <[OFFLINE_KEY := JSON_stringify data]> (localStorage w)
    | None =>
        localStorage w' = localStorage w /\
        v = default (AppData_json (INITIAL_DATA startedAt))
                    (cached_state JSON_parse (localStorage w !! OFFLINE_KEY))
    end.
Proof.
  unfold getCloudData. unfold bind at 1.
  destruct (cloud_attempt JSON_parse reply w) as (w1 & -> & Hls1).
  destruct (remote_payload JSON_parse reply) as [data|].
  - eexists. eexists. split; [reflexivity|]. split; [reflexivity|].
    cbn [localStorage]. by rewrite Hls1.
  - unfold bind at 1. unfold localStorage_getItem at 1. cbv beta iota.
    unfold bind at 1.
    destruct (cache_attempt JSON_parse (localStorage w1 !! OFFLINE_KEY) w1)
      as (w2 & -> & Hls2).
    rewrite Hls1.
    destruct (cached_state JSON_parse (localStorage w !! OFFLINE_KEY)) as [st|];
      eexists; eexists; (split; [reflexivity|]); (split; [congruence | reflexivity]).
Qed.

(** C2. [getCloudData] always resolves with a value and never throws.
    When the remote fetch succeeds with a payload that has [prayers] and
    [users], the value is that payload with a missing [links] back-filled
    by the empty list, and it is written to the local cache.  On a network
    failure, a status that is not OK, a body that is not JSON or a payload
    without the required fields, the cache is left as it is and the value
    is the cached state, back-filled the same way; when there is no cache
    that can be read, the value is the built-in default state. *)
Theorem getCloudData_always_returns
    (JSON_parse : string -> option json) (JSON_stringify : json -> string)
    (startedAt : string) (reply : FetchReply) (w : World) :
  (exists v w',
     getCloudData JSON_parse JSON_stringify startedAt reply w = (Ok v, w') /\
     match remote_payload JSON_parse reply with
     | Some data =>
         v = data /\
         localStorage w' = <[OFFLINE_KEY := JSON_stringify data]> (localStorage w)
     | None =>
         localStorage w' = localStorage w /\
         v = default (AppData_json (INITIAL_DATA startedAt))
                     (cached_state JSON_parse (localStorage w !! OFFLINE_KEY))
     end /\
     (* usable, as long as the cache holds nothing but usable states *)
     (cache_usable JSON_parse w -> usable v = true)) /\
  (* the replies that provide a state, and those that do not *)
  (forall status body fields,
     reply = Response status body -> response_ok status = true ->
     JSON_parse body = Some (JObj fields) ->
     truthy_opt (assoc "prayers" fields) = true ->
     truthy_opt (assoc "users" fields) = true ->
     remote_payload JSON_parse reply = Some (with_links (JObj fields))) /\
  (forall reason, reply = NetworkError reason -> remote_payload JSON_parse reply = None) /\
  (forall status body,
     reply = Response status body -> response_ok status = false ->
     remote_payload JSON_parse reply = None) /\
  (forall status body,
     reply = Response status body -> JSON_parse body = None ->
     remote_payload JSON_parse reply = None) /\
  (forall status body data,
     reply = Response status body -> JSON_parse body = Some data ->
     truthy data && truthy_opt (prop data "prayers") && truthy_opt (prop data "users")
       = false ->
     remote_payload JSON_parse reply = None) /\
  (* no cache that can be read: none, or text that is not JSON *)
  (localStorage w !! OFFLINE_KEY = None ->
   cached_state JSON_parse (localStorage w !! OFFLINE_KEY) = None) /\
  (forall text, localStorage w !! OFFLINE_KEY = Some text -> JSON_parse text = None ->
   cached_state JSON_parse (localStorage w !! OFFLINE_KEY) = None).
Proof.
  split; [|repeat split].
  - destruct (getCloudData_run JSON_parse JSON_stringify startedAt reply w)
      as (v & w' & Hrun & Hspec).
    exists v, w'. split; [exact Hrun|]. split; [exact Hspec|].
    intros Hcache.
    destruct (remote_payload JSON_parse reply) as [data|] eqn:Hremote.
    + destruct Hspec as [-> _]. by apply (remote_payload_usable JSON_parse reply).
    + destruct Hspec as [_ ->].
      destruct (cached_state JSON_parse (localStorage w !! OFFLINE_KEY)) as [c|] eqn:Hc.
      * by apply Hcache.
      * apply usable_INITIAL_DATA.
  - intros status body fields -> Hok Hp Hpr Hus. simpl.
    by rewrite Hok, Hp, Hpr, Hus.
  - by intros reason ->.
  - intros status body -> Hok. simpl. by rewrite Hok.
  - intros status body -> Hp. simpl. rewrite Hp. by destruct (response_ok status).
  - intros status body data -> Hp Hshape. simpl. rewrite Hp.
    destruct (response_ok status); [|reflexivity].
    destruct data; try reflexivity. simpl in Hshape. by rewrite Hshape.
  - by intros ->.
  - intros text -> Hp. simpl. rewrite Hp. by destruct text.
Qed.

(** What [syncToCloud] does, whatever the reply. *)
Lemma syncToCloud_run
    (JSON_stringify : json -> string) (now : string) (reply : FetchReply)
    (data : json) (w : World) :
  let text := JSON_stringify (stamp data now) in
  syncToCloud JSON_stringify now reply data w =
    (Ok tt,
     mkWorld (<[OFFLINE_KEY := text]> (localStorage w))
             (trace w ++ [EvSetItem OFFLINE_KEY text] ++ [EvFetch "POST" (Some text)]
                ++ sync_report reply)).
Proof.
  cbv zeta. unfold syncToCloud, sync_report. run_m.
  destruct reply as [reason|status body]; cbv beta iota.
  - by rewrite <- !app_assoc.
  - destruct (response_ok status); cbn [negb].
    + by rewrite app_nil_r, <- !app_assoc.
    + destruct (status =? 404); by rewrite <- !app_assoc.
Qed.

(** C10. The promise of [syncToCloud] always resolves.  A network error,
    a 404 and any other status that is not OK end in a line on the console
    (for the last, the error thrown inside the function's own [try] is
    caught by its [catch]) and nothing reaches the caller; the local cache
    holds the stamped state in every case. *)
Theorem syncToCloud_always_resolves
    (JSON_stringify : json -> string) (now : string) (reply : FetchReply)
    (data : json) (w : World) :
  exists w',
    syncToCloud JSON_stringify now reply data w = (Ok tt, w') /\
    localStorage w' !! OFFLINE_KEY = Some (JSON_stringify (stamp data now)) /\
    trace w' =
      trace w
      ++ [EvSetItem OFFLINE_KEY (JSON_stringify (stamp data now));
          EvFetch "POST" (Some (JSON_stringify (stamp data now)))]
      ++ match reply with
         | NetworkError reason => [EvError ("Non-critical Sync Error: " ++ reason)]
         | Response status _ =>
             if response_ok status then []
             else if status =? 404
             then [EvWarn "Cloud sync skipped (Bucket 404). Data saved locally."]
             else [EvError ("Non-critical Sync Error: " ++
                            ("Sync failed with status: " ++ toString (Some status)))]
         end.
Proof.
  eexists. split; [apply syncToCloud_run|]. cbn [localStorage trace].
  split; [apply lookup_insert_eq | reflexivity].
Qed.

(** Stamping the run-time form of a state is the run-time form of the
    stamped state. *)
Lemma stamp_AppData (s : AppData) (now : string) :
  stamp (AppData_json s) now = AppData_json (with_lastUpdated s now).
Proof. reflexivity. Qed.

(** The run-time form of a state has a [links] array: nothing to back-fill. *)
Lemma with_links_AppData (s : AppData) :
  with_links (AppData_json s) = AppData_json s.
Proof. reflexivity. Qed.

(** C3. [syncToCloud] stamps [lastUpdated] with the current instant and
    writes the stamped state to the local cache before it sends the
    request.  When the following [getCloudData] finds the remote store
    unavailable, it returns the stamped state, read back from the cache. *)
Theorem save_then_load_roundtrip
    (JSON_parse : string -> option json) (JSON_stringify : json -> string)
    (startedAt : string)
    (parse_stringify : forall v, JSON_parse (JSON_stringify v) = Some v)
    (parse_empty : JSON_parse EmptyString = None)
    (s : AppData) (now : string) (reply_save reply_load : FetchReply) (w : World) :
  unavailable reply_load = true ->
  let saved := AppData_json (with_lastUpdated s now) in
  exists w1 w2 later_events,
    syncToCloud JSON_stringify now reply_save (AppData_json s) w = (Ok tt, w1) /\
    localStorage w1 !! OFFLINE_KEY = Some (JSON_stringify saved) /\
    trace w1 =
      trace w ++ EvSetItem OFFLINE_KEY (JSON_stringify saved)
              :: EvFetch "POST" (Some (JSON_stringify saved)) :: later_events /\
    getCloudData JSON_parse JSON_stringify startedAt reply_load w1 = (Ok saved, w2).
Proof.
  intros Hdown saved.
  destruct (getCloudData_run JSON_parse JSON_stringify startedAt reply_load
              (mkWorld (<[OFFLINE_KEY := JSON_stringify saved]> (localStorage w))
                       (trace w ++ [EvSetItem OFFLINE_KEY (JSON_stringify saved)]
                          ++ [EvFetch "POST" (Some (JSON_stringify saved))]
                          ++ sync_report reply_save)))
    as (v & w2 & Hload & Hspec).
  assert (Hnone : remote_payload JSON_parse reply_load = None).
  { destruct reply_load as [|status body]; [reflexivity|]. simpl in *.
    by destruct (response_ok status). }
  rewrite Hnone in Hspec. destruct Hspec as [_ Hv].
  cbn [localStorage] in Hv. rewrite lookup_insert_eq in Hv.
  assert (Hcache : cached_state JSON_parse (Some (JSON_stringify saved)) = Some saved).
  { unfold cached_state.
    destruct (JSON_stringify saved) as [|c t] eqn:E.
    - specialize (parse_stringify saved). rewrite E in parse_stringify. congruence.
    - rewrite <- E, parse_stringify. reflexivity. }
  rewrite Hcache in Hv. simpl in Hv. subst v.
  eexists. exists w2. exists (sync_report reply_save).
  split; [apply syncToCloud_run|]. rewrite stamp_AppData. fold saved.
  cbn [localStorage trace].
  split; [apply lookup_insert_eq|]. split; [reflexivity|]. exact Hload.
Qed.

(** ** The cache invariant

    With a JSON reader that reads back what the writer writes, the cache
    never comes to hold anything but usable states: [getCloudData] writes
    only validated payloads, and [syncToCloud] of a usable state writes a
    usable state. *)
Section CacheInvariant.
Variable JSON_parse : string -> option json.
Variable JSON_stringify : json -> string.
Variable startedAt : string.
Hypothesis parse_stringify : forall v, JSON_parse (JSON_stringify v) = Some v.
Hypothesis parse_empty : JSON_parse EmptyString = None.

Lemma cached_state_written (v : json) :
  cached_state JSON_parse (Some (JSON_stringify v)) =
    match v with
    | JObj fields => Some (with_links v)
    | JArr items => Some v
    | _ => None
    end.
Proof using parse_stringify parse_empty.
  unfold cached_state.
  destruct (JSON_stringify v) as [|c t] eqn:E.
  - specialize (parse_stringify v). rewrite E in parse_stringify. congruence.
  - rewrite <- E, parse_stringify. by destruct v.
Qed.

Lemma usable_is_object (v : json) : usable v = true -> exists fields, v = JObj fields.
Proof. destruct v; try discriminate. eauto. Qed.

Lemma with_links_usable (v : json) : usable v = true -> with_links v = v.
Proof.
  intros H. destruct (usable_is_object v H) as [fields ->].
  unfold usable in H. cbn [prop] in H. unfold with_links.
  apply andb_prop in H as [_ ->]. reflexivity.
Qed.

Lemma cached_state_usable (v : json) :
  usable v = true -> cached_state JSON_parse (Some (JSON_stringify v)) = Some v.
Proof using parse_stringify parse_empty.
  intros Hu. rewrite cached_state_written.
  destruct (usable_is_object v Hu) as [fields E].
  rewrite <- (with_links_usable v Hu) at 2. by rewrite E.
Qed.

Lemma getCloudData_keeps_cache_usable (reply : FetchReply) (w w' : World) (v : json) :
  getCloudData JSON_parse JSON_stringify startedAt reply w = (Ok v, w') ->
  cache_usable JSON_parse w -> cache_usable JSON_parse w'.
Proof using parse_stringify parse_empty.
  intros Hrun Hcache.
  destruct (getCloudData_run JSON_parse JSON_stringify startedAt reply w)
    as (v0 & w0 & Hrun0 & Hspec).
  rewrite Hrun in Hrun0. injection Hrun0 as <- <-.
  destruct (remote_payload JSON_parse reply) as [data|] eqn:Hremote.
  - destruct Hspec as [-> Hls]. unfold cache_usable. rewrite Hls, lookup_insert_eq.
    pose proof (remote_payload_usable _ _ _ Hremote) as Hu.
    rewrite (cached_state_usable _ Hu). by intros c [= <-].
  - destruct Hspec as [Hls _]. unfold cache_usable. by rewrite Hls.
Qed.

Lemma stamp_usable (data : json) (now : string) :
  usable data = true -> usable (stamp data now) = true.
Proof.
  intros H. destruct (usable_is_object _ H) as [fields ->].
  unfold usable, stamp in *. cbn [prop spread] in *.
  by rewrite !assoc_assign_ne by discriminate.
Qed.

Lemma syncToCloud_keeps_cache_usable
    (now : string) (reply : FetchReply) (data : json) (w w' : World) :
  syncToCloud JSON_stringify now reply data w = (Ok tt, w') ->
  usable data = true -> cache_usable JSON_parse w'.
Proof using parse_stringify parse_empty.
  rewrite syncToCloud_run. intros [= <-] Hu.
  unfold cache_usable. cbn [localStorage]. rewrite lookup_insert_eq.
  pose proof (stamp_usable data now Hu) as Hs.
  rewrite (cached_state_usable _ Hs). by intros c [= <-].
Qed.

End CacheInvariant.

(* ===================================================================== *)
(** * The reader reads back what the writer writes *)
(* ===================================================================== *)

Module CodecFacts.
Import Codec.

#[local] Arguments String.append !_ _ / : simpl nomatch.

(** Induction on values that reaches inside arrays and objects. *)
Lemma json_nested_ind (P : json -> Prop) :
  P JNull ->
  (forall b, P (JBool b)) ->
  (forall z, P (JNum z)) ->
  (forall s, P (JStr s)) ->
  (forall items, Forall P items -> P (JArr items)) ->
  (forall fields, Forall (fun kx => P (snd kx)) fields -> P (JObj fields)) ->
  forall v, P v.
Proof.
  intros Hnull Hbool Hnum Hstr Harr Hobj.
  fix IH 1. intros [| b | z | s | items | fields].
  - exact Hnull.
  - apply Hbool.
  - apply Hnum.
  - apply Hstr.
  - apply Harr. induction items as [|x rest IHrest]; constructor; [apply IH | exact IHrest].
  - apply Hobj. induction fields as [|[k x] rest IHrest]; constructor;
      [apply IH | exact IHrest].
Qed.

Lemma append_assoc (a b c : string) : ((a ++ b) ++ c = a ++ (b ++ c))%string.
Proof. induction a as [|x a IH]; simpl; [reflexivity | by rewrite IH]. Qed.

Lemma length_append (a b : string) :
  String.length (a ++ b)%string = (String.length a + String.length b)%nat.
Proof. induction a as [|x a IH]; simpl; [reflexivity | by rewrite IH]. Qed.

(** ** Strings *)

Lemma read_string_escape (s rest : string) :
  read_string (escape s ++ String quote rest)%string = Some (s, rest).
Proof.
  induction s as [|c s IH]; simpl.
  - reflexivity.
  - destruct (Ascii.eqb c quote) eqn:Q; simpl.
    + rewrite IH. reflexivity.
    + destruct (Ascii.eqb c backslash) eqn:B; simpl.
      * rewrite IH. reflexivity.
      * rewrite Q, B, IH. reflexivity.
Qed.

Lemma read_written_string (s rest : string) :
  exists t, (write_string s ++ rest)%string = String quote t /\
            read_string t = Some (s, rest).
Proof.
  exists ((escape s ++ String quote EmptyString) ++ rest)%string.
  split; [reflexivity|].
  rewrite append_assoc. apply read_string_escape.
Qed.

(** ** Numbers *)

Lemma uint_chars (d : Decimal.uint) (rest : string) :
  follows rest ->
  span_number (DecimalString.NilEmpty.string_of_uint d ++ rest)%string =
    (DecimalString.NilEmpty.string_of_uint d, rest).
Proof.
  intros Hf. induction d; simpl; try (rewrite IHd; reflexivity).
  destruct rest as [|c r]; simpl in *; [reflexivity | by rewrite Hf].
Qed.

Lemma span_written_number (z : Z) (rest : string) :
  follows rest ->
  span_number (write_number z ++ rest)%string = (write_number z, rest).
Proof.
  intros Hf. unfold write_number.
  destruct (Z.to_int z) as [d|d]; simpl.
  - destruct d; try apply (uint_chars _ _ Hf).
    simpl. destruct rest as [|c r]; simpl in *; [reflexivity | by rewrite Hf].
  - destruct d; simpl; try (rewrite (uint_chars _ _ Hf); reflexivity).
    destruct rest as [|c r]; simpl in *; [reflexivity | by rewrite Hf].
Qed.

Lemma to_int_proper (z : Z) :
  Z.to_int z <> Decimal.Pos Decimal.Nil /\ Z.to_int z <> Decimal.Neg Decimal.Nil.
Proof.
  destruct z as [|p|p]; simpl; split; try discriminate.
  - intros [= H]. by apply (DecimalPos.Unsigned.to_uint_nonnil p).
  - intros [= H]. by apply (DecimalPos.Unsigned.to_uint_nonnil p).
Qed.

Lemma read_written_number (z : Z) (rest : string) :
  follows rest ->
  read_number (write_number z ++ rest)%string = Some (z, rest).
Proof.
  intros Hf. unfold read_number. rewrite (span_written_number _ _ Hf).
  unfold write_number.
  destruct (to_int_proper z) as [Hp Hn].
  rewrite (DecimalString.NilZero.isi _ Hp Hn), DecimalZ.of_to. reflexivity.
Qed.

(** A written number starts with a sign or a digit. *)
Lemma written_number_head (z : Z) :
  exists c t, write_number z = String c t /\ is_number_char c = true.
Proof.
  unfold write_number. destruct (Z.to_int z) as [d|d]; simpl.
  - destruct d; simpl; eexists; eexists; (split; [reflexivity|reflexivity]).
  - eexists; eexists; (split; [reflexivity|reflexivity]).
Qed.

(** The first character of a number sends the reader to [read_number]. *)
Lemma read_value_number (fuel : nat) (c : ascii) (t : string) :
  is_number_char c = true ->
  read_value (S fuel) (String c t) =
    match read_number (String c t) with
    | Some (z, after) => Some (JNum z, after)
    | None => None
    end.
Proof.
  intros H.
  destruct c as [[] [] [] [] [] [] [] []]; try discriminate H; reflexivity.
Qed.


(** ** Arrays and objects *)

Lemma write_arr_cons (x : json) (rest : list json) :
  write (JArr (x :: rest)) = String "[" (write x ++ write_items rest)%string.
Proof. reflexivity. Qed.

Lemma write_obj_cons (k : string) (x : json) (rest : list (string * json)) :
  write (JObj ((k, x) :: rest)) =
    String "{" (write_string k ++ String ":" (write x ++ write_fields rest))%string.
Proof. reflexivity. Qed.

(** What a written value starts with: never a closing bracket. *)
Lemma write_head (v : json) :
  exists c t, write v = String c t /\
              Ascii.eqb c "]" = false /\ Ascii.eqb c "}" = false.
Proof.
  destruct v as [| [] | z | s | [|x r] | [|[k x] r]];
    try (eexists; eexists; split; [reflexivity | split; reflexivity]).
  destruct (written_number_head z) as (c & t & E & Hc).
  exists c, t. split; [exact E|].
  destruct c as [[] [] [] [] [] [] [] []]; try discriminate Hc; split; reflexivity.
Qed.

Lemma follows_items (l : list json) (rest : string) :
  follows (write_items l ++ rest)%string.
Proof. destruct l; reflexivity. Qed.

Lemma follows_fields (l : list (string * json)) (rest : string) :
  follows (write_fields l ++ rest)%string.
Proof. destruct l as [|[k x] l]; reflexivity. Qed.

Lemma read_written_items (items : list json) :
  Forall reads_back items ->
  forall fuel rest,
    (list_sum (List.map (fun x => S (size x)) items) + 1 <= fuel)%nat ->
    read_items fuel (write_items items ++ rest)%string = Some (items, rest).
Proof.
  induction 1 as [|y items Hy _ IH]; intros fuel rest Hfuel.
  - destruct fuel as [|fuel]; [simpl in Hfuel; lia | reflexivity].
  - destruct fuel as [|fuel]; [simpl in Hfuel; lia|].
    simpl in Hfuel.
    change (write_items (y :: items) ++ rest)%string
      with (String "," ((write y ++ write_items items) ++ rest))%string.
    rewrite append_assoc.
    cbn [read_items Ascii.eqb Bool.eqb].
    rewrite (Hy fuel _ ltac:(lia) (follows_items _ _)).
    rewrite (IH fuel rest ltac:(lia)). reflexivity.
Qed.

Lemma read_written_entry (fuel : nat) (k : string) (x : json) (rest : string) :
  reads_back x -> (size x <= fuel)%nat -> follows rest ->
  read_entry (read_value fuel)
             (write_string k ++ String ":" (write x ++ rest))%string
    = Some ((k, x), rest).
Proof.
  intros Hx Hfuel Hf.
  destruct (read_written_string k (String ":" (write x ++ rest))) as (t & -> & Ht).
  unfold read_entry.
  assert (Q : Ascii.eqb quote quote = true) by reflexivity.
  rewrite Q, Ht.
  assert (C : Ascii.eqb ":" ":" = true) by reflexivity.
  rewrite C, (Hx fuel rest Hfuel Hf). reflexivity.
Qed.

Lemma read_written_fields (fields : list (string * json)) :
  Forall (fun kx => reads_back (snd kx)) fields ->
  forall fuel rest,
    (list_sum (List.map (fun kx => S (size (snd kx))) fields) + 1 <= fuel)%nat ->
    read_fields fuel (write_fields fields ++ rest)%string = Some (fields, rest).
Proof.
  induction 1 as [|[k y] fields Hy _ IH]; intros fuel rest Hfuel.
  - destruct fuel as [|fuel]; [simpl in Hfuel; lia | reflexivity].
  - destruct fuel as [|fuel]; [simpl in Hfuel; lia|].
    simpl in Hfuel, Hy.
    change (write_fields ((k, y) :: fields) ++ rest)%string
      with (String "," ((write_string k ++ String ":" (write y ++ write_fields fields))
                          ++ rest))%string.
    rewrite append_assoc.
    change (String ":" (write y ++ write_fields fields) ++ rest)%string
      with (String ":" ((write y ++ write_fields fields) ++ rest))%string.
    rewrite append_assoc.
    cbn [read_fields Ascii.eqb Bool.eqb].
    rewrite (read_written_entry fuel k y _ Hy ltac:(lia) (follows_fields _ _)).
    rewrite (IH fuel rest ltac:(lia)). reflexivity.
Qed.

(** Every value is read back. *)
Lemma read_written_value (v : json) : reads_back v.
Proof.
  induction v as [| b | z | s | items IH | fields IH] using json_nested_ind;
    intros fuel rest Hfuel Hf;
    (destruct fuel as [|fuel]; [simpl in Hfuel; lia|]).
  - reflexivity.
  - destruct b; reflexivity.
  - destruct (written_number_head z) as (c & t & E & Hc).
    change (write (JNum z)) with (write_number z).
    pose proof (read_written_number z rest Hf) as R.
    rewrite E in *. change (String c t ++ rest)%string with (String c (t ++ rest))%string in *.
    rewrite (read_value_number fuel c _ Hc), R. reflexivity.
  - destruct (read_written_string s rest) as (t & E & Ht).
    change (write (JStr s)) with (write_string s). rewrite E.
    cbn [read_value]. 
    assert (Q : Ascii.eqb quote quote = true) by reflexivity.
    change (Ascii.eqb quote "n") with false. change (Ascii.eqb quote "t") with false.
    change (Ascii.eqb quote "f") with false. cbv iota. rewrite Q, Ht. reflexivity.
  - destruct items as [|x items]; [reflexivity|].
    apply Forall_cons_1 in IH as [Hx Hitems].
    rewrite write_arr_cons. simpl in Hfuel.
    change (String "[" (write x ++ write_items items) ++ rest)%string
      with (String "[" ((write x ++ write_items items) ++ rest))%string.
    rewrite append_assoc.
    destruct (write_head x) as (c & t & E & Hc1 & Hc2).
    pose proof (Hx fuel (write_items items ++ rest)%string ltac:(lia)
                  (follows_items _ _)) as Rx.
    rewrite E in *.
    change (String c t ++ write_items items ++ rest)%string
      with (String c (t ++ write_items items ++ rest))%string in *.
    cbn [read_value Ascii.eqb Bool.eqb]. rewrite Hc1, Rx.
    rewrite (read_written_items items Hitems fuel rest ltac:(lia)). reflexivity.
  - destruct fields as [|[k x] fields]; [reflexivity|].
    apply Forall_cons_1 in IH as [Hx Hfields]. simpl in Hx.
    rewrite write_obj_cons. simpl in Hfuel.
    change (String "{" (write_string k ++ String ":" (write x ++ write_fields fields))
              ++ rest)%string
      with (String "{" ((write_string k ++ String ":" (write x ++ write_fields fields))
                          ++ rest))%string.
    rewrite append_assoc.
    change (String ":" (write x ++ write_fields fields) ++ rest)%string
      with (String ":" ((write x ++ write_fields fields) ++ rest))%string.
    rewrite append_assoc.
    pose proof (read_written_entry fuel k x (write_fields fields ++ rest)%string
                  Hx ltac:(lia) (follows_fields _ _)) as Re.
    destruct (read_written_string k
                (String ":" (write x ++ write_fields fields ++ rest))) as (t & E & _).
    rewrite E in *.
    cbn [read_value Ascii.eqb Bool.eqb].
    change (Ascii.eqb quote "}") with false. cbv iota.
    rewrite Re.
    rewrite (read_written_fields fields Hfields fuel rest ltac:(lia)). reflexivity.
Qed.


(** ** Fuel: a value costs no more calls than its text has characters *)

Lemma append_nil_r (a : string) : (a ++ EmptyString)%string = a.
Proof. induction a as [|x a IH]; simpl; [reflexivity | by rewrite IH]. Qed.

Lemma items_length (items : list json) :
  Forall (fun y => (size y <= String.length (write y))%nat) items ->
  (list_sum (List.map (fun x => S (size x)) items) + 1
   <= String.length (write_items items))%nat.
Proof.
  induction 1 as [|y items Hy _ IH]; simpl; [lia|].
  rewrite length_append. lia.
Qed.

Lemma fields_length (fields : list (string * json)) :
  Forall (fun kx => (size (snd kx) <= String.length (write (snd kx)))%nat) fields ->
  (list_sum (List.map (fun kx => S (size (snd kx))) fields) + 1
   <= String.length (write_fields fields))%nat.
Proof.
  induction 1 as [|[k y] fields Hy _ IH]; [simpl; lia|].
  cbn [write_fields list_sum List.map snd String.length] in *.
  rewrite length_append. cbn [String.length]. rewrite length_append.
  unfold list_sum in *. cbn [fold_right] in *. lia.
Qed.

Lemma size_le_length (v : json) : (size v <= String.length (write v))%nat.
Proof.
  induction v as [| b | z | s | items IH | fields IH] using json_nested_ind.
  - simpl. lia.
  - destruct b; simpl; lia.
  - destruct (written_number_head z) as (c & t & E & _).
    change (write (JNum z)) with (write_number z). rewrite E. simpl. lia.
  - simpl. lia.
  - destruct items as [|x items]; [simpl; lia|].
    apply Forall_cons_1 in IH as [Hx Hitems].
    rewrite write_arr_cons.
    change (size (JArr (x :: items)))
      with (S (S (size x) + list_sum (List.map (fun x => S (size x)) items))).
    cbn [String.length]. rewrite length_append.
    pose proof (items_length items Hitems). lia.
  - destruct fields as [|[k x] fields]; [simpl; lia|].
    apply Forall_cons_1 in IH as [Hx Hfields]. simpl in Hx.
    rewrite write_obj_cons.
    change (size (JObj ((k, x) :: fields)))
      with (S (S (size x) + list_sum (List.map (fun kx => S (size (snd kx))) fields))).
    cbn [String.length]. rewrite length_append. cbn [String.length].
    rewrite length_append.
    pose proof (fields_length fields Hfields). lia.
Qed.

(** Reading what was written gives the value back. *)
Lemma parse_stringify (v : json) : parse (stringify v) = Some v.
Proof.
  unfold parse, stringify.
  pose proof (read_written_value v (S (String.length (write v))) EmptyString) as R.
  rewrite append_nil_r in R. rewrite R; [reflexivity | | exact I].
  pose proof (size_le_length v). lia.
Qed.

(** The empty text is not JSON. *)
Lemma parse_empty : parse EmptyString = None.
Proof. reflexivity. Qed.

End CodecFacts.

(* ===================================================================== *)
(** * Properties of the login *)
(* ===================================================================== *)

Section AuthFacts.
Variable JSON_parse : string -> option json.
Variable JSON_stringify : json -> string.
Variable startedAt : string.
Variable toLowerCase : string -> string.
Variable trim : string -> string.

Implicit Types (u : User) (users : list User) (w : World).

(** On the run-time form of a user the callback of [find] does not throw
    and computes [matches]. *)
Lemma credentials_match_User (e p : string) u w :
  credentials_match toLowerCase trim e p (User_json u) w
    = (Ok (matches toLowerCase trim e p u), w).
Proof.
  unfold credentials_match, matches. run_m.
  destruct u as [uid mail [pw|] r en]; reflexivity.
Qed.

(** [find] over the stored users is [List.find] over the typed ones. *)
Lemma find_first_users (e p : string) users w :
  find_first (credentials_match toLowerCase trim e p) (List.map User_json users) w
    = (Ok (option_map User_json
             (List.find (matches toLowerCase trim e p) users)), w).
Proof.
  induction users as [|u users IH]; [reflexivity|].
  cbn [List.map find_first List.find]. unfold bind.
  rewrite credentials_match_User.
  destruct (matches toLowerCase trim e p u); [reflexivity | exact IH].
Qed.

(** The user object of a session: the stored user less the password. *)
Lemma session_user_json u :
  JObj (delete_key "password" (spread (User_json u))) = User_json (without_password u).
Proof. destruct u as [uid mail [pw|] r en]; reflexivity. Qed.

Lemma enabled_json u : truthy_opt (prop (User_json u) "enabled") = enabled u.
Proof. destruct u as [uid mail [pw|] r en]; reflexivity. Qed.

(** [authenticate_with] on data whose [users] are typed users. *)
Lemma authenticate_with_run (data : json) users (now : Z) (e p : string) w :
  prop data "users" = Some (JArr (List.map User_json users)) ->
  authenticate_with JSON_stringify toLowerCase trim data now e p w =
    match login_spec toLowerCase trim users e p with
    | Some u' =>
        let text := JSON_stringify (session_json (User_json u') now) in
        (Ok (User_json u'),
         mkWorld (<[SESSION_TOKEN := text]> (localStorage w))
                 (trace w ++ [EvSetItem SESSION_TOKEN text]))
    | None => (Ok JNull, w)
    end.
Proof.
  intros Husers. unfold authenticate_with, login_spec.
  unfold bind at 1.
  assert (Hget : get_prop data "users" w
                 = (Ok (Some (JArr (List.map User_json users))), w)).
  { destruct data; try discriminate Husers. unfold get_prop, ret. by rewrite Husers. }
  rewrite Hget. unfold bind at 1. rewrite find_first_users.
  destruct (List.find (matches toLowerCase trim e p) users) as [u|]; [|reflexivity].
  cbn [option_map]. rewrite session_user_json, enabled_json.
  change (truthy (User_json u)) with true. cbn [andb].
  destruct (enabled u); reflexivity.
Qed.

(** The ways an attempt can fail all end in [login_spec = None]. *)
Lemma unknown_email_fails users (e p : string) :
  (forall u, In u users -> toLowerCase (email u) <> trim (toLowerCase e)) ->
  login_spec toLowerCase trim users e p = None.
Proof.
  intros H. unfold login_spec.
  destruct (List.find _ users) as [u|] eqn:F; [|reflexivity].
  apply find_some in F as [Hin Hm]. unfold matches in Hm.
  apply andb_prop in Hm as [He _]. apply String.eqb_eq in He.
  by destruct (H u Hin).
Qed.

Lemma wrong_password_fails users (e p : string) :
  (forall u, In u users -> toLowerCase (email u) = trim (toLowerCase e) ->
             password u <> Some p) ->
  login_spec toLowerCase trim users e p = None.
Proof.
  intros H. unfold login_spec.
  destruct (List.find _ users) as [u|] eqn:F; [|reflexivity].
  apply find_some in F as [Hin Hm]. unfold matches in Hm.
  apply andb_prop in Hm as [He Hp]. apply String.eqb_eq in He.
  destruct (password u) as [pw|] eqn:Epw; [|discriminate].
  apply String.eqb_eq in Hp. subst pw.
  exfalso. apply (H u Hin He). exact Epw.
Qed.

Lemma disabled_account_fails users (e p : string) :
  (forall u, In u users -> matches toLowerCase trim e p u = true -> enabled u = false) ->
  login_spec toLowerCase trim users e p = None.
Proof.
  intros H. unfold login_spec.
  destruct (List.find _ users) as [u|] eqn:F; [|reflexivity].
  apply find_some in F as [Hin Hm]. by rewrite (H u Hin Hm).
Qed.

(** Who is signed in when an attempt succeeds. *)
Lemma login_spec_some users (e p : string) (u' : User) :
  login_spec toLowerCase trim users e p = Some u' ->
  exists u, In u users /\ enabled u = true /\
            toLowerCase (email u) = trim (toLowerCase e) /\
            password u = Some p /\
            u' = without_password u.
Proof.
  unfold login_spec.
  destruct (List.find _ users) as [u|] eqn:F; [|discriminate].
  apply find_some in F as [Hin Hm].
  destruct (enabled u) eqn:En; [|discriminate]. intros [= <-].
  unfold matches in Hm. apply andb_prop in Hm as [He Hp].
  apply String.eqb_eq in He.
  destruct (password u) as [pw|] eqn:Epw; [|discriminate].
  apply String.eqb_eq in Hp. subst pw.
  exists u. auto.
Qed.

End AuthFacts.

(** C9. Against any list of users, an attempt with an email that matches
    no user, an attempt with a known email and a wrong password, and an
    attempt with the right credentials of a disabled account all end the
    same way: [authenticate] resolves with [null], nothing is stored, and
    the login form shows one and the same message; two failing attempts
    cannot be told apart by their results.  An attempt succeeds only for
    an enabled user whose email equals the typed one up to case (the typed
    one trimmed) and whose password is exactly the typed one; the user
    returned, and the one stored in the session, has no password field. *)
Theorem login_failures_indistinguishable
    (JSON_parse : string -> option json) (JSON_stringify : json -> string)
    (startedAt : string) (toLowerCase trim : string -> string)
    (users : list User) (reply : FetchReply) (now : Z) (w w1 : World) (data : json) :
  getCloudData JSON_parse JSON_stringify startedAt reply w = (Ok data, w1) ->
  prop data "users" = Some (JArr (List.map User_json users)) ->
  let auth := authenticate JSON_parse JSON_stringify startedAt toLowerCase trim reply now in
  let login := handleLogin JSON_parse JSON_stringify startedAt toLowerCase trim reply now in
  let failed := (Ok (LoginError "Invalid masjid credentials or disabled account."), w1) in
  (* unknown email *)
  (forall e p,
     (forall u, In u users -> toLowerCase (email u) <> trim (toLowerCase e)) ->
     auth e p w = (Ok JNull, w1) /\ login e p w = failed) /\
  (* wrong password *)
  (forall e p,
     (forall u, In u users -> toLowerCase (email u) = trim (toLowerCase e) ->
                password u <> Some p) ->
     auth e p w = (Ok JNull, w1) /\ login e p w = failed) /\
  (* disabled account *)
  (forall e p,
     (forall u, In u users -> matches toLowerCase trim e p u = true ->
                enabled u = false) ->
     auth e p w = (Ok JNull, w1) /\ login e p w = failed) /\
  (* any two failures *)
  (forall e1 p1 e2 p2,
     auth e1 p1 w = (Ok JNull, w1) -> auth e2 p2 w = (Ok JNull, w1) ->
     login e1 p1 w = login e2 p2 w) /\
  (* success *)
  (forall e p v w2,
     auth e p w = (Ok v, w2) -> v <> JNull ->
     exists u,
       In u users /\ enabled u = true /\
       toLowerCase (email u) = trim (toLowerCase e) /\
       password u = Some p /\
       v = User_json (without_password u) /\
       prop v "password" = None /\
       localStorage w2 !! SESSION_TOKEN = Some (JSON_stringify (session_json v now)) /\
       login e p w = (Ok (Dashboard v), w2)).
Proof.
  intros Hload Husers auth login failed.
  assert (Hauth : forall e p,
    auth e p w =
      match login_spec toLowerCase trim users e p with
      | Some u' =>
          let text := JSON_stringify (session_json (User_json u') now) in
          (Ok (User_json u'),
           mkWorld (<[SESSION_TOKEN := text]> (localStorage w1))
                   (trace w1 ++ [EvSetItem SESSION_TOKEN text]))
      | None => (Ok JNull, w1)
      end).
  { intros e p. subst auth. unfold authenticate, bind. rewrite Hload.
    by apply authenticate_with_run. }
  assert (Hlogin : forall e p, login e p w =
    match auth e p w with
    | (Ok user, w2) =>
        if truthy user then (Ok (Dashboard user), w2)
        else (Ok (LoginError "Invalid masjid credentials or disabled account."), w2)
    | (Throw err, w2) => (Throw err, w2)
    end).
  { intros e p. subst login auth. unfold handleLogin, bind.
    destruct (authenticate _ _ _ _ _ _ _ _ _ w) as [[user|err] w2]; [|reflexivity].
    by destruct (truthy user). }
  assert (Hfail : forall e p, login_spec toLowerCase trim users e p = None ->
                    auth e p w = (Ok JNull, w1) /\ login e p w = failed).
  { intros e p Hnone. rewrite Hlogin, Hauth, Hnone. split; reflexivity. }
  split; [|split; [|split; [|split]]].
  - intros e p H. by apply Hfail, unknown_email_fails.
  - intros e p H. by apply Hfail, wrong_password_fails.
  - intros e p H. by apply Hfail, disabled_account_fails.
  - intros e1 p1 e2 p2 H1 H2. by rewrite !Hlogin, H1, H2.
  - intros e p v w2 Hv Hnn. rewrite Hlogin, Hv.
    rewrite Hauth in Hv.
    destruct (login_spec toLowerCase trim users e p) as [u'|] eqn:Hspec.
    + cbv zeta in Hv. injection Hv as <- <-.
      destruct (login_spec_some _ _ _ _ _ _ Hspec) as (u & Hin & Hen & He & Hp & ->).
      exists u. split; [exact Hin|]. split; [exact Hen|]. split; [exact He|].
      split; [exact Hp|]. split; [reflexivity|].
      split; [by destruct u as [uid mail pw r en]|].
      split; [cbn [localStorage]; apply lookup_insert_eq | reflexivity].
    + injection Hv as <- <-. congruence.
Qed.

(* ===================================================================== *)
(** * The storage and login theorems at work *)
(* ===================================================================== *)

(** A board that loaded its data once, then meets a server error: the
    state comes back from the cache unchanged and nothing is thrown. *)
Lemma getCloudData_always_returns_witness :
  let cached := Codec.stringify (AppData_json sample_data) in
  let w := mkWorld {[ OFFLINE_KEY := cached ]} [] in
  exists w',
    getCloudData Codec.parse Codec.stringify "2024-05-02T08:00:00.000Z"
                 (Response 500 "Internal Server Error") w
      = (Ok (AppData_json sample_data), w') /\
    localStorage w' = localStorage w.
Proof.
  intros cached w.
  destruct (getCloudData_always_returns Codec.parse Codec.stringify
              "2024-05-02T08:00:00.000Z" (Response 500 "Internal Server Error") w)
    as ((v & w' & Hrun & Hspec & _) & _).
  exists w'.
  change (remote_payload Codec.parse (Response 500 "Internal Server Error"))
    with (@None json) in Hspec.
  destruct Hspec as [Hls Hv]. split; [|exact Hls].
  rewrite Hrun. f_equal. f_equal. rewrite Hv.
  change (localStorage w !! OFFLINE_KEY) with (Some cached).
  unfold cached_state.
  destruct cached eqn:E; [discriminate E|]. rewrite <- E. subst cached.
  rewrite CodecFacts.parse_stringify. reflexivity.
Defined.

(** A save that reaches no server, followed by a load that reaches none
    either. *)
Lemma save_then_load_roundtrip_witness :
  let now := "2024-05-10T09:00:00.000Z" in
  let saved := AppData_json (with_lastUpdated sample_data now) in
  unavailable (NetworkError "offline") = true /\
  exists w1 w2 later_events,
    syncToCloud Codec.stringify now (Response 503 "Service Unavailable")
                (AppData_json sample_data) fresh_world = (Ok tt, w1) /\
    localStorage w1 !! OFFLINE_KEY = Some (Codec.stringify saved) /\
    trace w1 =
      trace fresh_world ++ EvSetItem OFFLINE_KEY (Codec.stringify saved)
        :: EvFetch "POST" (Some (Codec.stringify saved)) :: later_events /\
    getCloudData Codec.parse Codec.stringify "2024-05-01T08:00:00.000Z"
                 (NetworkError "offline") w1 = (Ok saved, w2).
Proof.
  intros now saved. split; [reflexivity|].
  apply (save_then_load_roundtrip Codec.parse Codec.stringify
           "2024-05-01T08:00:00.000Z"
           CodecFacts.parse_stringify CodecFacts.parse_empty
           sample_data now (Response 503 "Service Unavailable")
           (NetworkError "offline") fresh_world).
  reflexivity.
Defined.

(** Logging in to a board that is offline and has no cache, so that the
    built-in administrator is the only user: an unknown email and a wrong
    password give the same outcome. *)
Lemma login_failures_indistinguishable_witness :
  let login :=
    handleLogin Codec.parse Codec.stringify "2024-05-01T08:00:00.000Z"
                JS.toLowerCase JS.trim (NetworkError "offline") 0 in
  login "nobody@example.com" "darzaid123" fresh_world
    = login "darzaid700@gmail.com" "wrong" fresh_world /\
  login "nobody@example.com" "darzaid123" fresh_world
    = (Ok (LoginError "Invalid masjid credentials or disabled account."),
       mkWorld ∅ [EvFetch "GET" None;
                  EvWarn "Cloud fetch failed, checking offline cache: offline"]).
Proof.
  intros login.
  destruct (login_failures_indistinguishable Codec.parse Codec.stringify
              "2024-05-01T08:00:00.000Z" JS.toLowerCase JS.trim
              (users sample_data) (NetworkError "offline") 0 fresh_world
              (mkWorld ∅ [EvFetch "GET" None;
                          EvWarn "Cloud fetch failed, checking offline cache: offline"])
              (AppData_json sample_data) eq_refl eq_refl)
    as (Hunknown & Hwrong & _).
  cbv zeta in Hunknown, Hwrong. fold login in Hunknown, Hwrong.
  destruct (Hunknown "nobody@example.com" "darzaid123") as [_ E1].
  { intros u [<-|[]]. vm_compute. discriminate. }
  destruct (Hwrong "darzaid700@gmail.com" "wrong") as [_ E2].
  { intros u [<-|[]] _. discriminate. }
  rewrite E1, E2. split; reflexivity.
Defined.

(* ===================================================================== *)
(** * Properties of the time display *)
(* ===================================================================== *)

(** A property checked on every number below one hundred holds of each. *)
Lemma below_100 (P : Z -> bool) :
  forallb (fun k => P (Z.of_nat k)) (seq 0 100) = true ->
  forall n, 0 <= n < 100 -> P n = true.
Proof.
  intros Hall n Hn. rewrite forallb_forall in Hall.
  specialize (Hall (Z.to_nat n)). rewrite Z2Nat.id in Hall by lia.
  apply Hall, in_seq. lia.
Qed.

Lemma append_cons (c : ascii) (a b : string) :
  (String c a ++ b)%string = String c (a ++ b)%string.
Proof. reflexivity. Qed.

Lemma append_empty (b : string) : (EmptyString ++ b)%string = b.
Proof. reflexivity. Qed.

Section SplitFacts.
Variable sep : ascii.

(** A string without the separator is one piece. *)
Lemma split_no_sep (s : string) :
  has_char sep s = false -> JS.split sep s = [s].
Proof.
  induction s as [|c s IH]; simpl; [reflexivity|].
  intros H. apply orb_false_iff in H as [Hc Hs].
  by rewrite Hc, (IH Hs).
Qed.

(** The first piece ends at the first separator. *)
Lemma split_at_sep (a b : string) :
  has_char sep a = false ->
  JS.split sep (a ++ String sep b) = a :: JS.split sep b.
Proof.
  induction a as [|c a IH]; intros H.
  - rewrite append_empty. simpl. by rewrite Ascii.eqb_refl.
  - simpl in H. apply orb_false_iff in H as [Hc Ha].
    rewrite append_cons. simpl. by rewrite Hc, (IH Ha).
Qed.

End SplitFacts.

Lemma two_digits_no_colon (n : Z) :
  0 <= n < 100 -> has_char ":" (two_digits n) = false.
Proof.
  intros Hn.
  apply negb_true_iff.
  apply (below_100 (fun k => negb (has_char ":" (two_digits k)))); [|exact Hn].
  vm_compute. reflexivity.
Qed.

Lemma Number_two_digits (n : Z) :
  0 <= n < 100 -> JS.Number (two_digits n) = Num (inject_Z n).
Proof.
  intros Hn.
  assert (H : match JS.Number (two_digits n) with
              | Num (Qmake a 1) => a =? n
              | _ => false
              end = true).
  { apply (below_100 (fun k => match JS.Number (two_digits k) with
                               | Num (Qmake a 1) => a =? k
                               | _ => false
                               end)); [|exact Hn].
    vm_compute. reflexivity. }
  destruct (JS.Number (two_digits n)) as [|[a [| |]]| |]; try discriminate.
  apply Z.eqb_eq in H. by subst.
Qed.

Lemma parseInt_two_digits (n : Z) :
  0 <= n < 100 -> Builtins.parseInt (two_digits n) = Some n.
Proof.
  intros Hn.
  assert (H : match Builtins.parseInt (two_digits n) with
              | Some a => a =? n
              | None => false
              end = true).
  { apply (below_100 (fun k => match Builtins.parseInt (two_digits k) with
                               | Some a => a =? k
                               | None => false
                               end)); [|exact Hn].
    vm_compute. reflexivity. }
  destruct (Builtins.parseInt (two_digits n)); [|discriminate].
  apply Z.eqb_eq in H. by subst.
Qed.

Lemma split_clock_string (h m : Z) :
  0 <= h < 100 -> 0 <= m < 100 ->
  JS.split ":" (clock_string h m) = [two_digits h; two_digits m].
Proof.
  intros Hh Hm. unfold clock_string.
  change (":" ++ two_digits m)%string with (String ":" (two_digits m)).
  rewrite split_at_sep by by apply two_digits_no_colon.
  by rewrite split_no_sep by by apply two_digits_no_colon.
Qed.

(** X1. A clock string [HH:MM] of two-digit fields is read by
    [getMinutes] as the minute of the day [HH * 60 + MM]. *)
Theorem getMinutes_of_clock_string (h m : Z) :
  0 <= h < 100 -> 0 <= m < 100 ->
  num_is (getMinutes JS.Number (clock_string h m)) (inject_Z (h * 60 + m)).
Proof.
  intros Hh Hm. unfold getMinutes. cbv zeta.
  rewrite split_clock_string by assumption.
  cbn [map lookup list_lookup default].
  rewrite !Number_two_digits by assumption.
  unfold ofZ. cbn [JS.mul JS.add num_is].
  by rewrite inject_Z_plus, inject_Z_mult.
Qed.

Lemma getMinutes_of_clock_string_witness :
  num_is (getMinutes JS.Number "18:45") (inject_Z 1125).
Proof.
  apply (getMinutes_of_clock_string 18 45); lia.
Defined.

Lemma hour12_range (h : Z) :
  0 <= h < 24 ->
  1 <= hour12 h <= 12 /\
  hour12 h mod 12 + (if h <? 12 then 0 else 12) = h.
Proof.
  intros Hh. unfold hour12.
  assert (E12 : 12 mod 12 = 0) by reflexivity.
  destruct (h mod 12 =? 0) eqn:E; [apply Z.eqb_eq in E | apply Z.eqb_neq in E];
    destruct (h <? 12) eqn:L; [apply Z.ltb_lt in L | apply Z.ltb_ge in L
                              | apply Z.ltb_lt in L | apply Z.ltb_ge in L];
    rewrite ?E12, ?Z.mod_mod by lia;
    split; Z.div_mod_to_equations; lia.
Qed.

Section FormatFacts.
Variable parseInt : string -> option Z.

Lemma formatTime_pieces (time hStr mStr : string) (rest : list string) (h : Z) :
  JS.split ":" time = hStr :: mStr :: rest ->
  parseInt hStr = Some h ->
  0 <= h ->
  formatTime parseInt time =
    (toString (Some (hour12 h)) ++ ":" ++ mStr ++ " " ++ period_of h)%string.
Proof.
  intros Hs Hp Hh. unfold formatTime.
  destruct time as [|c t]; [simpl in Hs; discriminate|].
  cbv zeta. rewrite Hs. cbn [lookup list_lookup template_string]. rewrite Hp.
  rewrite Z.rem_mod_nonneg by lia.
  unfold hour12, period_of.
  replace (h >=? 12) with (negb (h <? 12)) by (rewrite Z.geb_leb, Z.leb_antisym; reflexivity).
  by destruct (h <? 12).
Qed.

End FormatFacts.

(** X2. [formatTime] turns a 24-hour time whose hour field reads as a
    number from 0 to 23 into the same time on the twelve-hour clock: the
    hour shown lies between 1 and 12 (midnight and noon show as 12), the
    period is AM before noon and PM from noon on, hour and period together
    denote the hour that was given, and the minute field is copied as it
    stands. *)
Theorem formatTime_twelve_hour_clock
    (parseInt : string -> option Z) (time hStr mStr : string)
    (rest : list string) (h : Z) :
  JS.split ":" time = hStr :: mStr :: rest ->
  parseInt hStr = Some h ->
  0 <= h < 24 ->
  exists hour,
    formatTime parseInt time =
      (toString (Some hour) ++ ":" ++ mStr ++ " " ++ (if (h <? 12)%Z then "AM" else "PM"))%string /\
    1 <= hour <= 12 /\
    hour mod 12 + (if h <? 12 then 0 else 12) = h.
Proof.
  intros Hs Hp Hh. exists (hour12 h).
  split; [|by apply hour12_range].
  rewrite (formatTime_pieces parseInt time hStr mStr rest h) by (assumption || lia).
  reflexivity.
Qed.

Lemma formatTime_twelve_hour_clock_witness :
  exists hour,
    formatTime Builtins.parseInt "13:05" =
      (toString (Some hour) ++ ":" ++ "05" ++ " " ++ "PM")%string /\
    1 <= hour <= 12 /\
    hour mod 12 + 12 = 13.
Proof.
  apply (formatTime_twelve_hour_clock Builtins.parseInt "13:05" "13" "05" [] 13);
    [reflexivity | reflexivity | lia].
Defined.

Lemma has_char_append (c : ascii) (a b : string) :
  has_char c (a ++ b) = has_char c a || has_char c b.
Proof.
  induction a as [|d a IH]; [reflexivity|].
  rewrite append_cons. simpl. by rewrite IH, orb_assoc.
Qed.

Lemma hour12_no_space (h : Z) :
  0 <= h < 24 -> has_char " " (toString (Some (hour12 h))) = false.
Proof.
  intros Hh. apply negb_true_iff.
  apply (below_100 (fun k => negb (has_char " " (toString (Some (hour12 k)))))); [|lia].
  vm_compute. reflexivity.
Qed.

(** X3. What [formatTime] produces is what [formatTimeDisplay] expects:
    for a time whose hour reads as 0 to 23 and whose minute field holds no
    space, the row shows the clock part [H:MM] and, apart, the period AM or
    PM; the placeholder of a missing time is shown whole, with no period. *)
Theorem formatTimeDisplay_of_formatTime (parseInt : string -> option Z) :
  formatTimeDisplay (formatTime parseInt EmptyString) = mkTimeDisplay (Some "--:--") None /\
  forall (time hStr mStr : string) (rest : list string) (h : Z),
    JS.split ":" time = hStr :: mStr :: rest ->
    parseInt hStr = Some h ->
    0 <= h < 24 ->
    has_char " " mStr = false ->
    formatTimeDisplay (formatTime parseInt time) =
      mkTimeDisplay (Some (toString (Some (hour12 h)) ++ ":" ++ mStr)%string)
                    (Some (if h <? 12 then "AM" else "PM")).
Proof.
  split; [reflexivity|].
  intros time hStr mStr rest h Hs Hp Hh Hm.
  rewrite (formatTime_pieces parseInt time hStr mStr rest h) by (assumption || lia).
  set (clock := (toString (Some (hour12 h)) ++ ":" ++ mStr)%string).
  assert (Hclock : has_char " " clock = false).
  { subst clock. rewrite !has_char_append, hour12_no_space, Hm by assumption.
    reflexivity. }
  replace (toString (Some (hour12 h)) ++ ":" ++ mStr ++ " " ++ period_of h)%string
    with (clock ++ String " " (period_of h))%string.
  2:{ subst clock. rewrite !CodecFacts.append_assoc. reflexivity. }
  unfold formatTimeDisplay. cbv zeta.
  rewrite split_at_sep by exact Hclock.
  unfold period_of. by destruct (h <? 12).
Qed.

Lemma formatTimeDisplay_of_formatTime_witness :
  formatTimeDisplay (formatTime Builtins.parseInt "13:05") =
    mkTimeDisplay (Some "1:05") (Some "PM").
Proof.
  apply (proj2 (formatTimeDisplay_of_formatTime Builtins.parseInt) "13:05" "13" "05" [] 13);
    [reflexivity | reflexivity | lia | reflexivity].
Defined.

(** X4. A time without a colon has no minute field: [formatTime] then
    prints the word [undefined] in its place, and when the text does not
    start with a number either, the hour shown is 12 AM. *)
Theorem formatTime_without_minutes (parseInt : string -> option Z) (time : string) :
  time <> EmptyString ->
  has_char ":" time = false ->
  (exists hour period,
     formatTime parseInt time =
       (toString (Some hour) ++ ":undefined " ++ period)%string) /\
  (parseInt time = None -> formatTime parseInt time = "12:undefined AM").
Proof.
  intros Hne Hc. unfold formatTime.
  destruct time as [|c t]; [congruence|].
  cbv zeta. rewrite (split_no_sep _ _ Hc).
  cbn [lookup list_lookup template_string].
  split.
  - eexists _, _. reflexivity.
  - intros ->. reflexivity.
Qed.

Lemma formatTime_without_minutes_witness :
  formatTime Builtins.parseInt "soon" = "12:undefined AM".
Proof.
  apply (formatTime_without_minutes Builtins.parseInt "soon");
    [discriminate | reflexivity | reflexivity].
Defined.

Section RowFacts.
Variable Number : string -> number.

(** The row that [resolve] selects is one of the schedule. *)
Lemma resolve_next_in_schedule (schedule : list Entry) (cm : number) (r : Locals) :
  length schedule = 5%nat ->
  resolve Number schedule cm = Some r ->
  In (next r) schedule.
Proof.
  intros Hlen Hr.
  destruct (resolve_selects Number schedule cm Hlen) as (r' & Hr' & H).
  assert (r' = r) by congruence. subst r'.
  destruct H as [(pre & post & -> & _) | (_ & H0 & _)].
  - apply in_or_app. right. by left.
  - destruct schedule; [discriminate|]. simpl in H0. injection H0 as ->. by left.
Qed.

End RowFacts.

(** X5. The public timetable marks exactly one row as the next prayer:
    the row that bears the name [nextPrayerState] resolved, and it shows
    the azan and iqamah times of that prayer.  There are five rows, and a
    sixth for Jumma on a Friday. *)
Theorem prayerRows_mark_the_next_prayer
    (Number : string -> number) (parseInt : string -> option Z)
    (data : AppData) (now : Date) :
  exists np rows,
    nextPrayerState Number data now = Some np /\
    prayerRows parseInt data now (Some np) = Some rows /\
    length rows = (if (Date_getDay now =? 5)%Z then 6 else 5)%nat /\
    exists pre row post,
      rows = pre ++ row :: post /\
      row_isNext row = true /\
      row_name row = np_name np /\
      row_azan row = formatTime parseInt (np_azan np) /\
      row_iqamah row = formatTime parseInt (np_iqamah np) /\
      Forall (fun r => row_isNext r = false) (pre ++ post).
Proof.
  unfold nextPrayerState. cbv zeta.
  set (cm := currentMinutes_of now).
  set (isFri := Date_getDay now =? 5).
  destruct (resolve_selects Number (schedule_of data isFri) cm
              (schedule_of_length data isFri)) as (r & Hr & _).
  pose proof (resolve_next_in_schedule Number _ _ _ (schedule_of_length data isFri) Hr)
    as Hin.
  rewrite Hr. cbn [mbind option_bind].
  unfold prayerRows. fold isFri.
  destruct isFri; cbn in Hin;
    destruct Hin as [<-|[<-|[<-|[<-|[<-|[]]]]]];
    eexists _, _; (split; [reflexivity|]); cbn -[formatTime];
    (split; [reflexivity|]); (split; [reflexivity|]).
  all: first
    [ eexists [], _, _; cbn; repeat (split; [reflexivity|]); repeat constructor; fail
    | eexists [_], _, _; cbn; repeat (split; [reflexivity|]); repeat constructor; fail
    | eexists [_; _], _, _; cbn; repeat (split; [reflexivity|]); repeat constructor; fail
    | eexists [_; _; _], _, _; cbn; repeat (split; [reflexivity|]); repeat constructor; fail
    | eexists [_; _; _; _], _, _; cbn; repeat (split; [reflexivity|]); repeat constructor; fail
    | eexists [_; _; _; _; _], _, _; cbn; repeat (split; [reflexivity|]); repeat constructor; fail ].
Qed.

(* ===================================================================== *)
(** * Further properties of the board: progress, countdown, notices *)
(* ===================================================================== *)

Lemma clamp_full (x : Q) : (100 <= x)%Q -> (Qmin 100 (Qmax 0 x) == 100)%Q.
Proof.
  intros H. apply Q.min_l. apply Qle_trans with x; [exact H | apply Q.le_max_r].
Qed.

Lemma ratio_full (e t : Q) : (0 < t)%Q -> (t <= e)%Q -> (100 <= e / t * 100)%Q.
Proof.
  intros Ht He.
  assert (H1 : (1 <= e / t)%Q).
  { apply Qle_shift_div_l; [exact Ht|]. by rewrite Qmult_1_l. }
  apply Qle_trans with (1 * 100)%Q; [discriminate|].
  apply Qmult_le_compat_r; [exact H1 | discriminate].
Qed.

(** After the last iqamah, in the exact arithmetic of the definitions:
    with a finite start [p] of the interval and a first iqamah [n] of the
    next day that make a positive interval, the progress value is 100. *)
Lemma progress_full_exact
    (Number : string -> number) (schedule : list Entry) (c p n : Q) (r : Locals) :
  resolve Number schedule (Num c) = Some r ->
  isTomorrow r = true ->
  prevPrayerTime r = Num p ->
  getMinutes Number (iqamah (next r)) = Num n ->
  (p < n + 1440)%Q ->
  num_is (progress r) 100.
Proof.
  intros Hr Ht Hp Hn Hlt.
  destruct (resolve_inv Number _ _ _ Hr) as (Htot & Hel & Hprog & I).
  rewrite Ht in I, Hel. destruct I as (Hnone & _ & H0 & Hnext & _).
  rewrite Hn in Hnext. cbn in Hnext.
  apply findIndex_none in Hnone.
  assert (Hle : (n <= c)%Q).
  { destruct schedule as [|e0 rest]; [discriminate|].
    simpl in H0. injection H0 as ->.
    apply Forall_inv in Hnone. unfold later in Hnone. rewrite Hn in Hnone.
    by apply gt_Num_false. }
  rewrite Hp, Hnext in Htot. cbn in Htot.
  rewrite Hp in Hel. cbn in Hel.
  rewrite Hprog, Htot, Hel.
  assert (Hpos : (0 < n + 1440 - p)%Q).
  { rewrite <- (Qplus_opp_r p). apply Qplus_lt_l. exact Hlt. }
  assert (G : JS.gt (Num (n + inject_Z (24 * 60) - p)) (ofZ 0) = true)
    by (apply gt_Num; exact Hpos).
  rewrite G. cbn [JS.div].
  assert (Hz : Qeq_bool (n + inject_Z (24 * 60) - p) 0 = false).
  { apply not_true_is_false. intros E. apply Qeq_bool_iff in E.
    change (inject_Z (24 * 60)) with 1440%Q in E. rewrite E in Hpos.
    discriminate. }
  rewrite Hz. cbn [JS.mul JS.Math_max JS.Math_min ofZ num_is].
  apply clamp_full, ratio_full; [exact Hpos|].
  apply Qplus_le_l, Qplus_le_l. exact Hle.
Qed.

(** X6. With a schedule of clock times, once no iqamah of today is later
    than the current minute, the next prayer is tomorrow's first and the
    progress value is 100 at once and stays 100 until midnight: the
    interval from the fifth row's iqamah to the first iqamah of the next
    day is positive, and the elapsed time, counted from the fifth row's
    iqamah with a day added to the current minute, is never shorter. *)
Theorem progress_full_after_last_iqamah
    (Number : string -> number) (schedule : list Entry) (m : Z) (r : Locals) :
  clock_schedule Number schedule = true ->
  0 <= m < 24 * 60 ->
  resolve Number schedule (ofZ m) = Some r ->
  isTomorrow r = true ->
  num_is (progress r) 100 /\
  exists p n,
    prevPrayerTime r = Num p /\ nextPrayerTime r = Num n /\ (p < n)%Q /\
    num_is (elapsed r) (inject_Z m + 1440 - p).
Proof.
  intros Hs _ Hr Ht.
  destruct (resolve_inv Number _ _ _ Hr) as (_ & Hel & _ & I).
  rewrite Ht in I, Hel. destruct I as (_ & _ & H0 & Hnext & isha & H4 & Hprev).
  destruct (clock_schedule_minutes Number _ _ _ Hs H0) as (qn & zn & En & Eqn & Rn).
  destruct (clock_schedule_minutes Number _ _ _ Hs H4) as (qp & zp & Ep & Eqp & Rp).
  rewrite Ep in Hprev. rewrite En in Hnext. cbn in Hnext.
  assert (Hlt : (qp < qn + 1440)%Q).
  { rewrite Eqp, Eqn. change 1440%Q with (inject_Z 1440).
    rewrite <- inject_Z_plus, <- Zlt_Qlt. lia. }
  split.
  - exact (progress_full_exact Number schedule (inject_Z m) qp qn r Hr Ht Hprev En Hlt).
  - exists qp, (qn + inject_Z (24 * 60))%Q.
    split; [exact Hprev|]. split; [exact Hnext|]. split; [exact Hlt|].
    rewrite Hel, Hprev. cbn. reflexivity.
Qed.

Lemma progress_full_after_last_iqamah_witness :
  exists r,
    resolve JS.Number (schedule_of sample_data false) (ofZ 1385) = Some r /\
    num_is (progress r) 100.
Proof.
  eexists. split; [vm_compute; reflexivity|].
  eapply (proj1 (progress_full_after_last_iqamah JS.Number
                   (schedule_of sample_data false) 1385 _
                   eq_refl ltac:(lia) eq_refl eq_refl)).
Defined.

(** The clock reading of an instant, split as [getHours] and [getMinutes]
    split it. *)
Lemma wall_split (now : Date) :
  exists rest,
    0 <= rest < MS_PER_MINUTE /\
    wall now = wall now / MS_PER_DAY * MS_PER_DAY
               + (Date_getHours now * 60 + Date_getMinutes now) * MS_PER_MINUTE + rest /\
    0 <= Date_getHours now * 60 + Date_getMinutes now < 24 * 60.
Proof.
  unfold Date_getHours, Date_getMinutes, MS_PER_DAY, MS_PER_HOUR, MS_PER_MINUTE.
  set (w := wall now).
  replace (w / 3600000) with (w / 60000 / 60) by (rewrite Z.div_div by lia; reflexivity).
  replace (w / 86400000) with (w / 60000 / 60 / 24)
    by (rewrite !Z.div_div by lia; reflexivity).
  exists (w mod 60000).
  Z.div_mod_to_equations. lia.
Qed.

(** X7. The countdown of the prayer that [nextPrayerState] resolved never
    takes the branch for a target in the past: when the iqamah of that
    prayer is a clock time and the instant lies well inside the range of
    dates, the target lies strictly ahead of the clock, by at most the
    minutes to go, and the string shown is the remaining whole seconds as
    HH:MM:SS.  (The zone keeps one offset between now and the target.) *)
Theorem countdownStr_of_resolved_prayer_is_ahead
    (Number : string -> number) (data : AppData) (now : Date)
    (np : NextPrayer) (zh zm : Z) :
  nextPrayerState Number data now = Some np ->
  clock_of Number (np_iqamah np) = Some (zh, zm) ->
  date_in_range now = true ->
  let target :=
    (wall now / MS_PER_DAY) * MS_PER_DAY
    + (if np_isTomorrow np then MS_PER_DAY else 0)
    + zh * MS_PER_HOUR + zm * MS_PER_MINUTE in
  let minutes_to_go :=
    zh * 60 + zm + (if np_isTomorrow np then 24 * 60 else 0)
    - (Date_getHours now * 60 + Date_getMinutes now) in
  0 < target - wall now <= minutes_to_go * MS_PER_MINUTE /\
  minutes_to_go <= 2 * 24 * 60 /\
  countdownStr Number (Some np) now = hms ((target - wall now) / 1000).
Proof.
  intros Hnp Hclock _ target minutes_to_go.
  destruct (clock_of_fields Number _ _ _ Hclock)
    as (qh & qm & Hh & Hm & Eh & Em & Rh & Rm).
  pose proof (countdownStr_target Number np now _ _ Hh Hm) as Hc.
  cbv zeta in Hc. rewrite (toInteger_whole _ _ Eh), (toInteger_whole _ _ Em) in Hc.
  fold target in Hc.
  destruct (wall_split now) as (rest & Hrest & Hw & Hcm).
  assert (Hahead : 0 < target - wall now <= minutes_to_go * MS_PER_MINUTE).
  { unfold nextPrayerState in Hnp. cbv zeta in Hnp.
    destruct (resolve Number _ _) as [r|] eqn:Hr; [|discriminate].
    cbn [mbind option_bind] in Hnp. injection Hnp as <-.
    cbn [np_iqamah np_isTomorrow] in *.
    assert (Hmin : getMinutes Number (iqamah (next r))
                   = Num (qh * inject_Z 60 + qm)).
    { unfold getMinutes. cbv zeta. rewrite Hh, Hm. reflexivity. }
    subst target minutes_to_go.
    unfold MS_PER_DAY, MS_PER_HOUR, MS_PER_MINUTE in *.
    destruct (isTomorrow r) eqn:Ht.
    - lia.
    - pose proof (resolve_today_later Number _ _ _ Hr Ht) as Hl.
      unfold later in Hl. rewrite Hmin in Hl. unfold currentMinutes_of, ofZ in Hl.
      apply gt_Num in Hl.
      rewrite Eh, Em, <- inject_Z_mult, <- inject_Z_plus, <- Zlt_Qlt in Hl.
      lia. }
  split; [exact Hahead|]. split.
  - subst minutes_to_go. destruct (np_isTomorrow np); lia.
  - rewrite Hc. destruct (target - wall now <? 0) eqn:E; [|reflexivity].
    apply Z.ltb_lt in E. lia.
Qed.

Lemma countdownStr_of_resolved_prayer_is_ahead_witness :
  exists np,
    nextPrayerState JS.Number sample_data (mkDate 48599500) = Some np /\
    countdownStr JS.Number (Some np) (mkDate 48599500) = "00:00:00".
Proof.
  eexists. split; [vm_compute; reflexivity|].
  eapply eq_trans.
  - apply (countdownStr_of_resolved_prayer_is_ahead JS.Number sample_data
             (mkDate 48599500) _ 13 30);
      [vm_compute; reflexivity | reflexivity | reflexivity].
  - vm_compute. reflexivity.
Defined.

Section SortOnList.
Context {A : Type} (after : A -> A -> bool) (key : A -> Z).

Lemma insert_by_sorted_on (x : A) (l : list A) :
  (forall y, In y l -> (after x y = true <-> key x < key y)) ->
  Sorted (fun a b => key b <= key a) l ->
  Sorted (fun a b => key b <= key a) (insert_by after x l).
Proof.
  induction l as [|y rest IH]; simpl; intros Hk Hs.
  - repeat constructor.
  - pose proof (Hk y (or_introl eq_refl)) as Hy.
    destruct (after x y) eqn:E.
    + apply Sorted_inv in Hs as [Hs Hhd].
      constructor; [apply IH; [intros z Hz; apply Hk; by right | exact Hs]|].
      destruct rest as [|z rest']; simpl.
      * constructor. destruct Hy as [Hy _]. specialize (Hy eq_refl). lia.
      * destruct (after x z); constructor.
        -- by inversion Hhd.
        -- destruct Hy as [Hy _]. specialize (Hy eq_refl). lia.
    + constructor; [exact Hs|]. constructor.
      destruct (Z.lt_ge_cases (key x) (key y)) as [L|G]; [|exact G].
      apply Hy in L. congruence.
Qed.

(** Sorting a list on whose elements [after] compares a key puts the keys
    in descending order. *)
Lemma sort_by_sorted_on (l : list A) :
  (forall a b, In a l -> In b l -> (after a b = true <-> key a < key b)) ->
  Sorted (fun a b => key b <= key a) (sort_by after l).
Proof.
  induction l as [|x rest IH]; simpl; intros Hk; [constructor|].
  apply insert_by_sorted_on.
  - intros y Hy. apply Hk; [by left | right].
    eapply Permutation_in; [apply sort_by_perm | exact Hy].
  - apply IH. intros a b Ha Hb. apply Hk; by right.
Qed.

End SortOnList.

Section ActiveNotices.
Variable Date_parse : string -> timeValue.
Variable timezoneOffset : Z.

(** Membership in the list of active notices. *)
Lemma activeNotices_In (notices : list Notice) (now : Date) (n : Notice) :
  In n (activeNotices Date_parse timezoneOffset notices now) <->
  In n notices /\
  notice_visible Date_parse timezoneOffset (local_midnight (wall now)) n = true.
Proof.
  rewrite <- !list_elem_of_In.
  rewrite (activeNotices_perm Date_parse timezoneOffset notices now).
  rewrite list_elem_of_filter. tauto.
Qed.

End ActiveNotices.

(** X8. The notice board shows only notices of the data, it always shows
    a notice that has no expiry date (none, or an empty one), and it never
    shows a notice whose expiry date is a text the host cannot read as a
    date. *)
Theorem activeNotices_expiry_edge_cases
    (Date_parse : string -> timeValue) (timezoneOffset : Z)
    (notices : list Notice) (now : Date) (n : Notice) :
  In n notices ->
  (forall m, In m (activeNotices Date_parse timezoneOffset notices now) -> In m notices) /\
  (expiryDate n = None \/ expiryDate n = Some EmptyString ->
   In n (activeNotices Date_parse timezoneOffset notices now)) /\
  (forall text, expiryDate n = Some text -> text <> EmptyString ->
     Date_parse text = None ->
     ~ In n (activeNotices Date_parse timezoneOffset notices now)).
Proof.
  intros Hin. split; [|split].
  - intros m Hm. by apply activeNotices_In in Hm as [? _].
  - intros H. apply activeNotices_In. split; [exact Hin|].
    unfold notice_visible. by destruct H as [-> | ->].
  - intros text He Hne Hp Hshown.
    apply activeNotices_In in Hshown as [_ Hv].
    unfold notice_visible in Hv. rewrite He in Hv.
    destruct text; [congruence|]. rewrite Hp in Hv. discriminate.
Qed.

Lemma activeNotices_expiry_edge_cases_witness :
  In (mkNotice "n-2" "Class" "Weekly class" "2024-05-02T10:00:00.000Z" None false)
     (activeNotices ISODate.Date_parse 300
        [notice_until_10_may;
         mkNotice "n-2" "Class" "Weekly class" "2024-05-02T10:00:00.000Z" None false]
        morning_of_10_may).
Proof.
  apply (activeNotices_expiry_edge_cases ISODate.Date_parse 300
           [notice_until_10_may;
            mkNotice "n-2" "Class" "Weekly class" "2024-05-02T10:00:00.000Z" None false]
           morning_of_10_may
           (mkNotice "n-2" "Class" "Weekly class" "2024-05-02T10:00:00.000Z" None false)).
  - simpl. right. left. reflexivity.
  - left. reflexivity.
Defined.

(** X9. When the dates of the notices are readable, the board lists the
    active notices most recent first: every notice is at least as recent
    as each notice listed after it. *)
Theorem activeNotices_most_recent_first
    (Date_parse : string -> timeValue) (timezoneOffset : Z)
    (notices : list Notice) (now : Date) (stamp : Notice -> Z) :
  (forall n, In n notices -> Date_parse (date n) = Some (stamp n)) ->
  StronglySorted (fun a b => stamp b <= stamp a)
    (activeNotices Date_parse timezoneOffset notices now).
Proof.
  intros Hs. apply Sorted_StronglySorted; [intros a b c; lia|].
  unfold activeNotices. cbv zeta. apply sort_by_sorted_on.
  intros a b Ha Hb.
  apply list_elem_of_In, list_elem_of_filter in Ha as [_ Ha].
  apply list_elem_of_In, list_elem_of_filter in Hb as [_ Hb].
  apply list_elem_of_In in Ha. apply list_elem_of_In in Hb.
  unfold newer_first. rewrite (Hs a Ha), (Hs b Hb).
  rewrite Z.gtb_ltb, Z.ltb_lt. lia.
Qed.

Lemma activeNotices_most_recent_first_witness :
  StronglySorted
    (fun a b => default 0 (ISODate.Date_parse (date b))
                <= default 0 (ISODate.Date_parse (date a)))
    (activeNotices ISODate.Date_parse 0
       [notice_until_10_may;
        mkNotice "n-2" "Class" "Weekly class" "2024-05-02T10:00:00.000Z" None false]
       morning_of_10_may).
Proof.
  apply (activeNotices_most_recent_first ISODate.Date_parse 0
           [notice_until_10_may;
            mkNotice "n-2" "Class" "Weekly class" "2024-05-02T10:00:00.000Z" None false]
           morning_of_10_may
           (fun n => default 0 (ISODate.Date_parse (date n)))).
  intros n [<-|[<-|[]]]; vm_compute; reflexivity.
Defined.

(** X10. A date-only expiry (read by the host as midnight UTC of its
    day) keeps a notice on the board through the expiry day in zones on or
    east of Greenwich; in zones west of Greenwich the notice leaves the
    board a day early, at the start of the expiry day. *)
Theorem date_only_expiry_depends_on_zone
    (Date_parse : string -> timeValue) (timezoneOffset : Z)
    (notices : list Notice) (now : Date) (n : Notice) (text : string) (day : Z) :
  In n notices ->
  expiryDate n = Some text -> text <> EmptyString ->
  Date_parse text = Some (day * MS_PER_DAY) ->
  -1440 < timezoneOffset < 1440 ->
  let today := wall now / MS_PER_DAY in
  In n (activeNotices Date_parse timezoneOffset notices now) <->
  (if 0 <? timezoneOffset then today < day else today <= day).
Proof.
  intros Hin He Hne Hp Hz today.
  rewrite activeNotices_In.
  rewrite (notice_visible_date_only Date_parse timezoneOffset now n text day)
    by assumption.
  fold today. destruct (0 <? timezoneOffset).
  - rewrite Z.ltb_lt. tauto.
  - rewrite Z.leb_le. tauto.
Qed.

Lemma date_only_expiry_depends_on_zone_witness :
  In notice_until_10_may
     (activeNotices ISODate.Date_parse (-330) [notice_until_10_may] morning_of_10_may)
  <-> 19853 <= 19853.
Proof.
  apply (date_only_expiry_depends_on_zone ISODate.Date_parse (-330)
           [notice_until_10_may] morning_of_10_may notice_until_10_may
           "2024-05-10" 19853);
    [left; reflexivity | reflexivity | discriminate | reflexivity | lia].
Defined.

(* ===================================================================== *)
(** * Properties of the session *)
(* ===================================================================== *)

Ltac run_s :=
  cbv beta iota zeta delta
    [bind try_catch ret throw record_event console_warn console_error
     localStorage_getItem localStorage_setItem localStorage_removeItem
     clearSession parse_or_throw get_prop fst snd].

Section SessionFacts.
Variable JSON_parse : string -> option json.
Variable JSON_stringify : json -> string.
Variable Number : string -> number.
Hypothesis parse_stringify : forall v, JSON_parse (JSON_stringify v) = Some v.
Hypothesis parse_empty : JSON_parse EmptyString = None.

(** What is written is never the empty text. *)
Lemma stringify_not_empty (v : json) :
  exists c t, JSON_stringify v = String c t.
Proof using parse_stringify parse_empty.
  destruct (JSON_stringify v) as [|c t] eqn:E; [|eauto].
  specialize (parse_stringify v). rewrite E in parse_stringify. congruence.
Qed.

Lemma extendSession_run (user : json) (since now : Z) (w : World) :
  truthy user = true ->
  session_stored JSON_stringify user since w ->
  extendSession JSON_parse JSON_stringify now w
    = (Ok tt, with_session JSON_stringify user now w).
Proof using parse_stringify parse_empty.
  intros Hu Hs. unfold extendSession, session_stored in *. run_s.
  rewrite Hs.
  destruct (stringify_not_empty (session_json user since)) as (c & t & E).
  rewrite E, <- E, parse_stringify.
  cbn [session_json prop assoc String.eqb Ascii.eqb Bool.eqb].
  rewrite Hu. reflexivity.
Qed.

Lemma getActiveSession_run (user : json) (since now : Z) (w : World) :
  truthy user = true ->
  session_stored JSON_stringify user since w ->
  getActiveSession JSON_parse JSON_stringify now w =
    if now >? since + SESSION_TIMEOUT_MS
    then (Ok JNull, without_session w)
    else (Ok user, with_session JSON_stringify user now w).
Proof using parse_stringify parse_empty.
  intros Hu Hs. unfold getActiveSession. run_s.
  pose proof Hs as Hs'. unfold session_stored in Hs'. rewrite Hs'.
  destruct (stringify_not_empty (session_json user since)) as (c & t & E).
  rewrite E, <- E, parse_stringify.
  cbn [session_json prop assoc String.eqb Ascii.eqb Bool.eqb].
  rewrite Hu. cbn [fst snd].
  destruct (now >? since + SESSION_TIMEOUT_MS); [reflexivity|].
  rewrite (extendSession_run user since now w Hu Hs). reflexivity.
Qed.

Lemma gt_ofZ (a b : Z) : JS.gt (ofZ a) (ofZ b) = (b <? a).
Proof.
  destruct (b <? a) eqn:E.
  - apply gt_Num. rewrite <- Zlt_Qlt. by apply Z.ltb_lt.
  - apply gt_Num_false. rewrite <- Zle_Qle. by apply Z.ltb_ge.
Qed.

Lemma isSessionValid_run (user : json) (since now : Z) (w : World) :
  session_stored JSON_stringify user since w ->
  isSessionValid JSON_parse Number now w
    = (Ok (now <? since + SESSION_TIMEOUT_MS), w).
Proof using parse_stringify parse_empty.
  intros Hs. unfold isSessionValid, session_stored in *. run_s.
  rewrite Hs.
  destruct (stringify_not_empty (session_json user since)) as (c & t & E).
  rewrite E, <- E, parse_stringify.
  cbn [session_json prop assoc String.eqb Ascii.eqb Bool.eqb truthy_opt andb].
  rewrite andb_false_r. cbn [to_number]. by rewrite gt_ofZ.
Qed.

End SessionFacts.

(** X11. A successful login opens a session of twenty minutes.  The user
    kept in the session carries no password.  Reading the session at any
    instant up to its expiry, the expiry instant included, gives that user
    and renews the session for twenty minutes from that instant; reading it
    later gives nobody and removes the session from the browser. *)
Theorem login_session_lasts_twenty_minutes
    (JSON_parse : string -> option json) (JSON_stringify : json -> string)
    (toLowerCase trim : string -> string)
    (parse_stringify : forall v, JSON_parse (JSON_stringify v) = Some v)
    (parse_empty : JSON_parse EmptyString = None)
    (data : json) (users : list User) (t0 : Z) (e p : string) (u : User) (w : World) :
  prop data "users" = Some (JArr (List.map User_json users)) ->
  login_spec toLowerCase trim users e p = Some u ->
  exists w1,
    authenticate_with JSON_stringify toLowerCase trim data t0 e p w
      = (Ok (User_json u), w1) /\
    password u = None /\
    forall now,
      getActiveSession JSON_parse JSON_stringify now w1 =
        if now >? t0 + SESSION_TIMEOUT_MS
        then (Ok JNull, without_session w1)
        else (Ok (User_json u), with_session JSON_stringify (User_json u) now w1).
Proof.
  intros Husers Hlogin.
  rewrite (authenticate_with_run JSON_stringify toLowerCase trim data users t0 e p w Husers).
  rewrite Hlogin. cbv zeta.
  eexists. split; [reflexivity|]. split.
  - destruct (login_spec_some toLowerCase trim users e p u Hlogin)
      as (u0 & _ & _ & _ & _ & ->). reflexivity.
  - intros now.
    apply (getActiveSession_run JSON_parse JSON_stringify parse_stringify parse_empty).
    + by destruct u as [? ? [?|] ? ?].
    + unfold session_stored. cbn [localStorage]. apply lookup_insert_eq.
Qed.

Lemma login_session_lasts_twenty_minutes_witness :
  exists w1,
    authenticate_with Codec.stringify JS.toLowerCase JS.trim
        (AppData_json sample_data) 0 "darzaid700@gmail.com" "darzaid123" fresh_world
      = (Ok (User_json (without_password root_admin)), w1) /\
    getActiveSession Codec.parse Codec.stringify 1200000 w1
      = (Ok (User_json (without_password root_admin)),
         with_session Codec.stringify (User_json (without_password root_admin))
                      1200000 w1) /\
    getActiveSession Codec.parse Codec.stringify 1200001 w1
      = (Ok JNull, without_session w1).
Proof.
  destruct (login_session_lasts_twenty_minutes Codec.parse Codec.stringify
              JS.toLowerCase JS.trim CodecFacts.parse_stringify CodecFacts.parse_empty
              (AppData_json sample_data) (users sample_data) 0
              "darzaid700@gmail.com" "darzaid123" (without_password root_admin)
              fresh_world eq_refl eq_refl)
    as (w1 & Hlogin & _ & Hsession).
  exists w1. split; [exact Hlogin|]. split.
  - exact (Hsession 1200000).
  - exact (Hsession 1200001).
Defined.

(** X12. The background check [isSessionValid] changes nothing in the
    browser and answers whether the instant lies strictly before the
    expiry of the stored session.  At the expiry instant itself it answers
    no, while [getActiveSession] still accepts the session there. *)
Theorem isSessionValid_until_expiry
    (JSON_parse : string -> option json) (JSON_stringify : json -> string)
    (Number : string -> number)
    (parse_stringify : forall v, JSON_parse (JSON_stringify v) = Some v)
    (parse_empty : JSON_parse EmptyString = None)
    (user : json) (since : Z) (w : World) :
  truthy user = true ->
  session_stored JSON_stringify user since w ->
  (forall now,
     isSessionValid JSON_parse Number now w
       = (Ok (now <? since + SESSION_TIMEOUT_MS), w)) /\
  isSessionValid JSON_parse Number (since + SESSION_TIMEOUT_MS) w = (Ok false, w) /\
  fst (getActiveSession JSON_parse JSON_stringify (since + SESSION_TIMEOUT_MS) w)
    = Ok user.
Proof.
  intros Hu Hs. split; [|split].
  - intros now. by apply (isSessionValid_run JSON_parse JSON_stringify Number
                            parse_stringify parse_empty user).
  - rewrite (isSessionValid_run JSON_parse JSON_stringify Number
               parse_stringify parse_empty user since _ w Hs).
    by rewrite Z.ltb_irrefl.
  - rewrite (getActiveSession_run JSON_parse JSON_stringify
               parse_stringify parse_empty user since _ w Hu Hs).
    replace (since + SESSION_TIMEOUT_MS >? since + SESSION_TIMEOUT_MS) with false
      by (symmetry; rewrite Z.gtb_ltb; apply Z.ltb_irrefl).
    reflexivity.
Qed.

Lemma isSessionValid_until_expiry_witness :
  let w := mkWorld {[ SESSION_TOKEN :=
                        Codec.stringify (session_json (User_json (without_password root_admin)) 0) ]} [] in
  isSessionValid Codec.parse JS.Number 1199999 w = (Ok true, w) /\
  isSessionValid Codec.parse JS.Number 1200000 w = (Ok false, w).
Proof.
  intros w.
  destruct (isSessionValid_until_expiry Codec.parse Codec.stringify JS.Number
              CodecFacts.parse_stringify CodecFacts.parse_empty
              (User_json (without_password root_admin)) 0 w eq_refl eq_refl)
    as (Hvalid & Hedge & _).
  split; [exact (Hvalid 1199999) | exact Hedge].
Defined.

(** X13. Any interaction renews the session for twenty minutes from its
    instant, and it does so without looking at the expiry: a session that
    has run out but has not been cleared yet is valid again after a click. *)
Theorem extendSession_renews_even_after_expiry
    (JSON_parse : string -> option json) (JSON_stringify : json -> string)
    (Number : string -> number)
    (parse_stringify : forall v, JSON_parse (JSON_stringify v) = Some v)
    (parse_empty : JSON_parse EmptyString = None)
    (user : json) (since t1 : Z) (s : Screen) (w : World) :
  truthy user = true ->
  currentUser s = user ->
  session_stored JSON_stringify user since w ->
  exists w1,
    handleActivity JSON_parse JSON_stringify t1 s w = (Ok tt, w1) /\
    session_stored JSON_stringify user t1 w1 /\
    forall now,
      isSessionValid JSON_parse Number now w1
        = (Ok (now <? t1 + SESSION_TIMEOUT_MS), w1).
Proof.
  intros Hu Hcur Hs. unfold handleActivity. rewrite Hcur, Hu.
  rewrite (extendSession_run JSON_parse JSON_stringify parse_stringify parse_empty
             user since t1 w Hu Hs).
  eexists. split; [reflexivity|].
  assert (Hs1 : session_stored JSON_stringify user t1
                  (with_session JSON_stringify user t1 w)).
  { unfold session_stored, with_session. cbn [localStorage]. apply lookup_insert_eq. }
  split; [exact Hs1|].
  intros now. by apply (isSessionValid_run JSON_parse JSON_stringify Number
                          parse_stringify parse_empty user).
Qed.

Lemma extendSession_renews_even_after_expiry_witness :
  let user := User_json (without_password root_admin) in
  let w := mkWorld {[ SESSION_TOKEN := Codec.stringify (session_json user 0) ]} [] in
  isSessionValid Codec.parse JS.Number 1500000 w = (Ok false, w) /\
  exists w1,
    handleActivity Codec.parse Codec.stringify 1500000 (mkScreen user DASHBOARD []) w
      = (Ok tt, w1) /\
    isSessionValid Codec.parse JS.Number 1500001 w1 = (Ok true, w1).
Proof.
  intros user w. split; [vm_compute; reflexivity|].
  destruct (extendSession_renews_even_after_expiry Codec.parse Codec.stringify JS.Number
              CodecFacts.parse_stringify CodecFacts.parse_empty
              user 0 1500000 (mkScreen user DASHBOARD []) w eq_refl eq_refl eq_refl)
    as (w1 & Hact & _ & Hvalid).
  exists w1. split; [exact Hact | exact (Hvalid 1500001)].
Defined.

Section SessionTotal.
Variable JSON_parse : string -> option json.
Variable JSON_stringify : json -> string.
Variable Number : string -> number.

(** [extendSession] swallows every error; it leaves the browser as it
    was or writes a session that expires twenty minutes from now. *)
Lemma extendSession_total (now : Z) (w : World) :
  extendSession JSON_parse JSON_stringify now w = (Ok tt, w) \/
  exists user,
    extendSession JSON_parse JSON_stringify now w
      = (Ok tt, with_session JSON_stringify user now w).
Proof.
  unfold extendSession. run_s.
  destruct (localStorage w !! SESSION_TOKEN) as [[|c t]|]; [by left | | by left].
  destruct (JSON_parse (String c t)) as [parsed|]; [|by left].
  destruct parsed; try (by left); right; eexists; reflexivity.
Qed.

Lemma getActiveSession_total (now : Z) (w : World) :
  (getActiveSession JSON_parse JSON_stringify now w = (Ok JNull, w) /\
   (localStorage w !! SESSION_TOKEN = None \/
    localStorage w !! SESSION_TOKEN = Some EmptyString))
  \/
  getActiveSession JSON_parse JSON_stringify now w = (Ok JNull, without_session w)
  \/
  exists user stored,
    user <> JNull /\
    fst (getActiveSession JSON_parse JSON_stringify now w) = Ok user /\
    snd (getActiveSession JSON_parse JSON_stringify now w)
      = with_session JSON_stringify stored now w.
Proof.
  unfold getActiveSession. run_s.
  destruct (localStorage w !! SESSION_TOKEN) as [[|c t]|] eqn:Hs;
    [left; auto | | left; auto].
  right.
  destruct (JSON_parse (String c t)) as [parsed|] eqn:Hp; [|by left].
  assert (Hext : parsed <> JNull ->
            exists stored,
              extendSession JSON_parse JSON_stringify now w
                = (Ok tt, with_session JSON_stringify stored now w)).
  { intros Hn. unfold extendSession. run_s. rewrite Hs, Hp.
    destruct parsed; try congruence; eexists; reflexivity. }
  destruct parsed as [|b|z|s|items|fields]; [by left | ..].
  all: match goal with
       | |- context [if ?c then _ else _] => destruct c; [by left|]
       end.
  all: right; destruct Hext as [stored E]; [discriminate|]; rewrite E;
       eexists _, stored; cbn [fst snd]; split; [|split; reflexivity].
  all: try discriminate.
  (* an object: the user is its truthy [user] or the object itself *)
  cbn [prop]. destruct (assoc "user" fields) as [u|]; [|discriminate].
  destruct (assoc "expiry" fields) as [[]|]; try discriminate.
  destruct u; cbn; try discriminate;
    match goal with |- context [if ?c then _ else _] => destruct c end; discriminate.
Qed.

Lemma isSessionValid_total (now : Z) (w : World) :
  exists b, isSessionValid JSON_parse Number now w = (Ok b, w).
Proof.
  unfold isSessionValid. run_s.
  destruct (localStorage w !! SESSION_TOKEN) as [[|c t]|]; eauto.
  destruct (JSON_parse (String c t)) as [parsed|]; eauto.
  destruct parsed; eauto;
    match goal with |- context [if ?c then _ else _] => destruct c; eauto end.
Qed.

End SessionTotal.

(** X14. No session function throws, whatever the browser holds under
    the session key.  [getActiveSession] gives nobody only when no session
    is held afterwards (none or an empty one was stored, or it removed
    what it found); otherwise it has written a session that expires twenty
    minutes from now.  [isSessionValid] answers and changes nothing. *)
Theorem session_functions_never_throw
    (JSON_parse : string -> option json) (JSON_stringify : json -> string)
    (Number : string -> number) (now : Z) (w : World) :
  (exists v w1,
     getActiveSession JSON_parse JSON_stringify now w = (Ok v, w1) /\
     match v with
     | JNull =>
         localStorage w1 !! SESSION_TOKEN = None \/
         localStorage w1 !! SESSION_TOKEN = Some EmptyString
     | _ =>
         exists stored,
           localStorage w1 !! SESSION_TOKEN
             = Some (JSON_stringify (session_json stored now))
     end) /\
  (exists b, isSessionValid JSON_parse Number now w = (Ok b, w)) /\
  (exists w1, extendSession JSON_parse JSON_stringify now w = (Ok tt, w1)).
Proof.
  split; [|split].
  - destruct (getActiveSession_total JSON_parse JSON_stringify now w)
      as [[E H] | [E | (user & stored & Hn & E1 & E2)]].
    + exists JNull, w. split; [exact E | exact H].
    + exists JNull, (without_session w). split; [exact E|].
      left. apply lookup_delete_eq.
    + destruct (getActiveSession JSON_parse JSON_stringify now w) as [r w1].
      simpl in E1, E2. subst r w1.
      eexists _, _. split; [reflexivity|].
      destruct user; [congruence | ..]; exists stored; apply lookup_insert_eq.
  - apply isSessionValid_total.
  - destruct (extendSession_total JSON_parse JSON_stringify now w) as [E | [u E]];
      rewrite E; eauto.
Qed.

(** X15. A session stored in the old format (the bare user record, with
    no expiry) does not run out while the page stays open: the background
    check accepts it at every instant.  The next page load accepts it too,
    at any instant, and rewrites it in the current format with twenty
    minutes to run. *)
Theorem legacy_session_never_expires
    (JSON_parse : string -> option json) (JSON_stringify : json -> string)
    (Number : string -> number)
    (parse_stringify : forall v, JSON_parse (JSON_stringify v) = Some v)
    (parse_empty : JSON_parse EmptyString = None)
    (u : User) (w : World) :
  localStorage w !! SESSION_TOKEN = Some (JSON_stringify (User_json u)) ->
  email u <> EmptyString ->
  forall now,
    isSessionValid JSON_parse Number now w = (Ok true, w) /\
    getActiveSession JSON_parse JSON_stringify now w
      = (Ok (User_json u), with_session JSON_stringify (User_json u) now w).
Proof.
  intros Hs Hmail now.
  destruct (stringify_not_empty JSON_parse JSON_stringify parse_stringify parse_empty
              (User_json u)) as (c & t & E).
  assert (Hne : negb (String.eqb (email u) EmptyString) = true).
  { apply negb_true_iff, String.eqb_neq, Hmail. }
  split.
  - unfold isSessionValid. run_s. rewrite Hs, E, <- E, parse_stringify.
    destruct u as [uid mail [pw|] r en]; cbn in Hne |- *; by rewrite Hne.
  - assert (Hfresh : (now >? now + SESSION_TIMEOUT_MS) = false)
      by (rewrite Z.gtb_ltb; apply Z.ltb_ge; unfold SESSION_TIMEOUT_MS; lia).
    assert (Huser : prop (User_json u) "user" = None)
      by (by destruct u as [uid mail [pw|] r en]).
    assert (Hobj : exists fields, User_json u = JObj fields)
      by (destruct u as [uid mail [pw|] r en]; eexists; reflexivity).
    destruct Hobj as [fields Hobj].
    assert (Hext : extendSession JSON_parse JSON_stringify now w
                   = (Ok tt, with_session JSON_stringify (User_json u) now w)).
    { unfold extendSession. run_s. rewrite Hs, E, <- E, parse_stringify.
      rewrite Hobj in Huser |- *. by rewrite Huser. }
    unfold getActiveSession. run_s.
    rewrite Hs, E, <- E, parse_stringify.
    rewrite Hobj in Huser, Hext |- *. rewrite Huser. cbn [fst snd].
    rewrite Hfresh, Hext. reflexivity.
Qed.

Lemma legacy_session_never_expires_witness :
  let user := User_json (without_password root_admin) in
  let w := mkWorld {[ SESSION_TOKEN := Codec.stringify user ]} [] in
  isSessionValid Codec.parse JS.Number 1700000000000 w = (Ok true, w) /\
  getActiveSession Codec.parse Codec.stringify 1700000000000 w
    = (Ok user, with_session Codec.stringify user 1700000000000 w).
Proof.
  intros user w.
  apply (legacy_session_never_expires Codec.parse Codec.stringify JS.Number
           CodecFacts.parse_stringify CodecFacts.parse_empty
           (without_password root_admin) w eq_refl).
  discriminate.
Defined.

(** X16. Logging out ends the session for good: the screen shows the
    public board with nobody signed in, and afterwards no session function
    finds a session, at any instant; activity does not bring it back and a
    reload signs nobody in. *)
Theorem handleLogout_ends_the_session
    (JSON_parse : string -> option json) (JSON_stringify : json -> string)
    (Number : string -> number) (s : Screen) (w : World) :
  exists s1 w1,
    handleLogout s w = (Ok s1, w1) /\
    currentUser s1 = JNull /\ view s1 = PUBLIC /\ alerts s1 = alerts s /\
    forall now,
      isSessionValid JSON_parse Number now w1 = (Ok false, w1) /\
      getActiveSession JSON_parse JSON_stringify now w1 = (Ok JNull, w1) /\
      extendSession JSON_parse JSON_stringify now w1 = (Ok tt, w1) /\
      restoreSession JSON_parse JSON_stringify now s1 w1 = (Ok s1, w1).
Proof.
  eexists _, _. split; [reflexivity|]. cbn [currentUser view alerts].
  repeat (split; [reflexivity|]).
  intros now.
  assert (Hnone : localStorage (without_session w) !! SESSION_TOKEN = None)
    by apply lookup_delete_eq.
  unfold restoreSession, isSessionValid, getActiveSession, extendSession. run_s.
  fold (without_session w). rewrite Hnone. repeat split.
Qed.

(** X17. The ten-second check of a signed-in user: before the expiry of
    the stored session it changes nothing; from the expiry instant on it
    signs the user out and removes the session, and when the dashboard was
    open it goes back to the public board with one alert, while on the
    public board the sign-out is silent. *)
Theorem checkSession_signs_out_at_expiry
    (JSON_parse : string -> option json) (JSON_stringify : json -> string)
    (Number : string -> number)
    (parse_stringify : forall v, JSON_parse (JSON_stringify v) = Some v)
    (parse_empty : JSON_parse EmptyString = None)
    (user : json) (since now : Z) (s : Screen) (w : World) :
  truthy (currentUser s) = true ->
  session_stored JSON_stringify user since w ->
  checkSession JSON_parse Number now s w =
    if now <? since + SESSION_TIMEOUT_MS then (Ok s, w)
    else
      (Ok (match view s with
           | DASHBOARD =>
               mkScreen JNull PUBLIC
                 (alerts s ++ ["Session expired due to inactivity (20 min)."])
           | v => mkScreen JNull v (alerts s)
           end),
       without_session w).
Proof.
  intros Hcur Hs. unfold checkSession. rewrite Hcur. cbn [negb].
  unfold bind at 1.
  rewrite (isSessionValid_run JSON_parse JSON_stringify Number
             parse_stringify parse_empty user since now w Hs).
  destruct (now <? since + SESSION_TIMEOUT_MS); cbn [negb]; [reflexivity|].
  run_s. by destruct (view s).
Qed.

Lemma checkSession_signs_out_at_expiry_witness :
  let user := User_json (without_password root_admin) in
  let w := mkWorld {[ SESSION_TOKEN := Codec.stringify (session_json user 0) ]} [] in
  checkSession Codec.parse JS.Number 1200000 (mkScreen user DASHBOARD []) w
    = (Ok (mkScreen JNull PUBLIC ["Session expired due to inactivity (20 min)."]),
       without_session w).
Proof.
  intros user w.
  apply (checkSession_signs_out_at_expiry Codec.parse Codec.stringify JS.Number
           CodecFacts.parse_stringify CodecFacts.parse_empty
           user 0 1200000 (mkScreen user DASHBOARD []) w eq_refl eq_refl).
Defined.

(* ===================================================================== *)
(** * Properties of the administration of users *)
(* ===================================================================== *)

Section UserFacts.
Variable JSON_parse : string -> option json.
Variable JSON_stringify : json -> string.
Variable startedAt : string.
Variable toLowerCase : string -> string.
Variable trim : string -> string.

Lemma lower_email_User (u : User) (w : World) :
  lower_email toLowerCase (User_json u) w = (Ok (toLowerCase (email u)), w).
Proof. by destruct u as [uid mail [pw|] r en]. Qed.

Lemma has_id_User (userId : string) (u : User) (w : World) :
  has_id userId (User_json u) w = (Ok (String.eqb (user_id u) userId), w).
Proof. by destruct u as [uid mail [pw|] r en]. Qed.

(** [some] over the stored users decides whether the email is taken. *)
Lemma some_first_users (e : string) (us : list User) (w : World) :
  some_first
    (fun u => let! x := lower_email toLowerCase u in
              ret (String.eqb x (trim (toLowerCase e))))
    (List.map User_json us) w
  = (Ok (email_taken toLowerCase trim us e), w).
Proof.
  induction us as [|u us IH]; [reflexivity|].
  cbn [List.map some_first email_taken existsb].
  unfold bind at 1. unfold bind at 1. rewrite lower_email_User.
  unfold ret at 1.
  destruct (String.eqb (toLowerCase (email u)) (trim (toLowerCase e)));
    [reflexivity | exact IH].
Qed.

Lemma set_users_AppData (s : AppData) (us : list User) (w : World) :
  set_prop (AppData_json s) "users" (JArr (List.map User_json us)) w
    = (Ok (AppData_json (with_users s us (lastUpdated s))), w).
Proof. reflexivity. Qed.

Lemma stamp_with_users (s : AppData) (us : list User) (old now : string) :
  stamp (AppData_json (with_users s us old)) now = AppData_json (with_users s us now).
Proof. reflexivity. Qed.

(** [registerCloudAdmin] on a loaded state of typed users. *)
Lemma registerCloudAdmin_run
    (now : Z) (nowISO : string) (reply_load reply_save : FetchReply)
    (e p : string) (s : AppData) (w w1 : World) :
  getCloudData JSON_parse JSON_stringify startedAt reply_load w
    = (Ok (AppData_json s), w1) ->
  e <> EmptyString -> p <> EmptyString ->
  registerCloudAdmin JSON_parse JSON_stringify startedAt toLowerCase trim
      now nowISO reply_load reply_save e p w =
    if email_taken toLowerCase trim (users s) e
    then (Throw "An admin with this email already exists.", w1)
    else
      (Ok tt,
       after_sync JSON_stringify
         (AppData_json (with_users s (users s ++ [new_admin trim now e p]) nowISO))
         reply_save w1).
Proof.
  intros Hload He Hp. unfold registerCloudAdmin.
  apply String.eqb_neq in He, Hp. rewrite He, Hp. cbn [orb].
  unfold bind at 1. rewrite Hload.
  unfold bind at 1.
  change (get_prop (AppData_json s) "users" w1)
    with (Ok (Some (JArr (List.map User_json (users s)))), w1).
  cbv beta iota.
  unfold bind at 1. rewrite some_first_users.
  destruct (email_taken toLowerCase trim (users s) e); [reflexivity|].
  change (JObj [("id", JStr ("admin-" ++ toString (Some now)));
                ("email", JStr (trim e)); ("password", JStr p);
                ("role", Role_json ADMIN); ("enabled", JBool true)])
    with (User_json (new_admin trim now e p)).
  change [User_json (new_admin trim now e p)]
    with (List.map User_json [new_admin trim now e p]).
  rewrite <- List.map_app.
  unfold bind at 1. rewrite set_users_AppData.
  rewrite syncToCloud_run, stamp_with_users. reflexivity.
Qed.

End UserFacts.

(** A load that finds the remote store unavailable returns the typed
    state the cache holds and leaves the browser's store as it is. *)
Lemma getCloudData_from_cache
    (JSON_parse : string -> option json) (JSON_stringify : json -> string)
    (startedAt : string)
    (parse_stringify : forall v, JSON_parse (JSON_stringify v) = Some v)
    (parse_empty : JSON_parse EmptyString = None)
    (reply : FetchReply) (s : AppData) (w : World) :
  unavailable reply = true ->
  localStorage w !! OFFLINE_KEY = Some (JSON_stringify (AppData_json s)) ->
  exists w',
    getCloudData JSON_parse JSON_stringify startedAt reply w = (Ok (AppData_json s), w') /\
    localStorage w' = localStorage w.
Proof.
  intros Hdown Hcache.
  destruct (getCloudData_run JSON_parse JSON_stringify startedAt reply w)
    as (v & w' & Hrun & Hspec).
  assert (Hnone : remote_payload JSON_parse reply = None).
  { destruct reply as [|status body]; [reflexivity|]. simpl in *.
    by destruct (response_ok status). }
  rewrite Hnone in Hspec. destruct Hspec as [Hls Hv].
  rewrite Hcache in Hv.
  assert (Hc : cached_state JSON_parse (Some (JSON_stringify (AppData_json s)))
               = Some (AppData_json s)).
  { unfold cached_state.
    destruct (JSON_stringify (AppData_json s)) as [|c t] eqn:E.
    - specialize (parse_stringify (AppData_json s)). rewrite E in parse_stringify.
      congruence.
    - rewrite <- E, parse_stringify. reflexivity. }
  rewrite Hc in Hv. simpl in Hv. subst v.
  exists w'. split; [exact Hrun | exact Hls].
Qed.

(** A load that the cloud answers with a valid payload returns it. *)
Lemma getCloudData_from_cloud
    (JSON_parse : string -> option json) (JSON_stringify : json -> string)
    (startedAt : string) (reply : FetchReply) (data : json) (w : World) :
  remote_payload JSON_parse reply = Some data ->
  exists w',
    getCloudData JSON_parse JSON_stringify startedAt reply w = (Ok data, w').
Proof.
  intros Hremote.
  destruct (getCloudData_run JSON_parse JSON_stringify startedAt reply w)
    as (v & w' & Hrun & Hspec).
  rewrite Hremote in Hspec. destruct Hspec as [-> _]. eauto.
Qed.

(** A login reads the typed state [s] when the cloud answers with it, or
    when the cloud is out of reach and the cache holds it; the login then
    goes by the users of [s]. *)
Lemma authenticate_reading
    (JSON_parse : string -> option json) (JSON_stringify : json -> string)
    (startedAt : string) (toLowerCase trim : string -> string)
    (parse_stringify : forall v, JSON_parse (JSON_stringify v) = Some v)
    (parse_empty : JSON_parse EmptyString = None)
    (reply : FetchReply) (t : Z) (e p : string) (s : AppData) (w : World) :
  remote_payload JSON_parse reply = Some (AppData_json s) \/
  (unavailable reply = true /\
   localStorage w !! OFFLINE_KEY = Some (JSON_stringify (AppData_json s))) ->
  exists w',
    authenticate JSON_parse JSON_stringify startedAt toLowerCase trim reply t e p w
      = (match login_spec toLowerCase trim (users s) e p with
         | Some u => Ok (User_json u)
         | None => Ok JNull
         end, w').
Proof.
  intros Hread.
  assert (Hload : exists w1,
            getCloudData JSON_parse JSON_stringify startedAt reply w
              = (Ok (AppData_json s), w1)).
  { destruct Hread as [Hremote | [Hdown Hcache]].
    - by apply getCloudData_from_cloud.
    - destruct (getCloudData_from_cache JSON_parse JSON_stringify startedAt
                  parse_stringify parse_empty reply s w Hdown Hcache) as (w1 & E & _).
      eauto. }
  destruct Hload as [w1 Hload].
  unfold authenticate. unfold bind at 1. rewrite Hload.
  rewrite (authenticate_with_run JSON_stringify toLowerCase trim
             (AppData_json s) (users s) t e p w1 eq_refl).
  destruct (login_spec toLowerCase trim (users s) e p); eauto.
Qed.

Section LoginFacts.
Variable toLowerCase : string -> string.
Variable trim : string -> string.

Lemma email_taken_false (us : list User) (e : string) :
  email_taken toLowerCase trim us e = false ->
  forall u, In u us -> toLowerCase (email u) <> trim (toLowerCase e).
Proof.
  unfold email_taken. intros H u Hin Heq.
  assert (existsb (fun u => String.eqb (toLowerCase (email u)) (trim (toLowerCase e))) us
          = true).
  { apply existsb_exists. exists u. split; [exact Hin | by apply String.eqb_eq]. }
  congruence.
Qed.

Lemma find_none_app (f : User -> bool) (us rest : list User) :
  (forall u, In u us -> f u = false) ->
  List.find f (us ++ rest) = List.find f rest.
Proof.
  induction us as [|u us IH]; [reflexivity|]. intros H. simpl.
  rewrite (H u (or_introl eq_refl)). apply IH. intros v Hv. apply H. by right.
Qed.

(** The login of an administrator that was just added. *)
Lemma login_spec_new_admin (us : list User) (now : Z) (e p : string) :
  email_taken toLowerCase trim us e = false ->
  toLowerCase (trim e) = trim (toLowerCase e) ->
  login_spec toLowerCase trim (us ++ [new_admin trim now e p]) e p
    = Some (without_password (new_admin trim now e p)).
Proof.
  intros Hfree Hcomm. unfold login_spec.
  rewrite find_none_app.
  - cbn [List.find]. unfold matches at 1. cbn [email password new_admin].
    rewrite Hcomm, !String.eqb_refl. reflexivity.
  - intros u Hin. unfold matches.
    pose proof (email_taken_false us e Hfree u Hin) as Hne.
    apply String.eqb_neq in Hne. by rewrite Hne.
Qed.

(** Nobody signs in with an email that no user has. *)
Lemma login_spec_unknown (us : list User) (e p : string) :
  email_taken toLowerCase trim us e = false ->
  login_spec toLowerCase trim us e p = None.
Proof.
  intros Hfree. unfold login_spec.
  rewrite <- (app_nil_r us), find_none_app; [reflexivity|].
  intros u Hin. unfold matches.
  pose proof (email_taken_false us e Hfree u Hin) as Hne.
  apply String.eqb_neq in Hne. by rewrite Hne.
Qed.

End LoginFacts.

(** X18. [registerCloudAdmin] refuses an empty email or password before
    it contacts anything, and refuses an email that some user already has
    (up to case, the typed email trimmed) after the load and before any
    save: nothing is written to the cache or sent to the cloud. *)
Theorem registerCloudAdmin_refusals
    (JSON_parse : string -> option json) (JSON_stringify : json -> string)
    (startedAt : string) (toLowerCase trim : string -> string)
    (now : Z) (nowISO : string) (reply_load reply_save : FetchReply)
    (e p : string) (s : AppData) (w w1 : World) :
  getCloudData JSON_parse JSON_stringify startedAt reply_load w
    = (Ok (AppData_json s), w1) ->
  let register :=
    registerCloudAdmin JSON_parse JSON_stringify startedAt toLowerCase trim
      now nowISO reply_load reply_save in
  (e = EmptyString \/ p = EmptyString ->
   register e p w = (Throw "Email and password are required.", w)) /\
  (e <> EmptyString -> p <> EmptyString ->
   email_taken toLowerCase trim (users s) e = true ->
   register e p w = (Throw "An admin with this email already exists.", w1)).
Proof.
  intros Hload register. split.
  - intros H. subst register. unfold registerCloudAdmin.
    destruct H as [-> | ->]; [reflexivity|]. by rewrite orb_true_r.
  - intros He Hp Htaken. subst register.
    rewrite (registerCloudAdmin_run JSON_parse JSON_stringify startedAt toLowerCase trim
               now nowISO reply_load reply_save e p s w w1 Hload He Hp).
    by rewrite Htaken.
Qed.

(** X19. [registerCloudAdmin] resolves for a free email, whatever the
    cloud answers to the save: the state it saves is the loaded state with
    one user more at the end, an enabled ADMIN with the trimmed email, the
    password as typed and the id [admin-<now>], stamped with the current
    instant; it is in the cache and was sent in the request. *)
Theorem registerCloudAdmin_adds_admin
    (JSON_parse : string -> option json) (JSON_stringify : json -> string)
    (startedAt : string) (toLowerCase trim : string -> string)
    (now : Z) (nowISO : string) (reply_load reply_save : FetchReply)
    (e p : string) (s : AppData) (w w1 : World) :
  getCloudData JSON_parse JSON_stringify startedAt reply_load w
    = (Ok (AppData_json s), w1) ->
  e <> EmptyString -> p <> EmptyString ->
  email_taken toLowerCase trim (users s) e = false ->
  let saved :=
    AppData_json (with_users s (users s ++ [new_admin trim now e p]) nowISO) in
  exists w2,
    registerCloudAdmin JSON_parse JSON_stringify startedAt toLowerCase trim
      now nowISO reply_load reply_save e p w = (Ok tt, w2) /\
    localStorage w2 !! OFFLINE_KEY = Some (JSON_stringify saved) /\
    trace w2 =
      trace w1 ++ [EvSetItem OFFLINE_KEY (JSON_stringify saved);
                   EvFetch "POST" (Some (JSON_stringify saved))]
               ++ sync_report reply_save.
Proof.
  intros Hload He Hp Hfree saved.
  rewrite (registerCloudAdmin_run JSON_parse JSON_stringify startedAt toLowerCase trim
             now nowISO reply_load reply_save e p s w w1 Hload He Hp).
  rewrite Hfree. eexists. split; [reflexivity|].
  unfold after_sync. cbn [localStorage trace]. split; [apply lookup_insert_eq|].
  reflexivity.
Qed.

(** X20. An administrator that was just registered signs in with the
    email and password that were typed whenever the login reads the state
    that the registration saved: from the cache, when the cloud is out of
    reach, or from the cloud, when it answers with that state; the user
    signed in carries no password.  When the cloud answers the login with
    the state from before the registration (the save did not reach it),
    the login is refused.  (The email is one on which trimming and
    lower-casing commute.) *)
Theorem registered_admin_can_log_in
    (JSON_parse : string -> option json) (JSON_stringify : json -> string)
    (startedAt : string) (toLowerCase trim : string -> string)
    (parse_stringify : forall v, JSON_parse (JSON_stringify v) = Some v)
    (parse_empty : JSON_parse EmptyString = None)
    (now : Z) (nowISO : string) (reply_load reply_save : FetchReply)
    (e p : string) (s : AppData) (w w1 : World) :
  getCloudData JSON_parse JSON_stringify startedAt reply_load w
    = (Ok (AppData_json s), w1) ->
  e <> EmptyString -> p <> EmptyString ->
  email_taken toLowerCase trim (users s) e = false ->
  toLowerCase (trim e) = trim (toLowerCase e) ->
  let saved := with_users s (users s ++ [new_admin trim now e p]) nowISO in
  exists w2,
    registerCloudAdmin JSON_parse JSON_stringify startedAt toLowerCase trim
      now nowISO reply_load reply_save e p w = (Ok tt, w2) /\
    (forall (reply_login : FetchReply) (t : Z),
       unavailable reply_login = true \/
       remote_payload JSON_parse reply_login = Some (AppData_json saved) ->
       exists w3,
         authenticate JSON_parse JSON_stringify startedAt toLowerCase trim
           reply_login t e p w2
           = (Ok (User_json (without_password (new_admin trim now e p))), w3)) /\
    (forall (reply_login : FetchReply) (t : Z),
       remote_payload JSON_parse reply_login = Some (AppData_json s) ->
       exists w3,
         authenticate JSON_parse JSON_stringify startedAt toLowerCase trim
           reply_login t e p w2 = (Ok JNull, w3)).
Proof.
  intros Hload He Hp Hfree Hcomm saved.
  rewrite (registerCloudAdmin_run JSON_parse JSON_stringify startedAt toLowerCase trim
             now nowISO reply_load reply_save e p s w w1 Hload He Hp).
  rewrite Hfree. fold saved.
  set (w2 := after_sync JSON_stringify (AppData_json saved) reply_save w1).
  assert (Hcache : localStorage w2 !! OFFLINE_KEY
                   = Some (JSON_stringify (AppData_json saved))).
  { subst w2. unfold after_sync. cbn [localStorage]. apply lookup_insert_eq. }
  exists w2. split; [reflexivity|]. split.
  - intros reply_login t Hread.
    destruct (authenticate_reading JSON_parse JSON_stringify startedAt toLowerCase trim
                parse_stringify parse_empty reply_login t e p saved w2) as (w3 & E).
    { destruct Hread as [Hdown | Hremote]; [right | left]; auto. }
    exists w3. rewrite E. subst saved. cbn [users with_users].
    by rewrite (login_spec_new_admin toLowerCase trim (users s) now e p Hfree Hcomm).
  - intros reply_login t Hremote.
    destruct (authenticate_reading JSON_parse JSON_stringify startedAt toLowerCase trim
                parse_stringify parse_empty reply_login t e p s w2) as (w3 & E);
      [by left|].
    exists w3. rewrite E.
    by rewrite (login_spec_unknown toLowerCase trim (users s) e p Hfree).
Qed.

(** X21. Registration keeps the emails of the users distinct up to case:
    when they are before the call, the call either refuses the email as
    taken, writing nothing, or saves a state whose emails are still
    distinct up to case.  (The email is one on which trimming and
    lower-casing commute.) *)
Theorem registerCloudAdmin_keeps_emails_distinct
    (JSON_parse : string -> option json) (JSON_stringify : json -> string)
    (startedAt : string) (toLowerCase trim : string -> string)
    (now : Z) (nowISO : string) (reply_load reply_save : FetchReply)
    (e p : string) (s : AppData) (w w1 : World) :
  getCloudData JSON_parse JSON_stringify startedAt reply_load w
    = (Ok (AppData_json s), w1) ->
  e <> EmptyString -> p <> EmptyString ->
  toLowerCase (trim e) = trim (toLowerCase e) ->
  NoDup (lower_emails toLowerCase (users s)) ->
  let register :=
    registerCloudAdmin JSON_parse JSON_stringify startedAt toLowerCase trim
      now nowISO reply_load reply_save in
  register e p w = (Throw "An admin with this email already exists.", w1)
  \/
  exists s',
    register e p w = (Ok tt, after_sync JSON_stringify (AppData_json s') reply_save w1) /\
    users s' = users s ++ [new_admin trim now e p] /\
    NoDup (lower_emails toLowerCase (users s')).
Proof.
  intros Hload He Hp Hcomm Hdistinct register. subst register.
  rewrite (registerCloudAdmin_run JSON_parse JSON_stringify startedAt toLowerCase trim
             now nowISO reply_load reply_save e p s w w1 Hload He Hp).
  destruct (email_taken toLowerCase trim (users s) e) eqn:Htaken; [by left | right].
  eexists. split; [reflexivity|]. cbn [users with_users]. split; [reflexivity|].
  unfold lower_emails. rewrite List.map_app. apply NoDup_app.
  split; [exact Hdistinct|]. split; [|apply NoDup_singleton].
  intros x Hx Hnew. apply list_elem_of_singleton in Hnew. subst x.
  apply list_elem_of_In, in_map_iff in Hx as (u & Hu & Hin).
  cbn [email new_admin] in Hu. rewrite Hcomm in Hu.
  exact (email_taken_false toLowerCase trim (users s) e Htaken u Hin Hu).
Qed.

Lemma registerCloudAdmin_refusals_witness :
  register_offline EmptyString "s3cret" fresh_world
    = (Throw "Email and password are required.", fresh_world) /\
  register_offline " DARZAID700@gmail.com " "s3cret" fresh_world
    = (Throw "An admin with this email already exists.", offline_world).
Proof.
  destruct (registerCloudAdmin_refusals Codec.parse Codec.stringify
              "2024-05-01T08:00:00.000Z" JS.toLowerCase JS.trim
              1715331600000 "2024-05-10T09:00:00.000Z"
              (NetworkError "offline") (NetworkError "offline")
              EmptyString "s3cret" sample_data fresh_world offline_world eq_refl)
    as [Hempty _].
  destruct (registerCloudAdmin_refusals Codec.parse Codec.stringify
              "2024-05-01T08:00:00.000Z" JS.toLowerCase JS.trim
              1715331600000 "2024-05-10T09:00:00.000Z"
              (NetworkError "offline") (NetworkError "offline")
              " DARZAID700@gmail.com " "s3cret" sample_data fresh_world offline_world
              eq_refl)
    as [_ Htaken].
  split.
  - apply Hempty. by left.
  - apply Htaken; [discriminate | discriminate | reflexivity].
Defined.

Lemma registerCloudAdmin_adds_admin_witness :
  let saved :=
    AppData_json
      (with_users sample_data
         [root_admin;
          mkUser "admin-1715331600000" "Imam@Example.com" (Some "s3cret") ADMIN true]
         "2024-05-10T09:00:00.000Z") in
  exists w2,
    register_offline " Imam@Example.com " "s3cret" fresh_world = (Ok tt, w2) /\
    localStorage w2 !! OFFLINE_KEY = Some (Codec.stringify saved).
Proof.
  intros saved.
  destruct (registerCloudAdmin_adds_admin Codec.parse Codec.stringify
              "2024-05-01T08:00:00.000Z" JS.toLowerCase JS.trim
              1715331600000 "2024-05-10T09:00:00.000Z"
              (NetworkError "offline") (NetworkError "offline")
              " Imam@Example.com " "s3cret" sample_data fresh_world offline_world
              eq_refl)
    as (w2 & Hrun & Hcache & _); [discriminate | discriminate | reflexivity |].
  exists w2. split; [exact Hrun | exact Hcache].
Defined.

Lemma registered_admin_can_log_in_witness :
  exists w2,
    register_offline " Imam@Example.com " "s3cret" fresh_world = (Ok tt, w2) /\
    (exists w3,
       authenticate Codec.parse Codec.stringify "2024-05-01T08:00:00.000Z"
           JS.toLowerCase JS.trim (Response 503 "Service Unavailable")
           1715331700000 " Imam@Example.com " "s3cret" w2
         = (Ok (User_json
                  (mkUser "admin-1715331600000" "Imam@Example.com" None ADMIN true)),
            w3)) /\
    (exists w3,
       authenticate Codec.parse Codec.stringify "2024-05-01T08:00:00.000Z"
           JS.toLowerCase JS.trim
           (Response 200 (Codec.stringify (AppData_json sample_data)))
           1715331700000 " Imam@Example.com " "s3cret" w2
         = (Ok JNull, w3)).
Proof.
  destruct (registered_admin_can_log_in Codec.parse Codec.stringify
              "2024-05-01T08:00:00.000Z" JS.toLowerCase JS.trim
              CodecFacts.parse_stringify CodecFacts.parse_empty
              1715331600000 "2024-05-10T09:00:00.000Z"
              (NetworkError "offline") (NetworkError "offline")
              " Imam@Example.com " "s3cret" sample_data fresh_world offline_world
              eq_refl)
    as (w2 & Hrun & Hsaved & Hstale);
    [discriminate | discriminate | reflexivity | reflexivity |].
  exists w2. split; [exact Hrun|]. split.
  - apply Hsaved. left. reflexivity.
  - apply Hstale. vm_compute. reflexivity.
Defined.

Lemma registerCloudAdmin_keeps_emails_distinct_witness :
  exists s',
    register_offline " Imam@Example.com " "s3cret" fresh_world
      = (Ok tt, after_sync Codec.stringify (AppData_json s')
                  (NetworkError "offline") offline_world) /\
    NoDup (lower_emails JS.toLowerCase (users s')).
Proof.
  destruct (registerCloudAdmin_keeps_emails_distinct Codec.parse Codec.stringify
              "2024-05-01T08:00:00.000Z" JS.toLowerCase JS.trim
              1715331600000 "2024-05-10T09:00:00.000Z"
              (NetworkError "offline") (NetworkError "offline")
              " Imam@Example.com " "s3cret" sample_data fresh_world offline_world
              eq_refl)
    as [Hrefused | (s' & Hrun & _ & Hdistinct)];
    [discriminate | discriminate | reflexivity
    | repeat constructor; intros H; inversion H | | ].
  - exfalso.
    assert (Hok : fst (register_offline " Imam@Example.com " "s3cret" fresh_world)
                  = Ok tt) by (vm_compute; reflexivity).
    unfold register_offline in Hok. rewrite Hrefused in Hok. discriminate Hok.
  - exists s'. split; [exact Hrun | exact Hdistinct].
Defined.

(* ===================================================================== *)
(** * Properties of [updateCloudUser] *)
(* ===================================================================== *)

Section UpdateFacts.
Variable JSON_parse : string -> option json.
Variable JSON_stringify : json -> string.
Variable startedAt : string.
Variable toLowerCase : string -> string.
Variable trim : string -> string.

(** [findIndex] over the stored users is [findIndex] over the typed ones. *)
Lemma find_index_users (userId : string) (us : list User) (w : World) :
  find_index (has_id userId) (List.map User_json us) w
    = (Ok (findIndex (fun u => String.eqb (user_id u) userId) us), w).
Proof.
  induction us as [|u us IH]; [reflexivity|].
  cbn [List.map find_index findIndex]. unfold bind at 1. rewrite has_id_User.
  destruct (String.eqb (user_id u) userId); [reflexivity|].
  unfold bind at 1. rewrite IH. reflexivity.
Qed.

Lemma find_other_users (userId newEmail : string) (us : list User) (w : World) :
  find_first
    (fun u =>
       let! e := lower_email toLowerCase u in
       if String.eqb e (toLowerCase newEmail) then
         let! same := has_id userId u in
         ret (negb same)
       else ret false)
    (List.map User_json us) w
  = (Ok (option_map User_json (List.find (other_has_email toLowerCase userId newEmail) us)), w).
Proof.
  induction us as [|u us IH]; [reflexivity|].
  cbn [List.map find_first List.find]. unfold bind at 1. unfold bind at 1.
  rewrite lower_email_User. unfold other_has_email at 1.
  destruct (String.eqb (toLowerCase (email u)) (toLowerCase newEmail)); cbn [andb].
  - unfold bind at 1. rewrite has_id_User. unfold ret at 1.
    destruct (String.eqb (user_id u) userId); cbn [negb]; [exact IH | reflexivity].
  - unfold ret at 1. exact IH.
Qed.

(** The first user with a given id, when there is one. *)
Lemma findIndex_users_split (userId : string) (pre post : list User) (u : User) :
  (forall v, In v pre -> user_id v <> userId) ->
  user_id u = userId ->
  findIndex (fun u => String.eqb (user_id u) userId) (pre ++ u :: post)
    = Z.of_nat (length pre).
Proof.
  intros Hpre Hu. induction pre as [|v pre IH]; simpl.
  - apply String.eqb_eq in Hu. by rewrite Hu.
  - assert (Hv : String.eqb (user_id v) userId = false)
      by (apply String.eqb_neq, Hpre; by left).
    rewrite Hv, IH by (intros x Hx; apply Hpre; by right).
    destruct (Z.of_nat (length pre) =? -1) eqn:E; [apply Z.eqb_eq in E|]; lia.
Qed.

Lemma findIndex_users_none (userId : string) (us : list User) :
  (forall v, In v us -> user_id v <> userId) ->
  findIndex (fun u => String.eqb (user_id u) userId) us = -1.
Proof.
  intros H. apply findIndex_none, Forall_forall. intros v Hv.
  apply String.eqb_neq, H, list_elem_of_In, Hv.
Qed.

Lemma lookup_users_split (pre post : list User) (u : User) :
  List.map User_json (pre ++ u :: post) !! Z.to_nat (Z.of_nat (length pre))
    = Some (User_json u).
Proof.
  rewrite Nat2Z.id, List.map_app. rewrite lookup_app_r by (rewrite List.length_map; lia).
  by rewrite List.length_map, Nat.sub_diag.
Qed.

Lemma set_index_users_split (pre post : list User) (u u' : User) :
  set_index (List.map User_json (pre ++ u :: post)) (Z.of_nat (length pre)) (User_json u')
    = List.map User_json (pre ++ u' :: post).
Proof.
  unfold set_index. rewrite Nat2Z.id, !List.map_app. cbn [List.map].
  replace (length pre) with (length (List.map User_json pre) + 0)%nat
    by (rewrite List.length_map; lia).
  rewrite insert_app_r. reflexivity.
Qed.

(** Merging new credentials into a stored user that has a password. *)
Lemma merge_credentials (u : User) (old e p : string) :
  password u = Some old ->
  JObj (merge (User_json u) [("email", JStr e); ("password", JStr p)])
    = User_json (with_credentials u e p).
Proof. destruct u as [uid mail pw r en]. simpl. by intros ->. Qed.

Lemma merge_enabled (u : User) (on : bool) :
  JObj (merge (User_json u) [("enabled", JBool on)]) = User_json (with_enabled u on).
Proof. by destruct u as [uid mail [pw|] r en]. Qed.

(** The store of the browser apart from the session. *)
Lemma getActiveSession_keeps_cache (now : Z) (w : World) :
  exists v w',
    getActiveSession JSON_parse JSON_stringify now w = (Ok v, w') /\
    localStorage w' !! OFFLINE_KEY = localStorage w !! OFFLINE_KEY /\
    exists later_events, trace w' = trace w ++ later_events.
Proof.
  destruct (getActiveSession_total JSON_parse JSON_stringify now w)
    as [[E _] | [E | (user & stored & _ & E1 & E2)]].
  - exists JNull, w. split; [exact E|]. split; [reflexivity|].
    exists []. by rewrite app_nil_r.
  - exists JNull, (without_session w). split; [exact E|].
    split; [by apply lookup_delete_ne|]. exists []. by rewrite app_nil_r.
  - destruct (getActiveSession JSON_parse JSON_stringify now w) as [r w'].
    simpl in E1, E2. subst r w'. eexists _, _. split; [reflexivity|].
    split; [by apply lookup_insert_ne|]. eexists. reflexivity.
Qed.

(** The last step of [updateCloudUser], whatever the session: it
    completes and leaves the cache alone. *)
Lemma refresh_own_session_keeps_cache
    (now : Z) (userId : string) (updates : list (string * json)) (w : World) :
  exists w',
    refresh_own_session JSON_parse JSON_stringify now userId updates w = (Ok tt, w') /\
    localStorage w' !! OFFLINE_KEY = localStorage w !! OFFLINE_KEY /\
    exists later_events, trace w' = trace w ++ later_events.
Proof.
  destruct (getActiveSession_keeps_cache now w) as (v & w1 & E & Hc & evs & Ht).
  unfold refresh_own_session, bind. rewrite E.
  destruct (truthy v && _).
  - eexists. split; [reflexivity|]. cbn [localStorage trace].
    split; [by rewrite lookup_insert_ne|].
    eexists (evs ++ [_]). by rewrite Ht, app_assoc.
  - exists w1. split; [reflexivity|]. split; [exact Hc|]. by exists evs.
Qed.

End UpdateFacts.

Section UpdateRuns.
Variable JSON_parse : string -> option json.
Variable JSON_stringify : json -> string.
Variable startedAt : string.
Variable toLowerCase : string -> string.
Variable trim : string -> string.

Variables (now : Z) (nowISO : string) (reply_load reply_save : FetchReply).
Variables (s : AppData) (w w1 : World).
Hypothesis Hload :
  getCloudData JSON_parse JSON_stringify startedAt reply_load w
    = (Ok (AppData_json s), w1).

(** The call up to the search for the user. *)
Lemma updateCloudUser_unknown (userId : string) (updates : list (string * json)) :
  (forall v, In v (users s) -> user_id v <> userId) ->
  updateCloudUser JSON_parse JSON_stringify startedAt toLowerCase trim
      now nowISO reply_load reply_save userId updates w
    = (Throw "User not found.", w1).
Proof using Hload.
  intros Hnone. unfold updateCloudUser.
  unfold bind at 1. rewrite Hload. unfold bind at 1.
  change (get_prop (AppData_json s) "users" w1)
    with (Ok (Some (JArr (List.map User_json (users s)))), w1).
  cbv beta iota. unfold bind at 1.
  rewrite find_index_users, findIndex_users_none by exact Hnone.
  reflexivity.
Qed.

(** The call from the write to the array on, with the updates settled:
    the state is saved and the session is looked after. *)
Lemma updateCloudUser_tail
    (userId : string) (updates : list (string * json))
    (pre post : list User) (u u' : User) :
  JObj (merge (User_json u) updates) = User_json u' ->
  let saved := AppData_json (with_users s (pre ++ u' :: post) nowISO) in
  let items := List.map User_json (pre ++ u :: post) in
  let userIndex := Z.of_nat (length pre) in
  (let target := default JNull (items !! Z.to_nat userIndex) in
   let items := set_index items userIndex (JObj (merge target updates)) in
   let! data := set_prop (AppData_json s) "users" (JArr items) in
   run! syncToCloud JSON_stringify nowISO reply_save data in
   refresh_own_session JSON_parse JSON_stringify now userId updates) w1
  = refresh_own_session JSON_parse JSON_stringify now userId updates
      (after_sync JSON_stringify saved reply_save w1).
Proof.
  intros Hmerge saved items userIndex. subst items userIndex. cbv zeta.
  rewrite lookup_users_split. cbn [default from_option id]. rewrite Hmerge.
  rewrite set_index_users_split.
  unfold bind at 1. rewrite set_users_AppData.
  unfold bind at 1. rewrite syncToCloud_run, stamp_with_users.
  reflexivity.
Qed.

(** What the call leaves behind once the state is saved. *)
Lemma after_refresh (userId : string) (updates : list (string * json)) (saved : json) :
  exists w2 later_events,
    refresh_own_session JSON_parse JSON_stringify now userId updates
      (after_sync JSON_stringify saved reply_save w1) = (Ok tt, w2) /\
    localStorage w2 !! OFFLINE_KEY = Some (JSON_stringify saved) /\
    trace w2 =
      trace w1 ++ [EvSetItem OFFLINE_KEY (JSON_stringify saved);
                   EvFetch "POST" (Some (JSON_stringify saved))] ++ later_events.
Proof.
  destruct (refresh_own_session_keeps_cache JSON_parse JSON_stringify now userId updates
              (after_sync JSON_stringify saved reply_save w1))
    as (w2 & Hrun & Hcache & evs & Htrace).
  exists w2, (sync_report reply_save ++ evs). split; [exact Hrun|]. split.
  - rewrite Hcache. unfold after_sync. cbn [localStorage]. apply lookup_insert_eq.
  - rewrite Htrace. unfold after_sync. cbn [trace]. rewrite <- !app_assoc. reflexivity.
Qed.

(** The call for updates that leave the email alone. *)
Lemma updateCloudUser_known
    (userId : string) (updates : list (string * json))
    (pre post : list User) (u u' : User) :
  users s = pre ++ u :: post ->
  (forall v, In v pre -> user_id v <> userId) ->
  user_id u = userId ->
  (forall e, assoc "email" updates = Some e -> truthy e = false) ->
  JObj (merge (User_json u) updates) = User_json u' ->
  updateCloudUser JSON_parse JSON_stringify startedAt toLowerCase trim
      now nowISO reply_load reply_save userId updates w =
    refresh_own_session JSON_parse JSON_stringify now userId updates
      (after_sync JSON_stringify
         (AppData_json (with_users s (pre ++ u' :: post) nowISO)) reply_save w1).
Proof using Hload.
  intros Hus Hpre Hu Hmail Hmerge. unfold updateCloudUser.
  unfold bind at 1. rewrite Hload. unfold bind at 1.
  change (get_prop (AppData_json s) "users" w1)
    with (Ok (Some (JArr (List.map User_json (users s)))), w1).
  cbv beta iota. unfold bind at 1.
  rewrite find_index_users, Hus, findIndex_users_split by assumption.
  replace (Z.of_nat (length pre) =? -1) with false by (symmetry; apply Z.eqb_neq; lia).
  unfold bind at 1.
  destruct (assoc "email" updates) as [given|] eqn:Eg;
    [rewrite (Hmail given eq_refl)|]; unfold ret at 1;
    exact (updateCloudUser_tail userId updates pre post u u' Hmerge).
Qed.

(** The call for updates with a new email that no other user has. *)
Lemma updateCloudUser_email
    (userId e : string) (updates : list (string * json))
    (pre post : list User) (u u' : User) :
  users s = pre ++ u :: post ->
  (forall v, In v pre -> user_id v <> userId) ->
  user_id u = userId ->
  assoc "email" updates = Some (JStr e) ->
  e <> EmptyString ->
  List.find (other_has_email toLowerCase userId (trim e)) (users s) = None ->
  JObj (merge (User_json u) (assign "email" (JStr (trim e)) updates)) = User_json u' ->
  updateCloudUser JSON_parse JSON_stringify startedAt toLowerCase trim
      now nowISO reply_load reply_save userId updates w =
    refresh_own_session JSON_parse JSON_stringify now userId
      (assign "email" (JStr (trim e)) updates)
      (after_sync JSON_stringify
         (AppData_json (with_users s (pre ++ u' :: post) nowISO)) reply_save w1).
Proof using Hload.
  intros Hus Hpre Hu Hmail He Hfree Hmerge. unfold updateCloudUser.
  unfold bind at 1. rewrite Hload. unfold bind at 1.
  change (get_prop (AppData_json s) "users" w1)
    with (Ok (Some (JArr (List.map User_json (users s)))), w1).
  cbv beta iota. unfold bind at 1.
  rewrite find_index_users, Hus, findIndex_users_split by assumption.
  replace (Z.of_nat (length pre) =? -1) with false by (symmetry; apply Z.eqb_neq; lia).
  unfold bind at 1. rewrite Hmail. cbn [truthy].
  apply String.eqb_neq in He. rewrite He. cbn [negb]. cbv zeta.
  unfold bind at 1. rewrite find_other_users. rewrite <- Hus, Hfree.
  cbn [option_map]. unfold ret at 1. rewrite Hus.
  exact (updateCloudUser_tail userId _ pre post u u' Hmerge).
Qed.

(** The call for an email that another user has. *)
Lemma updateCloudUser_taken
    (userId e : string) (updates : list (string * json))
    (pre post : list User) (u other : User) :
  users s = pre ++ u :: post ->
  (forall v, In v pre -> user_id v <> userId) ->
  user_id u = userId ->
  assoc "email" updates = Some (JStr e) ->
  e <> EmptyString ->
  List.find (other_has_email toLowerCase userId (trim e)) (users s) = Some other ->
  updateCloudUser JSON_parse JSON_stringify startedAt toLowerCase trim
      now nowISO reply_load reply_save userId updates w
    = (Throw "Email already taken by another admin.", w1).
Proof using Hload.
  intros Hus Hpre Hu Hmail He Hfound. unfold updateCloudUser.
  unfold bind at 1. rewrite Hload. unfold bind at 1.
  change (get_prop (AppData_json s) "users" w1)
    with (Ok (Some (JArr (List.map User_json (users s)))), w1).
  cbv beta iota. unfold bind at 1.
  rewrite find_index_users, Hus, findIndex_users_split by assumption.
  replace (Z.of_nat (length pre) =? -1) with false by (symmetry; apply Z.eqb_neq; lia).
  unfold bind at 1. rewrite Hmail. cbn [truthy].
  apply String.eqb_neq in He. rewrite He. cbn [negb]. cbv zeta.
  unfold bind at 1. rewrite find_other_users. rewrite <- Hus, Hfound.
  cbn [option_map]. by destruct other as [? ? [?|] ? ?].
Qed.

End UpdateRuns.

Lemma find_none_iff {A : Type} (f : A -> bool) (l : list A) :
  (forall x, In x l -> f x = false) -> List.find f l = None.
Proof.
  induction l as [|x l IH]; [reflexivity|]. intros H. simpl.
  rewrite (H x (or_introl eq_refl)). apply IH. intros y Hy. apply H. by right.
Qed.

(** A load leaves the session alone. *)
Lemma getCloudData_keeps_session
    (JSON_parse : string -> option json) (JSON_stringify : json -> string)
    (startedAt : string) (reply : FetchReply) (v : json) (w w1 : World) :
  getCloudData JSON_parse JSON_stringify startedAt reply w = (Ok v, w1) ->
  localStorage w1 !! SESSION_TOKEN = localStorage w !! SESSION_TOKEN.
Proof.
  intros Hrun.
  destruct (getCloudData_run JSON_parse JSON_stringify startedAt reply w)
    as (v' & w' & Hrun' & Hspec).
  rewrite Hrun in Hrun'. injection Hrun' as <- <-.
  destruct (remote_payload JSON_parse reply) as [data|].
  - destruct Hspec as [_ ->]. by apply lookup_insert_ne.
  - destruct Hspec as [-> _]. reflexivity.
Qed.

(** X22. [updateCloudUser] refuses an id that no user has, and refuses a
    new email that another user has up to case; both after the load and
    before any save, so that nothing is written to the cache or sent to
    the cloud. *)
Theorem updateCloudUser_refusals
    (JSON_parse : string -> option json) (JSON_stringify : json -> string)
    (startedAt : string) (toLowerCase trim : string -> string)
    (now : Z) (nowISO : string) (reply_load reply_save : FetchReply)
    (s : AppData) (w w1 : World)
    (userId : string) (updates : list (string * json)) :
  getCloudData JSON_parse JSON_stringify startedAt reply_load w
    = (Ok (AppData_json s), w1) ->
  let update :=
    updateCloudUser JSON_parse JSON_stringify startedAt toLowerCase trim
      now nowISO reply_load reply_save in
  ((forall v, In v (users s) -> user_id v <> userId) ->
   update userId updates w = (Throw "User not found.", w1)) /\
  (forall (u other : User) (e : string),
     In u (users s) -> user_id u = userId ->
     assoc "email" updates = Some (JStr e) -> e <> EmptyString ->
     In other (users s) -> user_id other <> userId ->
     toLowerCase (email other) = toLowerCase (trim e) ->
     update userId updates w = (Throw "Email already taken by another admin.", w1)).
Proof.
  intros Hload update. split.
  - intros Hnone.
    by apply (updateCloudUser_unknown JSON_parse JSON_stringify startedAt toLowerCase trim
                now nowISO reply_load reply_save s w w1 Hload).
  - intros u other e Hin Hu Hmail He Hother Hid Hsame.
    (* the first user with the id *)
    assert (Hfirst : findIndex (fun v => String.eqb (user_id v) userId) (users s) <> -1).
    { intros Hnone. apply findIndex_none in Hnone.
      rewrite Forall_forall in Hnone. apply list_elem_of_In in Hin.
      specialize (Hnone u Hin). apply String.eqb_neq in Hnone. congruence. }
    destruct (findIndex_first _ _ Hfirst) as (pre & u0 & post & Hus & _ & Hpre & Hu0).
    destruct (List.find (other_has_email toLowerCase userId (trim e)) (users s))
      as [found|] eqn:Hfind.
    + apply (updateCloudUser_taken JSON_parse JSON_stringify startedAt toLowerCase trim
               now nowISO reply_load reply_save s w w1 Hload
               userId e updates pre post u0 found Hus); try assumption.
      * intros v Hv. rewrite Forall_forall in Hpre.
        apply String.eqb_neq, Hpre, list_elem_of_In, Hv.
      * by apply String.eqb_eq.
    + exfalso. pose proof (find_none _ _ Hfind other Hother) as Hno.
      unfold other_has_email in Hno. rewrite Hsame, String.eqb_refl in Hno.
      apply String.eqb_neq in Hid. rewrite Hid in Hno. discriminate.
Qed.

(** X23. [updateCloudUser] with a new email and password, as the edit
    form sends them, for the first user with the id, who has a password,
    and for an email that no other user has up to case: the call completes
    whatever the cloud answers, and the state it saves differs from the
    loaded one in that user alone, who keeps id, role and the enabled flag
    and gets the trimmed email and the new password. *)
Theorem updateCloudUser_changes_credentials
    (JSON_parse : string -> option json) (JSON_stringify : json -> string)
    (startedAt : string) (toLowerCase trim : string -> string)
    (now : Z) (nowISO : string) (reply_load reply_save : FetchReply)
    (s : AppData) (w w1 : World)
    (userId e p old : string) (pre post : list User) (u : User) :
  getCloudData JSON_parse JSON_stringify startedAt reply_load w
    = (Ok (AppData_json s), w1) ->
  users s = pre ++ u :: post ->
  (forall v, In v pre -> user_id v <> userId) ->
  user_id u = userId ->
  password u = Some old ->
  e <> EmptyString ->
  (forall v, In v (users s) ->
             toLowerCase (email v) = toLowerCase (trim e) -> user_id v = userId) ->
  let saved :=
    AppData_json (with_users s (pre ++ with_credentials u (trim e) p :: post) nowISO) in
  exists w2 later_events,
    updateCloudUser JSON_parse JSON_stringify startedAt toLowerCase trim
      now nowISO reply_load reply_save userId
      [("email", JStr e); ("password", JStr p)] w = (Ok tt, w2) /\
    localStorage w2 !! OFFLINE_KEY = Some (JSON_stringify saved) /\
    trace w2 =
      trace w1 ++ [EvSetItem OFFLINE_KEY (JSON_stringify saved);
                   EvFetch "POST" (Some (JSON_stringify saved))] ++ later_events.
Proof.
  intros Hload Hus Hpre Hu Hpw He Hfree saved.
  rewrite (updateCloudUser_email JSON_parse JSON_stringify startedAt toLowerCase trim
             now nowISO reply_load reply_save s w w1 Hload
             userId e [("email", JStr e); ("password", JStr p)] pre post u
             (with_credentials u (trim e) p) Hus Hpre Hu eq_refl He).
  - apply after_refresh.
  - apply find_none_iff. intros v Hv. unfold other_has_email.
    destruct (String.eqb (toLowerCase (email v)) (toLowerCase (trim e))) eqn:E;
      [|reflexivity].
    apply String.eqb_eq in E. apply (Hfree v Hv) in E.
    apply String.eqb_eq in E. by rewrite E.
  - exact (merge_credentials u old (trim e) p Hpw).
Qed.

(** X24. Switching a user off locks the account wherever the switch is
    read: after [updateCloudUser] with [enabled: false] for the user that
    a login with the given email and password finds, that login is refused
    whenever it reads the state that was saved, from the cache when the
    cloud is out of reach or from the cloud when it answers with that
    state.  When the cloud answers the login with the state from before the
    switch (the save did not reach it), that state decides: a user who was
    enabled in it still signs in. *)
Theorem disabled_user_cannot_log_in
    (JSON_parse : string -> option json) (JSON_stringify : json -> string)
    (startedAt : string) (toLowerCase trim : string -> string)
    (parse_stringify : forall v, JSON_parse (JSON_stringify v) = Some v)
    (parse_empty : JSON_parse EmptyString = None)
    (now : Z) (nowISO : string) (reply_load reply_save : FetchReply)
    (s : AppData) (w w1 : World)
    (userId e p : string) (pre post : list User) (u : User) :
  getCloudData JSON_parse JSON_stringify startedAt reply_load w
    = (Ok (AppData_json s), w1) ->
  users s = pre ++ u :: post ->
  (forall v, In v pre -> user_id v <> userId) ->
  user_id u = userId ->
  (forall v, In v pre -> matches toLowerCase trim e p v = false) ->
  matches toLowerCase trim e p u = true ->
  let saved := with_users s (pre ++ with_enabled u false :: post) nowISO in
  exists w2,
    updateCloudUser JSON_parse JSON_stringify startedAt toLowerCase trim
      now nowISO reply_load reply_save userId [("enabled", JBool false)] w
      = (Ok tt, w2) /\
    localStorage w2 !! OFFLINE_KEY = Some (JSON_stringify (AppData_json saved)) /\
    (forall (reply_login : FetchReply) (t : Z),
       unavailable reply_login = true \/
       remote_payload JSON_parse reply_login = Some (AppData_json saved) ->
       exists w3,
         authenticate JSON_parse JSON_stringify startedAt toLowerCase trim
           reply_login t e p w2 = (Ok JNull, w3)) /\
    (forall (reply_login : FetchReply) (t : Z),
       remote_payload JSON_parse reply_login = Some (AppData_json s) ->
       exists w3,
         authenticate JSON_parse JSON_stringify startedAt toLowerCase trim
           reply_login t e p w2
           = (Ok (if enabled u then User_json (without_password u) else JNull), w3)).
Proof.
  intros Hload Hus Hpre Hu Hnot Hmatch saved.
  rewrite (updateCloudUser_known JSON_parse JSON_stringify startedAt toLowerCase trim
             now nowISO reply_load reply_save s w w1 Hload
             userId [("enabled", JBool false)] pre post u (with_enabled u false)
             Hus Hpre Hu);
    [| intros x Hx; discriminate Hx | apply merge_enabled].
  destruct (after_refresh JSON_parse JSON_stringify now reply_save w1
              userId [("enabled", JBool false)] (AppData_json saved))
    as (w2 & evs & Hrun & Hcache & _).
  exists w2. split; [exact Hrun|]. split; [exact Hcache|]. split.
  - intros reply_login t Hread.
    destruct (authenticate_reading JSON_parse JSON_stringify startedAt toLowerCase trim
                parse_stringify parse_empty reply_login t e p saved w2) as (w3 & E).
    { destruct Hread as [Hdown | Hremote]; [right | left]; auto. }
    exists w3. rewrite E.
    assert (Hnone : login_spec toLowerCase trim (users saved) e p = None).
    { subst saved. cbn [users with_users]. unfold login_spec.
      rewrite find_none_app by exact Hnot. cbn [List.find].
      change (matches toLowerCase trim e p (with_enabled u false))
        with (matches toLowerCase trim e p u).
      rewrite Hmatch. reflexivity. }
    by rewrite Hnone.
  - intros reply_login t Hremote.
    destruct (authenticate_reading JSON_parse JSON_stringify startedAt toLowerCase trim
                parse_stringify parse_empty reply_login t e p s w2) as (w3 & E);
      [by left|].
    exists w3. rewrite E. unfold login_spec. rewrite Hus.
    rewrite find_none_app by exact Hnot. cbn [List.find]. rewrite Hmatch.
    by destruct (enabled u).
Qed.

(** X25. When the user who is signed in on the device changes their own
    credentials, the session follows: after the call the browser holds a
    session for the same user with the new (trimmed) email, running twenty
    minutes from now, and the user kept in it carries no password. *)
Theorem updateCloudUser_refreshes_own_session
    (JSON_parse : string -> option json) (JSON_stringify : json -> string)
    (startedAt : string) (toLowerCase trim : string -> string)
    (parse_stringify : forall v, JSON_parse (JSON_stringify v) = Some v)
    (parse_empty : JSON_parse EmptyString = None)
    (now since : Z) (nowISO : string) (reply_load reply_save : FetchReply)
    (s : AppData) (w w1 : World)
    (userId e p old : string) (pre post : list User) (u su : User) :
  getCloudData JSON_parse JSON_stringify startedAt reply_load w
    = (Ok (AppData_json s), w1) ->
  users s = pre ++ u :: post ->
  (forall v, In v pre -> user_id v <> userId) ->
  user_id u = userId ->
  password u = Some old ->
  e <> EmptyString ->
  (forall v, In v (users s) ->
             toLowerCase (email v) = toLowerCase (trim e) -> user_id v = userId) ->
  session_stored JSON_stringify (User_json su) since w ->
  user_id su = userId ->
  password su = None ->
  now <= since + SESSION_TIMEOUT_MS ->
  exists w2,
    updateCloudUser JSON_parse JSON_stringify startedAt toLowerCase trim
      now nowISO reply_load reply_save userId
      [("email", JStr e); ("password", JStr p)] w = (Ok tt, w2) /\
    session_stored JSON_stringify
      (User_json (mkUser userId (trim e) None (role su) (enabled su))) now w2.
Proof.
  intros Hload Hus Hpre Hu Hpw He Hfree Hsess Hsu Hnopw Hlive.
  rewrite (updateCloudUser_email JSON_parse JSON_stringify startedAt toLowerCase trim
             now nowISO reply_load reply_save s w w1 Hload
             userId e [("email", JStr e); ("password", JStr p)] pre post u
             (with_credentials u (trim e) p) Hus Hpre Hu eq_refl He).
  - set (ws := after_sync JSON_stringify _ reply_save w1).
    assert (Hs : session_stored JSON_stringify (User_json su) since ws).
    { unfold session_stored in *. subst ws. unfold after_sync. cbn [localStorage].
      rewrite lookup_insert_ne by discriminate.
      by rewrite (getCloudData_keeps_session _ _ _ _ _ _ _ Hload). }
    unfold refresh_own_session. unfold bind at 1.
    rewrite (getActiveSession_run JSON_parse JSON_stringify parse_stringify parse_empty
               (User_json su) since now ws)
      by (exact Hs || by destruct su as [? ? [?|] ? ?]).
    replace (now >? since + SESSION_TIMEOUT_MS) with false
      by (symmetry; rewrite Z.gtb_ltb; apply Z.ltb_ge; lia).
    destruct su as [sid smail spw srole sen]. cbn in Hsu, Hnopw. subst sid spw.
    cbn [User_json optional_field app truthy andb prop assoc String.eqb Ascii.eqb
         Bool.eqb user_id email password role enabled].
    rewrite String.eqb_refl.
    eexists. split; [reflexivity|].
    unfold session_stored, with_session. cbn [localStorage].
    rewrite lookup_insert_eq. reflexivity.
  - apply find_none_iff. intros v Hv. unfold other_has_email.
    destruct (String.eqb (toLowerCase (email v)) (toLowerCase (trim e))) eqn:E;
      [|reflexivity].
    apply String.eqb_eq in E. apply (Hfree v Hv) in E.
    apply String.eqb_eq in E. by rewrite E.
  - exact (merge_credentials u old (trim e) p Hpw).
Qed.

Lemma updateCloudUser_refusals_witness :
  update_offline "nobody" [("enabled", JBool false)] (cached_world two_admins)
    = (Throw "User not found.", after_offline_load (cached_world two_admins)) /\
  update_offline "admin-1715331600000" [("email", JStr " DARZAID700@gmail.com ")]
                 (cached_world two_admins)
    = (Throw "Email already taken by another admin.",
       after_offline_load (cached_world two_admins)).
Proof.
  split.
  - apply (updateCloudUser_refusals Codec.parse Codec.stringify
             "2024-05-01T08:00:00.000Z" JS.toLowerCase JS.trim
             1715428800000 "2024-05-11T12:00:00.000Z"
             (NetworkError "offline") (NetworkError "offline")
             two_admins (cached_world two_admins)
             (after_offline_load (cached_world two_admins))
             "nobody" [("enabled", JBool false)]);
      [vm_compute; reflexivity|].
    intros v [<-|[<-|[]]]; discriminate.
  - apply (proj2 (updateCloudUser_refusals Codec.parse Codec.stringify
             "2024-05-01T08:00:00.000Z" JS.toLowerCase JS.trim
             1715428800000 "2024-05-11T12:00:00.000Z"
             (NetworkError "offline") (NetworkError "offline")
             two_admins (cached_world two_admins)
             (after_offline_load (cached_world two_admins))
             "admin-1715331600000" [("email", JStr " DARZAID700@gmail.com ")]
             ltac:(vm_compute; reflexivity))
             imam root_admin " DARZAID700@gmail.com ");
      [right; left; reflexivity | reflexivity | reflexivity | discriminate
      | left; reflexivity | discriminate | reflexivity].
Defined.

Lemma updateCloudUser_changes_credentials_witness :
  let saved :=
    AppData_json
      (with_users sample_data
         [mkUser "root-super-admin" "new@masjid.org" (Some "pw2") SUPER_ADMIN true]
         "2024-05-11T12:00:00.000Z") in
  exists w2 later_events,
    update_offline "root-super-admin"
      [("email", JStr " new@masjid.org "); ("password", JStr "pw2")] fresh_world
      = (Ok tt, w2) /\
    localStorage w2 !! OFFLINE_KEY = Some (Codec.stringify saved) /\
    trace w2 =
      trace offline_world
        ++ [EvSetItem OFFLINE_KEY (Codec.stringify saved);
            EvFetch "POST" (Some (Codec.stringify saved))] ++ later_events.
Proof.
  apply (updateCloudUser_changes_credentials Codec.parse Codec.stringify
           "2024-05-01T08:00:00.000Z" JS.toLowerCase JS.trim
           1715428800000 "2024-05-11T12:00:00.000Z"
           (NetworkError "offline") (NetworkError "offline")
           sample_data fresh_world offline_world
           "root-super-admin" " new@masjid.org " "pw2" "darzaid123" [] [] root_admin);
    [reflexivity | reflexivity | intros v [] | reflexivity | reflexivity | discriminate |].
  intros v [<-|[]] _. reflexivity.
Defined.

Lemma disabled_user_cannot_log_in_witness :
  exists w2,
    update_offline "admin-1715331600000" [("enabled", JBool false)]
                   (cached_world two_admins) = (Ok tt, w2) /\
    (exists w3,
       authenticate Codec.parse Codec.stringify "2024-05-01T08:00:00.000Z"
           JS.toLowerCase JS.trim (NetworkError "offline") 1715428900000
           "imam@example.com" "s3cret" w2
         = (Ok JNull, w3)) /\
    (exists w3,
       authenticate Codec.parse Codec.stringify "2024-05-01T08:00:00.000Z"
           JS.toLowerCase JS.trim
           (Response 200 (Codec.stringify (AppData_json two_admins))) 1715428900000
           "imam@example.com" "s3cret" w2
         = (Ok (User_json (without_password imam)), w3)).
Proof.
  destruct (disabled_user_cannot_log_in Codec.parse Codec.stringify
              "2024-05-01T08:00:00.000Z" JS.toLowerCase JS.trim
              CodecFacts.parse_stringify CodecFacts.parse_empty
              1715428800000 "2024-05-11T12:00:00.000Z"
              (NetworkError "offline") (NetworkError "offline")
              two_admins (cached_world two_admins)
              (after_offline_load (cached_world two_admins))
              "admin-1715331600000" "imam@example.com" "s3cret"
              [root_admin] [] imam)
    as (w2 & Hrun & _ & Hsaved & Hstale);
    [vm_compute; reflexivity | reflexivity | | reflexivity | | reflexivity |].
  - intros v [<-|[]]. discriminate.
  - intros v [<-|[]]. reflexivity.
  - exists w2. split; [exact Hrun|]. split.
    + apply Hsaved. left. reflexivity.
    + apply (Hstale (Response 200 (Codec.stringify (AppData_json two_admins)))).
      vm_compute. reflexivity.
Defined.

Lemma updateCloudUser_refreshes_own_session_witness :
  let w := mkWorld {[ SESSION_TOKEN :=
                        Codec.stringify
                          (session_json (User_json (without_password root_admin))
                                        1715428000000) ]} [] in
  exists w2,
    update_offline "root-super-admin"
      [("email", JStr " new@masjid.org "); ("password", JStr "pw2")] w = (Ok tt, w2) /\
    session_stored Codec.stringify
      (User_json (mkUser "root-super-admin" "new@masjid.org" None SUPER_ADMIN true))
      1715428800000 w2.
Proof.
  intros w.
  apply (updateCloudUser_refreshes_own_session Codec.parse Codec.stringify
           "2024-05-01T08:00:00.000Z" JS.toLowerCase JS.trim
           CodecFacts.parse_stringify CodecFacts.parse_empty
           1715428800000 1715428000000 "2024-05-11T12:00:00.000Z"
           (NetworkError "offline") (NetworkError "offline")
           sample_data w (after_offline_load w)
           "root-super-admin" " new@masjid.org " "pw2" "darzaid123" [] [] root_admin
           (without_password root_admin));
    [vm_compute; reflexivity | reflexivity | intros v [] | reflexivity | reflexivity
    | discriminate | | reflexivity | reflexivity | reflexivity | vm_compute; discriminate].
  intros v [<-|[]] _. reflexivity.
Defined.

(* ===================================================================== *)
(** * Properties of the dashboard *)
(* ===================================================================== *)

(** X26. Saving from the dashboard always reports success.  Whatever the
    cloud answers, a network failure included, [handleSyncUpdates] shows
    the alert of a successful synchronization and never the one of a
    network error: [syncToCloud] has kept the failure to itself.  The
    stamped state is in the cache and the board shows the form's state. *)
Theorem handleSyncUpdates_always_reports_success
    (JSON_stringify : json -> string) (nowISO : string) (reply : FetchReply)
    (st : Admin) (f : AppData) (w : World) :
  st_formState st = Some f ->
  exists st',
    handleSyncUpdates JSON_stringify nowISO reply st w
      = (Ok st',
         after_sync JSON_stringify (AppData_json (with_lastUpdated f nowISO)) reply w) /\
    st_alerts st'
      = st_alerts st ++ ["Cloud synchronization successful. All devices updated."] /\
    st_data st' = Some f /\
    st_formState st' = Some f.
Proof.
  intros Hf. unfold handleSyncUpdates. rewrite Hf.
  unfold try_catch, bind. rewrite syncToCloud_run, stamp_AppData.
  eexists. split; [reflexivity|]. cbn. repeat split.
Qed.

Lemma handleSyncUpdates_always_reports_success_witness :
  exists st',
    handleSyncUpdates Codec.stringify "2024-05-11T12:00:00.000Z" (NetworkError "offline")
        (writing_notice sample_data None) fresh_world
      = (Ok st',
         after_sync Codec.stringify
           (AppData_json (with_lastUpdated sample_data "2024-05-11T12:00:00.000Z"))
           (NetworkError "offline") fresh_world) /\
    st_alerts st' = ["Cloud synchronization successful. All devices updated."].
Proof.
  destruct (handleSyncUpdates_always_reports_success Codec.stringify
              "2024-05-11T12:00:00.000Z" (NetworkError "offline")
              (writing_notice sample_data None) sample_data fresh_world eq_refl)
    as (st' & Hrun & Halerts & _).
  exists st'. split; [exact Hrun | exact Halerts].
Defined.

Lemma insert_at_split {A : Type} (pre post : list A) (x y : A) :
  <[Z.to_nat (Z.of_nat (length pre)) := y]> (pre ++ x :: post) = pre ++ y :: post.
Proof.
  rewrite Nat2Z.id.
  replace (length pre) with (length pre + 0)%nat by lia.
  by rewrite insert_app_r.
Qed.

Lemma findIndex_split {A : Type} (p : A -> bool) (pre post : list A) (x : A) :
  (forall y, In y pre -> p y = false) -> p x = true ->
  findIndex p (pre ++ x :: post) = Z.of_nat (length pre).
Proof.
  intros Hpre Hx. induction pre as [|y pre IH]; simpl.
  - by rewrite Hx.
  - rewrite (Hpre y (or_introl eq_refl)), IH by (intros z Hz; apply Hpre; by right).
    destruct (Z.of_nat (length pre) =? -1) eqn:E; [apply Z.eqb_eq in E|]; lia.
Qed.

(** X27. Submitting the notice form always ends with the alert that the
    notice was published, with the form emptied and the state saved.  A
    new notice goes to the front of the list.  An edited notice replaces
    the first notice with its id, in place, under the same id and with a
    new date.  When no notice has the id of the notice being edited any
    more, the list is saved unchanged and the edit is lost. *)
Theorem submitNotice_publishes
    (JSON_stringify : json -> string) (now : Z) (noticeISO syncISO : string)
    (reply : FetchReply) (st : Admin) (f : AppData) (w : World) :
  st_formState st = Some f ->
  exists ns,
    let updated := with_notices f ns in
    submitNotice JSON_stringify now noticeISO syncISO reply st w
      = (Ok (alert "Notice published globally."
               (reset_notice_form (set_data st (Some updated) (Some updated)))),
         after_sync JSON_stringify (AppData_json (with_lastUpdated updated syncISO))
                    reply w) /\
    match st_editingNotice st with
    | None => ns = form_notice st (toString (Some now)) noticeISO :: notices f
    | Some editing =>
        (forall pre found post,
           notices f = pre ++ found :: post ->
           (forall n, In n pre -> notice_id n <> notice_id editing) ->
           notice_id found = notice_id editing ->
           notice_id editing <> EmptyString ->
           ns = pre ++ form_notice st (notice_id editing) noticeISO :: post) /\
        ((forall n, In n (notices f) -> notice_id n <> notice_id editing) ->
         ns = notices f)
    end.
Proof.
  intros Hf. unfold submitNotice. rewrite Hf. cbv zeta.
  unfold bind. rewrite syncToCloud_run, stamp_AppData.
  eexists. split; [reflexivity|].
  destruct (st_editingNotice st) as [editing|]; [|reflexivity].
  split.
  - intros pre found post Hns Hpre Hfound Hid.
    rewrite Hns, (findIndex_split _ pre post found).
    + replace (Z.of_nat (length pre) =? -1) with false
        by (symmetry; apply Z.eqb_neq; lia).
      rewrite insert_at_split. apply String.eqb_neq in Hid. by rewrite Hid.
    + intros n Hn. apply String.eqb_neq, Hpre, Hn.
    + by apply String.eqb_eq.
  - intros Hnone.
    assert (E : findIndex (fun n => String.eqb (notice_id n) (notice_id editing))
                          (notices f) = -1).
    { apply findIndex_none, Forall_forall. intros n Hn.
      apply String.eqb_neq, Hnone, list_elem_of_In, Hn. }
    by rewrite E.
Qed.

Lemma submitNotice_publishes_witness :
  exists ns,
    submitNotice Codec.stringify 1715428800000 "2024-05-11T12:00:00.000Z"
        "2024-05-11T12:00:00.100Z" (NetworkError "offline")
        (writing_notice sample_data
           (Some (mkNotice "gone" "Old" "Old text" "2024-05-02T10:00:00.000Z" None false)))
        fresh_world
      = (Ok (mkAdmin (Some (with_notices sample_data ns))
                     (Some (with_notices sample_data ns))
                     None EmptyString EmptyString EmptyString false None
                     ["Notice published globally."]),
         after_sync Codec.stringify
           (AppData_json (with_lastUpdated (with_notices sample_data ns)
                                           "2024-05-11T12:00:00.100Z"))
           (NetworkError "offline") fresh_world) /\
    ns = notices sample_data.
Proof.
  destruct (submitNotice_publishes Codec.stringify 1715428800000
              "2024-05-11T12:00:00.000Z" "2024-05-11T12:00:00.100Z"
              (NetworkError "offline")
              (writing_notice sample_data
                 (Some (mkNotice "gone" "Old" "Old text" "2024-05-02T10:00:00.000Z"
                                 None false)))
              sample_data fresh_world eq_refl)
    as (ns & Hrun & _ & Hlost).
  exists ns. split; [exact Hrun|].
  apply Hlost. intros n [<-|[]]. discriminate.
Defined.

(** X28. Deleting a notice takes two clicks.  The first click on a
    notice only asks for confirmation: the data and the browser stay as
    they are.  The second click on the same notice removes every notice
    with that id from the board, keeps the others in their order, saves
    the result whatever the cloud answers, and withdraws the question.
    When the question was withdrawn in between, the click asks again. *)
Theorem handleDeleteNotice_takes_two_clicks
    (JSON_stringify : json -> string) (nowISO : string) (reply : FetchReply)
    (id : string) (st : Admin) (d : AppData) (w : World) :
  st_data st = Some d ->
  st_deletingId st <> Some id ->
  let asked := set_deletingId st (Some id) in
  let kept := List.filter (fun n => negb (String.eqb (notice_id n) id)) (notices d) in
  handleDeleteNotice JSON_stringify nowISO reply id st w = (Ok asked, w) /\
  handleDeleteNotice JSON_stringify nowISO reply id (withdrawDeleteQuestion asked) w
    = (Ok asked, w) /\
  exists st2,
    handleDeleteNotice JSON_stringify nowISO reply id asked w
      = (Ok st2,
         after_sync JSON_stringify
           (AppData_json (with_lastUpdated (with_notices d kept) nowISO)) reply w) /\
    st_data st2 = Some (with_notices d kept) /\
    st_formState st2 = Some (with_notices d kept) /\
    st_deletingId st2 = None /\
    (forall n, In n kept <-> In n (notices d) /\ notice_id n <> id).
Proof.
  intros Hd Hnot asked kept.
  assert (Hno : match st_deletingId st with
                | Some x => String.eqb x id
                | None => false
                end = false).
  { destruct (st_deletingId st) as [x|]; [|reflexivity].
    apply String.eqb_neq. congruence. }
  split; [|split].
  - unfold handleDeleteNotice. by rewrite Hd, Hno.
  - unfold handleDeleteNotice. cbn. by rewrite Hd.
  - unfold handleDeleteNotice. cbn [asked set_deletingId st_data st_deletingId].
    rewrite Hd, String.eqb_refl. cbv zeta.
    unfold bind, try_catch. rewrite syncToCloud_run, stamp_AppData.
    eexists. split; [reflexivity|].
    split; [by destruct (match st_editingNotice _ with Some _ => _ | None => false end)|].
    split; [by destruct (match st_editingNotice _ with Some _ => _ | None => false end)|].
    split; [by destruct (match st_editingNotice _ with Some _ => _ | None => false end)|].
    intros n. subst kept. rewrite filter_In, negb_true_iff, String.eqb_neq. tauto.
Qed.

Lemma handleDeleteNotice_takes_two_clicks_witness :
  let st := writing_notice sample_data None in
  handleDeleteNotice Codec.stringify "2024-05-11T12:00:00.000Z" (NetworkError "offline")
      "welcome-msg" st fresh_world
    = (Ok (set_deletingId st (Some "welcome-msg")), fresh_world) /\
  exists st2,
    handleDeleteNotice Codec.stringify "2024-05-11T12:00:00.000Z" (NetworkError "offline")
        "welcome-msg" (set_deletingId st (Some "welcome-msg")) fresh_world
      = (Ok st2,
         after_sync Codec.stringify
           (AppData_json (with_lastUpdated (with_notices sample_data [])
                                           "2024-05-11T12:00:00.000Z"))
           (NetworkError "offline") fresh_world) /\
    st_data st2 = Some (with_notices sample_data []).
Proof.
  intros st.
  destruct (handleDeleteNotice_takes_two_clicks Codec.stringify
              "2024-05-11T12:00:00.000Z" (NetworkError "offline") "welcome-msg"
              st sample_data fresh_world eq_refl)
    as (Hfirst & _ & st2 & Hsecond & Hdata & _); [discriminate|].
  split; [exact Hfirst|]. exists st2. split; [exact Hsecond | exact Hdata].
Defined.

(** X29. What a load returns while the cloud answers is what the next
    load returns when the cloud is out of reach: the payload went to the
    cache, and the cache gives it back unchanged. *)
Theorem online_load_then_offline_load
    (JSON_parse : string -> option json) (JSON_stringify : json -> string)
    (startedAt : string)
    (parse_stringify : forall v, JSON_parse (JSON_stringify v) = Some v)
    (parse_empty : JSON_parse EmptyString = None)
    (reply_online reply_offline : FetchReply) (data : json) (w : World) :
  remote_payload JSON_parse reply_online = Some data ->
  unavailable reply_offline = true ->
  exists w1 w2,
    getCloudData JSON_parse JSON_stringify startedAt reply_online w = (Ok data, w1) /\
    getCloudData JSON_parse JSON_stringify startedAt reply_offline w1 = (Ok data, w2) /\
    localStorage w2 = localStorage w1.
Proof.
  intros Hremote Hdown.
  destruct (getCloudData_run JSON_parse JSON_stringify startedAt reply_online w)
    as (v1 & w1 & Hrun1 & Hspec1).
  rewrite Hremote in Hspec1. destruct Hspec1 as [-> Hls1].
  destruct (getCloudData_run JSON_parse JSON_stringify startedAt reply_offline w1)
    as (v2 & w2 & Hrun2 & Hspec2).
  assert (Hnone : remote_payload JSON_parse reply_offline = None).
  { destruct reply_offline as [|status body]; [reflexivity|]. simpl in *.
    by destruct (response_ok status). }
  rewrite Hnone in Hspec2. destruct Hspec2 as [Hls2 Hv2].
  rewrite Hls1, lookup_insert_eq in Hv2.
  rewrite (cached_state_usable JSON_parse JSON_stringify parse_stringify parse_empty
             data (remote_payload_usable _ _ _ Hremote)) in Hv2.
  simpl in Hv2. subst v2.
  exists w1, w2. repeat split; assumption.
Qed.

Lemma online_load_then_offline_load_witness :
  let body := Codec.stringify (AppData_json two_admins) in
  exists w1 w2,
    getCloudData Codec.parse Codec.stringify "2024-05-01T08:00:00.000Z"
        (Response 200 body) fresh_world = (Ok (AppData_json two_admins), w1) /\
    getCloudData Codec.parse Codec.stringify "2024-05-01T08:00:00.000Z"
        (NetworkError "offline") w1 = (Ok (AppData_json two_admins), w2) /\
    localStorage w2 = localStorage w1.
Proof.
  intros body.
  apply (online_load_then_offline_load Codec.parse Codec.stringify
           "2024-05-01T08:00:00.000Z" CodecFacts.parse_stringify CodecFacts.parse_empty
           (Response 200 body) (NetworkError "offline") (AppData_json two_admins)
           fresh_world);
    [vm_compute; reflexivity | reflexivity].
Defined.

(** X30. As long as the cache holds nothing but usable states, every
    load returns a usable state (one with the schedule, the users and the
    links), whatever the cloud answers, and leaves the cache holding
    nothing but usable states; so does saving the state that was loaded. *)
Theorem loads_and_saves_keep_the_state_usable
    (JSON_parse : string -> option json) (JSON_stringify : json -> string)
    (startedAt : string)
    (parse_stringify : forall v, JSON_parse (JSON_stringify v) = Some v)
    (parse_empty : JSON_parse EmptyString = None)
    (reply_load reply_save : FetchReply) (now : string) (w : World) :
  cache_usable JSON_parse w ->
  exists v w1 w2,
    getCloudData JSON_parse JSON_stringify startedAt reply_load w = (Ok v, w1) /\
    usable v = true /\
    cache_usable JSON_parse w1 /\
    syncToCloud JSON_stringify now reply_save v w1 = (Ok tt, w2) /\
    cache_usable JSON_parse w2.
Proof.
  intros Hcache.
  destruct (getCloudData_run JSON_parse JSON_stringify startedAt reply_load w)
    as (v & w1 & Hrun & Hspec).
  assert (Hu : usable v = true).
  { destruct (remote_payload JSON_parse reply_load) as [data|] eqn:Hremote.
    - destruct Hspec as [-> _]. exact (remote_payload_usable _ _ _ Hremote).
    - destruct Hspec as [_ ->].
      destruct (cached_state JSON_parse (localStorage w !! OFFLINE_KEY)) as [c|] eqn:Hc.
      + exact (Hcache c Hc).
      + reflexivity. }
  exists v, w1. eexists. split; [exact Hrun|]. split; [exact Hu|].
  split.
  - exact (getCloudData_keeps_cache_usable JSON_parse JSON_stringify startedAt
             parse_stringify parse_empty reply_load w w1 v Hrun Hcache).
  - split; [apply syncToCloud_run|].
    apply (syncToCloud_keeps_cache_usable JSON_parse JSON_stringify
             parse_stringify parse_empty now reply_save v w1);
      [apply syncToCloud_run | exact Hu].
Qed.

Lemma loads_and_saves_keep_the_state_usable_witness :
  exists v w1 w2,
    getCloudData Codec.parse Codec.stringify "2024-05-01T08:00:00.000Z"
        (Response 500 "Internal Server Error") (cached_world two_admins) = (Ok v, w1) /\
    usable v = true /\
    cache_usable Codec.parse w1 /\
    syncToCloud Codec.stringify "2024-05-11T12:00:00.000Z" (NetworkError "offline") v w1
      = (Ok tt, w2) /\
    cache_usable Codec.parse w2.
Proof.
  apply (loads_and_saves_keep_the_state_usable Codec.parse Codec.stringify
           "2024-05-01T08:00:00.000Z" CodecFacts.parse_stringify CodecFacts.parse_empty
           (Response 500 "Internal Server Error") (NetworkError "offline")
           "2024-05-11T12:00:00.000Z" (cached_world two_admins)).
  intros v Hv. vm_compute in Hv. injection Hv as <-. reflexivity.
Defined.
